(** * Arbitrage detection engine and risk-managed paper execution

    A shallow embedding of the TypeScript classes
    - [RiskManager]               ([src/execution/riskManager.ts]),
    - [SlippageModel], [PaperTradingExecutor] and [SimulationExecutor]
                                  ([src/execution/slippageModel.ts]),
    - [CrossMarketDetector], [QuestionSimilarityMatcher] and
      [ArbitrageEngine]
                                  ([src/arbitrage/detectors/crossMarketDetector.ts]),
    each in a module of its name, followed by the properties proved of
    them.

    Conventions.
    - A JavaScript [number] is idealised as a rational ([Q]); comparisons
      are the boolean tests [Qle_bool] and [Qltb].  Where the source divides
      by a quantity that may be zero, the zero case is written out next to
      the definition.
    - Where [Infinity] or [NaN] reaches a computation, the number is a
      [JsNumber.number]: a rational, [infinity], [neg_infinity] or [nan],
      with the arithmetic and the comparisons of the language.  The
      modules [JsSlippageModel] and [JsPaperTradingExecutor] are the
      slippage model and the paper executor on such numbers, total on
      every input; [SlippageModel] and [PaperTradingExecutor] are the
      same functions on the rationals, whose results they return on
      finite numbers with a liquidity other than zero
      ([estimate_on_finite], [addNoiseWith_on_finite],
      [execute_on_finite]).
      [SimulationExecutor] is total as well: its executed prices and
      realized profit are finite or [NaN].  Rounding and the sign of
      zero are not modelled.
    - [Date.now()] and [Math.random()] are inputs: a clock reading [now : Z]
      (milliseconds) and a tape of draws [nat -> Q] read through a counter.
    - A JavaScript [Map<string, V>] is a [gmap string V]; a [Set<string>] is
      a [gset string].
    - A JavaScript string is a [string] of ASCII characters, its length
      the number of characters.
    - Console output, the repository and the notification channel are not
      modelled. *)

From Stdlib Require Import QArith Qabs Qminmax Lqa ZArith Lia List Ascii String.
From Stdlib Require Import Sorted Permutation.
From stdpp Require Import gmap strings list fin_maps.

(* ===================================================================== *)
(** * Numbers *)
(* ===================================================================== *)

Module JsNum.
Local Open Scope Q_scope.

(** [x < y] as a boolean.  [Math.min] and [Math.max] on two finite
    numbers are [Qmin] and [Qmax]. *)
Definition Qltb (x y : Q) : bool := negb (Qle_bool y x).
End JsNum.

(* ===================================================================== *)
(** * Shared types ([arbitrage/types], [execution/types]) *)
(* ===================================================================== *)

Module Types.
Inductive ArbitrageType := multi_outcome | cross_market | related_market.

Definition ArbitrageType_to_string (t : ArbitrageType) : string :=
  match t with
  | multi_outcome => "multi_outcome"
  | cross_market => "cross_market"
  | related_market => "related_market"
  end.

Definition ArbitrageType_eqb (a b : ArbitrageType) : bool :=
  match a, b with
  | multi_outcome, multi_outcome
  | cross_market, cross_market
  | related_market, related_market => true
  | _, _ => false
  end.

(** The union [ArbitrageOpportunity], flattened: the fields of
    [BaseOpportunity] that the modelled functions read, and the
    second-market fields that the code reaches through
    [(opp as any).market2...], absent on single-market variants. *)
Record ArbitrageOpportunity := {
  id : option Z;
  type : ArbitrageType;
  subType : option string;
  market1Id : string;
  market1Question : string;
  market1Price : Q;
  market1Liquidity : Q;
  spread : Q;
  profitPercent : Q;
  confidenceScore : Q;
  market2Id : option string;
  market2Question : option string;
  market2Price : option Q;
  market2Liquidity : option Q;
}.

Inductive OrderSide := BUY | SELL.

Record RiskLimits := {
  maxPositionSizeUsd : Q;
  maxTotalExposureUsd : Q;
  maxDailyLossUsd : Q;
  maxSlippagePercent : Q;
  minLiquidityUsd : Q;
  maxGasCostUsd : Q;
  cooldownMs : Q;
}.

Record Position := {
  marketId : string;
  outcome : Z;
  size : Q;
  avgEntryPrice : Q;
  currentPrice : Q;
  unrealizedPnl : Q;
  openedAt : Z;
}.

Record SlippageEstimate := {
  estimatedSlippageBps : Q;
  estimatedExecutionPrice : Q;
  confidence : Q;
  liquidityDepth : Q;
}.
End Types.

(* ===================================================================== *)
(** * Configuration ([src/config.ts], the fields read below) *)
(* ===================================================================== *)

Module Config.
Record ArbitrageConfig := {
  baseSlippageBps : Q;
  liquidityImpactFactor : Q;
  risk_maxPositionSizeUsd : Q;
  risk_maxTotalExposureUsd : Q;
  risk_maxDailyLossUsd : Q;
  risk_minLiquidityUsd : Q;
  risk_tradeCooldownMs : Q;
}.

(** The values [loadArbitrageConfig] falls back to when the environment
    sets nothing. *)
Definition defaults : ArbitrageConfig := {|
  baseSlippageBps := 10;
  liquidityImpactFactor := 0.5;
  risk_maxPositionSizeUsd := 1000;
  risk_maxTotalExposureUsd := 5000;
  risk_maxDailyLossUsd := 500;
  risk_minLiquidityUsd := 5000;
  risk_tradeCooldownMs := 5000;
|}.
End Config.

(* ===================================================================== *)
(** * RiskManager ([src/execution/riskManager.ts]) *)
(* ===================================================================== *)

Module RiskManager.
Import JsNum Types.
Local Open Scope Q_scope.

(** The private fields of the class. *)
Record t := {
  limits : RiskLimits;
  positions : gmap string Position;
  dailyPnL : Q;
  dailyVolume : Q;
  lastTradeTime : Z;
  totalExposure : Q;
  dailyReset : Z;
}.

(** The message of a failed check, kept as the template's name and the
    numbers it interpolates. *)
Inductive Reason :=
| PositionWouldExceed (newSize limit : Q)
| ExposureWouldExceed (newExposure limit : Q)
| DailyLossReached (absPnL : Q)
| InsufficientLiquidity (minLiquidity limit : Q)
| CooldownActive (remainingMs : Q)
| ProfitTooLow (netProfit : option Q).

Record Check := {
  name : string;
  passed : bool;
  reason : option Reason;
}.

(** [failure] is the result's [reason] field: the reason of the first
    failed check. *)
Record RiskCheckResult := {
  approved : bool;
  failure : option Reason;
  checks : list Check;
}.

Definition msPerDay : Z := 86400000.

(** [getNextMidnight]: [setUTCHours(24,0,0,0)] on the current instant. *)
Definition getNextMidnight (now : Z) : Z :=
  ((now / msPerDay) + 1) * msPerDay.

(** The constructor, with the limits already resolved against the
    configuration defaults. *)
Definition new (lim : RiskLimits) (now : Z) : t := {|
  limits := lim;
  positions := ∅;
  dailyPnL := 0;
  dailyVolume := 0;
  lastTradeTime := 0;
  totalExposure := 0;
  dailyReset := getNextMidnight now;
|}.

Definition limitsOfConfig (c : Config.ArbitrageConfig) : RiskLimits := {|
  maxPositionSizeUsd := Config.risk_maxPositionSizeUsd c;
  maxTotalExposureUsd := Config.risk_maxTotalExposureUsd c;
  maxDailyLossUsd := Config.risk_maxDailyLossUsd c;
  maxSlippagePercent := 1;
  minLiquidityUsd := Config.risk_minLiquidityUsd c;
  maxGasCostUsd := 5;
  cooldownMs := Config.risk_tradeCooldownMs c;
|}.

Definition resetDaily (now : Z) (rm : t) : t := {|
  limits := limits rm;
  positions := positions rm;
  dailyPnL := 0;
  dailyVolume := 0;
  lastTradeTime := lastTradeTime rm;
  totalExposure := totalExposure rm;
  dailyReset := getNextMidnight now;
|}.

Definition checkDailyReset (now : Z) (rm : t) : t :=
  if (dailyReset rm <=? now)%Z then resetDaily now rm else rm.

(** [existingPosition?.size || 0] *)
Definition currentSize (rm : t) (opp : ArbitrageOpportunity) : Q :=
  match positions rm !! market1Id opp with
  | Some p => size p
  | None => 0
  end.

Definition checkPositionLimit (rm : t) (opp : ArbitrageOpportunity)
    (orderSizeUsd : Q) : Check :=
  let newSize := currentSize rm opp + orderSizeUsd in
  let passed := Qle_bool newSize (maxPositionSizeUsd (limits rm)) in
  {| name := "position_limit";
     passed := passed;
     reason := if passed then None
               else Some (PositionWouldExceed newSize
                            (maxPositionSizeUsd (limits rm))) |}.

Definition checkTotalExposure (rm : t) (orderSizeUsd : Q) : Check :=
  let newExposure := totalExposure rm + orderSizeUsd in
  let passed := Qle_bool newExposure (maxTotalExposureUsd (limits rm)) in
  {| name := "total_exposure";
     passed := passed;
     reason := if passed then None
               else Some (ExposureWouldExceed newExposure
                            (maxTotalExposureUsd (limits rm))) |}.

Definition checkDailyLoss (rm : t) : Check :=
  let passed := Qltb (- maxDailyLossUsd (limits rm)) (dailyPnL rm) in
  {| name := "daily_loss";
     passed := passed;
     reason := if passed then None
               else Some (DailyLossReached (Qabs (dailyPnL rm))) |}.

(** [Math.min(market1Liquidity, market2Liquidity || Infinity)]: an absent
    or zero second liquidity leaves the first one. *)
Definition minLiquidityOf (opp : ArbitrageOpportunity) : Q :=
  match type opp with
  | multi_outcome => market1Liquidity opp
  | _ =>
      match market2Liquidity opp with
      | Some l2 => if Qeq_bool l2 0 then market1Liquidity opp
                   else Qmin (market1Liquidity opp) l2
      | None => market1Liquidity opp
      end
  end.

Definition checkLiquidity (rm : t) (opp : ArbitrageOpportunity) : Check :=
  let minLiquidity := minLiquidityOf opp in
  let passed := Qle_bool (minLiquidityUsd (limits rm)) minLiquidity in
  {| name := "liquidity";
     passed := passed;
     reason := if passed then None
               else Some (InsufficientLiquidity minLiquidity
                            (minLiquidityUsd (limits rm))) |}.

Definition checkCooldown (now : Z) (rm : t) : Check :=
  let timeSinceLastTrade := inject_Z (now - lastTradeTime rm) in
  let passed := Qle_bool (cooldownMs (limits rm)) timeSinceLastTrade in
  {| name := "cooldown";
     passed := passed;
     reason := if passed then None
               else Some (CooldownActive
                            (cooldownMs (limits rm) - timeSinceLastTrade)) |}.

(** [netProfit = profitPercent - (orderSizeUsd / market1Liquidity) * 0.5 * 100].
    With a zero liquidity the quotient is not finite: [+Infinity] for a
    positive order (net profit [-Infinity], check fails), [NaN] for a zero
    order (every comparison with NaN is false), [-Infinity] for a negative
    order (net profit [+Infinity], check passes).  [None] stands for
    those values. *)
Definition netProfitAfterSlippage (opp : ArbitrageOpportunity)
    (orderSizeUsd : Q) : option Q :=
  if Qeq_bool (market1Liquidity opp) 0 then None
  else Some (profitPercent opp
             - (orderSizeUsd / market1Liquidity opp) * 0.5 * 100).

Definition checkMinProfitability (opp : ArbitrageOpportunity)
    (orderSizeUsd : Q) : Check :=
  let netProfit := netProfitAfterSlippage opp orderSizeUsd in
  let passed := match netProfit with
                | Some n => Qltb 0.1 n
                | None => Qltb orderSizeUsd 0
                end in
  {| name := "profitability";
     passed := passed;
     reason := if passed then None else Some (ProfitTooLow netProfit) |}.

(** [checkPreExecution]: the daily reset runs first and is the only
    state change; the six checks read the state it leaves. *)
Definition checkPreExecution (now : Z) (rm : t)
    (opportunity : ArbitrageOpportunity) (orderSizeUsd : Q)
    : t * RiskCheckResult :=
  let rm' := checkDailyReset now rm in
  let checks :=
    [ checkPositionLimit rm' opportunity orderSizeUsd;
      checkTotalExposure rm' orderSizeUsd;
      checkDailyLoss rm';
      checkLiquidity rm' opportunity;
      checkCooldown now rm';
      checkMinProfitability opportunity orderSizeUsd ] in
  let failed := List.find (fun c => negb (passed c)) checks in
  (rm', {| approved := match failed with Some _ => false | None => true end;
           failure := match failed with Some c => reason c | None => None end;
           checks := checks |}).

(** [Array.from(positions.values()).reduce((sum, p) => sum + Math.abs(p.size), 0)].
    The fold visits the entries in the map's own order; a sum of
    rationals does not depend on it. *)
Definition sumAbsSizes (ps : gmap string Position) : Q :=
  map_fold (fun _ p sum => sum + Qabs (size p)) 0 ps.

Definition updatePositions (now : Z) (ps : gmap string Position)
    (mid : string) (side : OrderSide) (sizeUsd price : Q)
    : gmap string Position :=
  match ps !! mid with
  | Some existing =>
      let size' := match side with
                   | BUY => size existing + sizeUsd
                   | SELL => size existing - sizeUsd
                   end in
      let existing' := {|
        marketId := marketId existing;
        outcome := outcome existing;
        size := size';
        avgEntryPrice := avgEntryPrice existing;
        currentPrice := price;
        unrealizedPnl := (price - avgEntryPrice existing) * size';
        openedAt := openedAt existing |} in
      if Qle_bool size' 0 then delete mid ps
      else <[mid := existing']> ps
  | None =>
      match side with
      | BUY => <[mid := {| marketId := mid;
                           outcome := 1;
                           size := sizeUsd;
                           avgEntryPrice := price;
                           currentPrice := price;
                           unrealizedPnl := 0;
                           openedAt := now |}]> ps
      | SELL => ps
      end
  end.

Definition updateAfterExecution (now : Z) (rm : t) (mid : string)
    (side : OrderSide) (sizeUsd price pnl : Q) : t :=
  let positions' := updatePositions now (positions rm) mid side sizeUsd price in
  {| limits := limits rm;
     positions := positions';
     dailyPnL := dailyPnL rm + pnl;
     dailyVolume := dailyVolume rm + sizeUsd;
     lastTradeTime := now;
     totalExposure := sumAbsSizes positions';
     dailyReset := dailyReset rm |}.

Definition emergencyStop (rm : t) : t := {|
  limits := {|
    maxPositionSizeUsd := maxPositionSizeUsd (limits rm);
    maxTotalExposureUsd := 0;
    maxDailyLossUsd := 0;
    maxSlippagePercent := maxSlippagePercent (limits rm);
    minLiquidityUsd := minLiquidityUsd (limits rm);
    maxGasCostUsd := maxGasCostUsd (limits rm);
    cooldownMs := cooldownMs (limits rm) |};
  positions := positions rm;
  dailyPnL := dailyPnL rm;
  dailyVolume := dailyVolume rm;
  lastTradeTime := lastTradeTime rm;
  totalExposure := totalExposure rm;
  dailyReset := dailyReset rm;
|}.

(** The public, state-changing methods, as one call each. *)
Inductive Call :=
| CallCheckPreExecution (now : Z) (opp : ArbitrageOpportunity) (orderSizeUsd : Q)
| CallUpdateAfterExecution (now : Z) (mid : string) (side : OrderSide)
    (sizeUsd price pnl : Q)
| CallResetDaily (now : Z)
| CallEmergencyStop.

Definition step (rm : t) (c : Call) : t :=
  match c with
  | CallCheckPreExecution now opp sz => fst (checkPreExecution now rm opp sz)
  | CallUpdateAfterExecution now mid side sz price pnl =>
      updateAfterExecution now rm mid side sz price pnl
  | CallResetDaily now => resetDaily now rm
  | CallEmergencyStop => emergencyStop rm
  end.

Definition run (rm : t) (cs : list Call) : t := fold_left step cs rm.

(** What [getState] returns. *)
Module State.
Record t := {
  dailyPnL : Q;
  dailyVolume : Q;
  totalExposure : Q;
  positionCount : nat;
  lastTradeTime : Z;
  limitsReached : list string;
}.
End State.

Definition getState (rm : t) : State.t :=
  let limitsReached :=
    (if Qle_bool (dailyPnL rm) (- maxDailyLossUsd (limits rm))
     then ["daily_loss"] else [])
    ++ (if Qle_bool (maxTotalExposureUsd (limits rm)) (totalExposure rm)
        then ["total_exposure"] else []) in
  {| State.dailyPnL := dailyPnL rm;
     State.dailyVolume := dailyVolume rm;
     State.totalExposure := totalExposure rm;
     State.positionCount := base.size (positions rm);
     State.lastTradeTime := lastTradeTime rm;
     State.limitsReached := limitsReached |}.
End RiskManager.

(* ===================================================================== *)
(** * Random draws *)
(* ===================================================================== *)

(** A computation that calls [Math.random()]: it reads a tape of draws,
    each in [0, 1), through a counter, so that a draw skipped by a
    short-circuit is not consumed. *)
Module Rand.
Definition M (A : Type) : Type := (nat -> Q) -> nat -> A * nat.

Definition ret {A} (a : A) : M A := fun _ i => (a, i).

Definition bind {A B} (m : M A) (k : A -> M B) : M B :=
  fun tape i => let (a, j) := m tape i in k a tape j.

Definition random : M Q := fun tape i => (tape i, S i).

Definition eval {A} (m : M A) (tape : nat -> Q) : A := fst (m tape 0%nat).

(** A tape given by its first draws; later draws are [0]. *)
Definition tapeOf (l : list Q) : nat -> Q := fun i => List.nth i l 0%Q.

Module Notations.
Notation "x <- m ;; k" := (bind m (fun x => k))
  (at level 100, m at next level, right associativity).
End Notations.
End Rand.

(* ===================================================================== *)
(** * SlippageModel ([src/execution/slippageModel.ts]) *)
(* ===================================================================== *)

Module SlippageModel.
Import JsNum Types Rand Rand.Notations.
Local Open Scope Q_scope.

Definition calculatePriceImpact (price : Q) (isBuy : bool) : Q :=
  if isBuy then
    if Qltb 0.9 price then (price - 0.9) * 100 else 0
  else
    if Qltb price 0.1 then (0.1 - price) * 100 else 0.

(** [estimate], for [marketLiquidity <> 0]; with a zero liquidity the
    ratio is not finite and the result is [None]. *)
Definition estimate (cfg : Config.ArbitrageConfig)
    (orderSizeUsd marketLiquidity : Q) (isBuy : bool) (currentPrice : Q)
    : option SlippageEstimate :=
  if Qeq_bool marketLiquidity 0 then None else
  let baseSlippageBps := Config.baseSlippageBps cfg in
  let liquidityRatio := orderSizeUsd / marketLiquidity in
  let liquidityImpactBps :=
    liquidityRatio * Config.liquidityImpactFactor cfg * 10000 in
  let priceImpactBps := calculatePriceImpact currentPrice isBuy in
  let totalSlippageBps := baseSlippageBps + liquidityImpactBps + priceImpactBps in
  let slippageMultiplier := totalSlippageBps / 10000 in
  let estimatedExecutionPrice :=
    if isBuy then currentPrice * (1 + slippageMultiplier)
    else currentPrice * (1 - slippageMultiplier) in
  let confidence := Qmax 0.3 (1 - liquidityRatio * 2) in
  Some {| estimatedSlippageBps := totalSlippageBps;
          estimatedExecutionPrice := Qmax 0.01 (Qmin 0.99 estimatedExecutionPrice);
          confidence := confidence;
          liquidityDepth := marketLiquidity |}.

(** [addNoise] with the draw [r] of [Math.random()].  The price field
    follows the source for [1 + estimatedSlippageBps / 10000 <> 0]; the
    basis-point field does not depend on that division. *)
Definition addNoiseWith (r : Q) (estimate : SlippageEstimate) : SlippageEstimate :=
  let noise := (r - 0.5) * 0.4 in
  let noisySlippage := estimatedSlippageBps estimate * (1 + noise) in
  let slippageMultiplier := noisySlippage / 10000 in
  let originalPrice :=
    estimatedExecutionPrice estimate
    / (1 + estimatedSlippageBps estimate / 10000) in
  {| estimatedSlippageBps := Qmax 0 noisySlippage;
     estimatedExecutionPrice :=
       Qmax 0.01 (Qmin 0.99 (originalPrice * (1 + slippageMultiplier)));
     confidence := confidence estimate;
     liquidityDepth := liquidityDepth estimate |}.

Definition addNoise (estimate : SlippageEstimate) : M SlippageEstimate :=
  r <- random ;; ret (addNoiseWith r estimate).
End SlippageModel.

(* ===================================================================== *)
(** * PaperTradingExecutor (second part of [src/execution/slippageModel.ts]) *)
(* ===================================================================== *)

Module PaperTradingExecutor.
Import JsNum Types Rand Rand.Notations.
Local Open Scope Q_scope.

Inductive LegStatus := filled | partial | failed.

Record PaperTrade := {
  id : Z;
  timestamp : Z;
  opportunityType : string;
  subType : option string;
  market1Question : string;
  market2Question : option string;
  positionSize : Q;
  kellyFraction : Q;
  expectedProfit : Q;
  realizedProfit : Q;
  profitPercent : Q;
  leg1Status : LegStatus;
  leg2Status : option LegStatus;
  slippageBps : option Q;
  executionTimeMs : Z;
  balanceAfter : Q;
  success : bool;
  failureReason : option string;
}.

(** The fields of the class that [execute] reads or writes. *)
Record t := {
  bankroll : Q;
  startingBankroll : Q;
  trades : list PaperTrade;
  tradeIdCounter : Z;
  peakBalance : Q;
  maxDrawdown : Q;
}.

Definition LEG_FAILURE_PROBABILITY : Q := 0.05.
Definition PARTIAL_FILL_PROBABILITY : Q := 0.15.

Definition new (startingBankroll : Q) : t := {|
  bankroll := startingBankroll;
  startingBankroll := startingBankroll;
  trades := [];
  tradeIdCounter := 0;
  peakBalance := startingBankroll;
  maxDrawdown := 0;
|}.

(** [calculateKellyFraction].  When [odds] is zero the numerator is
    [- loseProbability], which is negative because the win probability
    is at most 0.95; the quotient is [-Infinity] and
    [Math.max(0.01, -Infinity)] is [0.01]. *)
Definition calculateKellyFraction (confidenceScore expectedProfitPercent : Q) : Q :=
  let winProbability := Qmin 0.95 (Qmax 0.5 confidenceScore) in
  let loseProbability := 1 - winProbability in
  let profitIfWin := expectedProfitPercent / 100 in
  let lossIfLose := 0.02 in
  let odds := profitIfWin / lossIfLose in
  if Qeq_bool odds 0 then Qmin 0.25 0.01 else
  let kelly := (odds * winProbability - loseProbability) / odds in
  let fractionalKelly := kelly * 0.5 in
  Qmin 0.25 (Qmax 0.01 fractionalKelly).

Definition calculatePositionSize (cfg : Config.ArbitrageConfig) (ex : t)
    (opportunity : ArbitrageOpportunity) : Q :=
  let kellyFraction :=
    calculateKellyFraction (confidenceScore opportunity)
                           (Types.profitPercent opportunity) in
  let positionSize := bankroll ex * kellyFraction in
  let positionSize := Qmin positionSize (Config.risk_maxPositionSizeUsd cfg) in
  let positionSize := Qmin positionSize (bankroll ex * 0.25) in
  let positionSize := Qmax positionSize 5 in
  if Qltb (bankroll ex) 10 then 0 else positionSize.

Record Simulation := {
  leg1Failed : bool;
  leg2Failed : bool;
  fillRate : Q;
  totalSlippageBps : option Q;
}.

(** The basis points of the second leg: [estimate(...).estimatedSlippageBps]
    when [market2Liquidity] is truthy, else [0].  An absent
    [market2Price] makes the price term [0] ([undefined < 0.1] is false). *)
Definition leg2SlippageBps (cfg : Config.ArbitrageConfig)
    (opportunity : ArbitrageOpportunity) (positionSize : Q) : Q :=
  match market2Liquidity opportunity with
  | Some l2 =>
      if Qeq_bool l2 0 then 0 else
      Config.baseSlippageBps cfg
      + (positionSize / l2) * Config.liquidityImpactFactor cfg * 10000
      + match market2Price opportunity with
        | Some p2 => SlippageModel.calculatePriceImpact p2 false
        | None => 0
        end
  | None => 0
  end.

Definition simulateCLOBExecution (cfg : Config.ArbitrageConfig)
    (opportunity : ArbitrageOpportunity) (positionSize : Q) : M Simulation :=
  r1 <- random ;;
  let leg1Failed := Qltb r1 LEG_FAILURE_PROBABILITY in
  leg2Failed <- (if leg1Failed then ret false
                 else r2 <- random ;; ret (Qltb r2 LEG_FAILURE_PROBABILITY)) ;;
  fillRate <- (if negb leg1Failed && negb leg2Failed then
                 r3 <- random ;;
                 if Qltb r3 PARTIAL_FILL_PROBABILITY
                 then r4 <- random ;; ret (0.5 + r4 * 0.5)
                 else ret 1
               else ret 1) ;;
  let leg1Slippage :=
    SlippageModel.estimate cfg positionSize (market1Liquidity opportunity)
                           true (market1Price opportunity) in
  let leg2Bps := leg2SlippageBps cfg opportunity positionSize in
  match leg1Slippage with
  | Some e1 =>
      leg1SlippageWithNoise <- SlippageModel.addNoise e1 ;;
      ret {| leg1Failed := leg1Failed;
             leg2Failed := leg2Failed;
             fillRate := fillRate;
             totalSlippageBps :=
               Some (estimatedSlippageBps leg1SlippageWithNoise + leg2Bps) |}
  | None =>
      _ <- random ;;
      ret {| leg1Failed := leg1Failed;
             leg2Failed := leg2Failed;
             fillRate := fillRate;
             totalSlippageBps := None |}
  end.

(** What [execute] returns: [null] when the position size is not
    positive, else the trade and the executor after it.  [NotFinite]
    marks the one path on which a non-finite slippage (zero liquidity
    on the first leg) reaches the bankroll: the source settles that run
    as a trade with a bankroll that is not finite, which is
    [JsPaperTradingExecutor.execute] below. *)
Inductive Outcome :=
| NoTrade
| Traded (ex' : t) (trade : PaperTrade)
| NotFinite.

Definition legStatusOf (legFailed : bool) (fillRate : Q) : LegStatus :=
  if legFailed then failed else if Qltb fillRate 1 then partial else filled.

(** The trade record and the executor's fields after a trade whose
    realized profit and restored bankroll are known. *)
Definition settle (ex : t) (opportunity : ArbitrageOpportunity)
    (startTime endTime : Z) (kellyFraction positionSize : Q)
    (sim : Simulation) (bankroll' realizedProfit : Q) (success : bool)
    (failureReason : option string) : Outcome :=
  let peakBalance' :=
    if Qltb (peakBalance ex) bankroll' then bankroll' else peakBalance ex in
  let currentDrawdown := (peakBalance' - bankroll') / peakBalance' in
  let maxDrawdown' :=
    if Qltb (maxDrawdown ex) currentDrawdown then currentDrawdown
    else maxDrawdown ex in
  let isNegRisk :=
    match Types.subType opportunity with
    | Some s => String.eqb s "negrisk"
    | None => false
    end in
  let oppType :=
    if isNegRisk then "negrisk"
    else ArbitrageType_to_string (type opportunity) in
  let trade := {|
    id := tradeIdCounter ex + 1;
    timestamp := endTime;
    opportunityType := oppType;
    subType := Types.subType opportunity;
    market1Question := Types.market1Question opportunity;
    market2Question := Types.market2Question opportunity;
    positionSize := positionSize;
    kellyFraction := kellyFraction;
    expectedProfit := (Types.profitPercent opportunity / 100) * positionSize;
    realizedProfit := realizedProfit;
    profitPercent := (realizedProfit / positionSize) * 100;
    leg1Status := legStatusOf (leg1Failed sim) (fillRate sim);
    leg2Status :=
      if ArbitrageType_eqb (type opportunity) multi_outcome then None
      else Some (legStatusOf (leg2Failed sim) (fillRate sim));
    slippageBps := totalSlippageBps sim;
    executionTimeMs := endTime - startTime;
    balanceAfter := bankroll';
    success := success;
    failureReason := failureReason |} in
  Traded {| bankroll := bankroll';
            startingBankroll := startingBankroll ex;
            trades := trades ex ++ [trade];
            tradeIdCounter := tradeIdCounter ex + 1;
            peakBalance := peakBalance';
            maxDrawdown := maxDrawdown' |}
         trade.

(** [execute].  [startTime] and [endTime] are the two clock readings;
    the first draw is the jitter of the simulated delay. *)
Definition execute (cfg : Config.ArbitrageConfig) (startTime endTime : Z)
    (ex : t) (opportunity : ArbitrageOpportunity) : M Outcome :=
  let kellyFraction :=
    calculateKellyFraction (confidenceScore opportunity)
                           (Types.profitPercent opportunity) in
  let positionSize := calculatePositionSize cfg ex opportunity in
  if Qle_bool positionSize 0 then ret NoTrade else
  let bankroll1 := bankroll ex - positionSize in
  _ <- random ;;
  executionResult <- simulateCLOBExecution cfg opportunity positionSize ;;
  let finish := settle ex opportunity startTime endTime kellyFraction
                       positionSize executionResult in
  if leg1Failed executionResult then
    ret (finish (bankroll1 + positionSize) (- positionSize * 0.001) false
                (Some "Leg 1 execution failed"))
  else if leg2Failed executionResult then
    let unwindLoss := positionSize * 0.02 in
    ret (finish (bankroll1 + (positionSize - unwindLoss)) (- unwindLoss) false
                (Some "Leg 2 failed - position unwound at loss"))
  else
    match totalSlippageBps executionResult with
    | None => ret NotFinite
    | Some bps =>
        let slippageCost := (bps / 10000) * positionSize in
        let fees := positionSize * 0.01 in
        let grossProfit := (Types.profitPercent opportunity / 100) * positionSize in
        let realizedProfit :=
          (grossProfit * fillRate executionResult) - slippageCost - fees in
        let success := Qltb 0 realizedProfit in
        ret (finish (bankroll1 + (positionSize + realizedProfit)) realizedProfit
                    success
                    (if success then None
                     else Some "Slippage exceeded profit margin"))
    end.

(** [Array.prototype.slice(start)] for an integer [start]: a negative
    start counts from the end, and both ends are clipped. *)
Definition sliceFrom {A} (start : Z) (l : list A) : list A :=
  let len := Z.of_nat (length l) in
  let k := if (start <? 0)%Z then Z.max (len + start) 0 else Z.min start len in
  drop (Z.to_nat k) l.

(** [getRecentTrades(count)], [count] an integer. *)
Definition getRecentTrades (count : Z) (ex : t) : list PaperTrade :=
  sliceFrom (- count) (trades ex).

(** [reduce((sum, t) => sum + f(t), 0)] *)
Definition sumOver {A} (f : A -> Q) (l : list A) : Q :=
  fold_left (fun sum x => sum + f x) l 0.

(** What [getStats] returns per opportunity type. *)
Module ByType.
Record t := {
  trades : nat;
  profit : Q;
  winRate : Q;
}.
End ByType.

(** What [getStats] returns, without the Sharpe ratio (a square root). *)
Module Stats.
Record t := {
  totalTrades : nat;
  successfulTrades : nat;
  failedTrades : nat;
  totalVolume : Q;
  grossProfit : Q;
  totalFees : Q;
  netProfit : Q;
  winRate : Q;
  avgProfitPerTrade : Q;
  maxDrawdown : Q;
  byType : gmap string ByType.t;
}.
End Stats.

Definition natQ (n : nat) : Q := inject_Z (Z.of_nat n).

(** The first loop over the trades in [getStats]. *)
Definition countByType (m : gmap string ByType.t) (trade : PaperTrade)
    : gmap string ByType.t :=
  let type := opportunityType trade in
  let old := default {| ByType.trades := 0; ByType.profit := 0;
                        ByType.winRate := 0 |} (m !! type) in
  <[type := {| ByType.trades := ByType.trades old + 1;
               ByType.profit := ByType.profit old + realizedProfit trade;
               ByType.winRate := ByType.winRate old |}]> m.

(** The win rate written by the second loop. *)
Definition winRateOfType (all : list PaperTrade) (type : string) : Q :=
  let typeTrades :=
    List.filter (fun t => String.eqb (opportunityType t) type) all in
  let typeWins := length (List.filter success typeTrades) in
  if (0 <? length typeTrades)%nat
  then natQ typeWins / natQ (length typeTrades) * 100
  else 0.

Definition getStats (ex : t) : Stats.t :=
  let all := trades ex in
  let successfulTrades := List.filter success all in
  let failedTrades := List.filter (fun t => negb (success t)) all in
  let totalVolume := sumOver positionSize all in
  let grossProfit := sumOver (fun t => Qmax 0 (realizedProfit t)) all in
  let totalFees := sumOver (fun t => positionSize t * 0.01) all in
  let netProfit := sumOver realizedProfit all in
  let counted := fold_left countByType all ∅ in
  let byType :=
    map_imap (fun type st =>
                Some {| ByType.trades := ByType.trades st;
                        ByType.profit := ByType.profit st;
                        ByType.winRate := winRateOfType all type |})
             counted in
  {| Stats.totalTrades := length all;
     Stats.successfulTrades := length successfulTrades;
     Stats.failedTrades := length failedTrades;
     Stats.totalVolume := totalVolume;
     Stats.grossProfit := grossProfit;
     Stats.totalFees := totalFees;
     Stats.netProfit := netProfit;
     Stats.winRate :=
       if (0 <? length all)%nat
       then natQ (length successfulTrades) / natQ (length all) * 100
       else 0;
     Stats.avgProfitPerTrade :=
       if (0 <? length all)%nat then netProfit / natQ (length all) else 0;
     Stats.maxDrawdown := maxDrawdown ex * 100;
     Stats.byType := byType |}.
End PaperTradingExecutor.

(* ===================================================================== *)
(** * Numbers with their non-finite values *)
(* ===================================================================== *)

(** A [number] that may also be [Infinity], [-Infinity] or [NaN], with
    the arithmetic, the comparisons and [Math.max] and [Math.min] of the
    language on them.  Finite arithmetic is exact, as in the rest of the
    file, and the sign of a zero is not modelled: every zero is [+0]. *)
Module JsNumber.
Import JsNum.
Local Open Scope Q_scope.

Inductive number :=
| num (q : Q)
| infinity
| neg_infinity
| nan.

Declare Scope number_scope.
Delimit Scope number_scope with js.
Bind Scope number_scope with number.

(** [undefined] where a number is expected behaves as [NaN]: arithmetic
    on it gives [NaN] and every comparison with it is false. *)
Definition ofOption (x : option number) : number :=
  match x with
  | Some n => n
  | None => nan
  end.

Definition isFinite (x : number) : bool :=
  match x with
  | num _ => true
  | _ => false
  end.

(** [-x] *)
Definition neg (x : number) : number :=
  match x with
  | num a => num (- a)
  | infinity => neg_infinity
  | neg_infinity => infinity
  | nan => nan
  end.

(** [x + y]: the two infinities do not add up. *)
Definition add (x y : number) : number :=
  match x, y with
  | nan, _ => nan
  | _, nan => nan
  | num a, num b => num (a + b)
  | infinity, neg_infinity => nan
  | neg_infinity, infinity => nan
  | infinity, _ => infinity
  | _, infinity => infinity
  | neg_infinity, _ => neg_infinity
  | _, neg_infinity => neg_infinity
  end.

(** [x - y] *)
Definition sub (x y : number) : number := add x (neg y).

(** An infinity times the finite [a]: its sign follows [a], and zero
    times an infinity is [NaN]. *)
Definition scaled (positive : number) (a : Q) : number :=
  match a ?= 0 with
  | Gt => positive
  | Lt => neg positive
  | Eq => nan
  end.

(** [x * y] *)
Definition mul (x y : number) : number :=
  match x, y with
  | nan, _ => nan
  | _, nan => nan
  | num a, num b => num (a * b)
  | num a, infinity => scaled infinity a
  | infinity, num a => scaled infinity a
  | num a, neg_infinity => scaled neg_infinity a
  | neg_infinity, num a => scaled neg_infinity a
  | infinity, infinity => infinity
  | neg_infinity, neg_infinity => infinity
  | infinity, neg_infinity => neg_infinity
  | neg_infinity, infinity => neg_infinity
  end.

(** [x / y]: a finite number over zero is an infinity of its sign,
    zero over zero and an infinity over an infinity are [NaN], a finite
    number over an infinity is zero. *)
Definition div (x y : number) : number :=
  match x, y with
  | nan, _ => nan
  | _, nan => nan
  | num a, num b => if Qeq_bool b 0 then scaled infinity a else num (a / b)
  | num _, infinity => num 0
  | num _, neg_infinity => num 0
  | infinity, num b => if Qle_bool 0 b then infinity else neg_infinity
  | neg_infinity, num b => if Qle_bool 0 b then neg_infinity else infinity
  | _, _ => nan
  end.

(** [x < y]: false when either side is [NaN]. *)
Definition ltb (x y : number) : bool :=
  match x, y with
  | num a, num b => Qltb a b
  | neg_infinity, num _ => true
  | neg_infinity, infinity => true
  | num _, infinity => true
  | _, _ => false
  end.

(** [x <= y]: false when either side is [NaN]. *)
Definition leb (x y : number) : bool :=
  match x, y with
  | nan, _ => false
  | _, nan => false
  | num a, num b => Qle_bool a b
  | neg_infinity, _ => true
  | _, infinity => true
  | _, _ => false
  end.

(** [x > y] and [x >= y] *)
Definition gtb (x y : number) : bool := ltb y x.
Definition geb (x y : number) : bool := leb y x.

(** [Math.max(x, y)]: [NaN] when either argument is. *)
Definition max (x y : number) : number :=
  match x, y with
  | nan, _ => nan
  | _, nan => nan
  | num a, num b => num (Qmax a b)
  | infinity, _ => infinity
  | _, infinity => infinity
  | neg_infinity, z => z
  | z, neg_infinity => z
  end.

(** [Math.min(x, y)]: [NaN] when either argument is. *)
Definition min (x y : number) : number :=
  match x, y with
  | nan, _ => nan
  | _, nan => nan
  | num a, num b => num (Qmin a b)
  | neg_infinity, _ => neg_infinity
  | _, neg_infinity => neg_infinity
  | infinity, z => z
  | z, infinity => z
  end.

(** Whether [x] is truthy: neither zero nor [NaN]. *)
Definition truthy (x : number) : bool :=
  match x with
  | num a => negb (Qeq_bool a 0)
  | nan => false
  | _ => true
  end.

(** Two numbers that are the same value: finite ones as rationals. *)
Definition same (x y : number) : Prop :=
  match x, y with
  | num a, num b => a == b
  | infinity, infinity => True
  | neg_infinity, neg_infinity => True
  | nan, nan => True
  | _, _ => False
  end.

(** [Math.max(0.01, Math.min(0.99, x))]: a number between 0.01 and 0.99,
    or [NaN], written [None]. *)
Definition clampPrice (x : number) : option Q :=
  match max (num 0.01) (min (num 0.99) x) with
  | num q => Some q
  | _ => None
  end.

(** A number that is finite or [NaN], as a [number]. *)
Definition ofFiniteOrNaN (x : option Q) : number :=
  match x with
  | Some q => num q
  | None => nan
  end.

Module Notations.
Infix "+" := add : number_scope.
Infix "-" := sub : number_scope.
Infix "*" := mul : number_scope.
Infix "/" := div : number_scope.
Notation "- x" := (neg x) : number_scope.
End Notations.
End JsNumber.

(* ===================================================================== *)
(** * SlippageModel on all numbers *)
(* ===================================================================== *)

(** The functions of [SlippageModel] once more, total: the order size,
    the liquidity and the price may be any [number], so that a zero or
    absent liquidity gives the non-finite estimate it gives in the
    source.  On finite arguments with a non-zero liquidity they agree
    with the module [SlippageModel] above. *)
Module JsSlippageModel.
Import JsNum JsNumber JsNumber.Notations Rand Rand.Notations.
Local Open Scope Q_scope.

(** A [SlippageEstimate]; the execution price is a number between 0.01
    and 0.99 or [NaN]. *)
Record SlippageEstimate := {
  estimatedSlippageBps : number;
  estimatedExecutionPrice : option Q;
  confidence : number;
  liquidityDepth : number;
}.

Definition calculatePriceImpact (price : number) (isBuy : bool) : number :=
  if isBuy then
    if gtb price (num 0.9) then ((price - num 0.9) * num 100)%js else num 0
  else
    if ltb price (num 0.1) then ((num 0.1 - price) * num 100)%js else num 0.

Definition estimate (cfg : Config.ArbitrageConfig)
    (orderSizeUsd marketLiquidity : number) (isBuy : bool)
    (currentPrice : number) : SlippageEstimate :=
  let baseSlippageBps := num (Config.baseSlippageBps cfg) in
  let liquidityRatio := (orderSizeUsd / marketLiquidity)%js in
  let liquidityImpactBps :=
    (liquidityRatio * num (Config.liquidityImpactFactor cfg) * num 10000)%js in
  let priceImpactBps := calculatePriceImpact currentPrice isBuy in
  let totalSlippageBps :=
    (baseSlippageBps + liquidityImpactBps + priceImpactBps)%js in
  let slippageMultiplier := (totalSlippageBps / num 10000)%js in
  let estimatedExecutionPrice :=
    if isBuy then (currentPrice * (num 1 + slippageMultiplier))%js
    else (currentPrice * (num 1 - slippageMultiplier))%js in
  let confidence := max (num 0.3) (num 1 - liquidityRatio * num 2)%js in
  {| estimatedSlippageBps := totalSlippageBps;
     estimatedExecutionPrice := clampPrice estimatedExecutionPrice;
     confidence := confidence;
     liquidityDepth := marketLiquidity |}.

(** [addNoise] with the draw [r] of [Math.random()]. *)
Definition addNoiseWith (r : Q) (estimate : SlippageEstimate) : SlippageEstimate :=
  let noise := num ((r - 0.5) * 0.4) in
  let noisySlippage := (estimatedSlippageBps estimate * (num 1 + noise))%js in
  let slippageMultiplier := (noisySlippage / num 10000)%js in
  let originalPrice :=
    (ofFiniteOrNaN (estimatedExecutionPrice estimate)
     / (num 1 + estimatedSlippageBps estimate / num 10000))%js in
  {| estimatedSlippageBps := max (num 0) noisySlippage;
     estimatedExecutionPrice :=
       clampPrice (originalPrice * (num 1 + slippageMultiplier))%js;
     confidence := confidence estimate;
     liquidityDepth := liquidityDepth estimate |}.

Definition addNoise (estimate : SlippageEstimate) : M SlippageEstimate :=
  r <- random ;; ret (addNoiseWith r estimate).
End JsSlippageModel.

(* ===================================================================== *)
(** * PaperTradingExecutor on all numbers *)
(* ===================================================================== *)

(** The sizing and the execution of [PaperTradingExecutor] once more,
    total: the opportunity's numbers, the bankroll and everything
    computed from them may be any [number].  The detectors hand the
    executor opportunities whose profit is [Infinity]
    ([CrossMarketDetector.analyzeMatchPair] on an inverse match without
    a NO price), and a market without liquidity makes the slippage
    infinite. *)
Module JsPaperTradingExecutor.
Import JsNum Types JsNumber JsNumber.Notations Rand Rand.Notations.
Local Open Scope Q_scope.

(** The fields of an [ArbitrageOpportunity] that the executor reads. *)
Record Opportunity := {
  type : ArbitrageType;
  subType : option string;
  market1Question : string;
  market1Price : number;
  market1Liquidity : number;
  profitPercent : number;
  confidenceScore : number;
  market2Question : option string;
  market2Price : option number;
  market2Liquidity : option number;
}.

Record PaperTrade := {
  id : Z;
  timestamp : Z;
  opportunityType : string;
  tradeSubType : option string;
  tradeMarket1Question : string;
  tradeMarket2Question : option string;
  positionSize : number;
  kellyFraction : number;
  expectedProfit : number;
  realizedProfit : number;
  tradeProfitPercent : number;
  leg1Status : PaperTradingExecutor.LegStatus;
  leg2Status : option PaperTradingExecutor.LegStatus;
  slippageBps : number;
  executionTimeMs : Z;
  balanceAfter : number;
  success : bool;
  failureReason : option string;
}.

(** The private fields of the class. *)
Record t := {
  bankroll : number;
  startingBankroll : number;
  trades : list PaperTrade;
  tradeIdCounter : Z;
  peakBalance : number;
  maxDrawdown : number;
}.

Definition new (startingBankroll : number) : t := {|
  bankroll := startingBankroll;
  startingBankroll := startingBankroll;
  trades := [];
  tradeIdCounter := 0;
  peakBalance := startingBankroll;
  maxDrawdown := num 0;
|}.

(** [reset(startingBankroll)] *)
Definition reset (startingBankroll : number) (ex : t) : t := new startingBankroll.

Definition calculateKellyFraction (confidenceScore expectedProfitPercent : number)
    : number :=
  let winProbability := min (num 0.95) (max (num 0.5) confidenceScore) in
  let loseProbability := (num 1 - winProbability)%js in
  let profitIfWin := (expectedProfitPercent / num 100)%js in
  let lossIfLose := num 0.02 in
  let odds := (profitIfWin / lossIfLose)%js in
  let kelly := ((odds * winProbability - loseProbability) / odds)%js in
  let fractionalKelly := (kelly * num 0.5)%js in
  min (num 0.25) (max (num 0.01) fractionalKelly).

Definition calculatePositionSize (cfg : Config.ArbitrageConfig) (ex : t)
    (opportunity : Opportunity) : number :=
  let kellyFraction :=
    calculateKellyFraction (confidenceScore opportunity)
                           (profitPercent opportunity) in
  let positionSize := (bankroll ex * kellyFraction)%js in
  let positionSize :=
    min positionSize (num (Config.risk_maxPositionSizeUsd cfg)) in
  let positionSize := min positionSize (bankroll ex * num 0.25)%js in
  let positionSize := max positionSize (num 5) in
  if ltb (bankroll ex) (num 10) then num 0 else positionSize.

Record Simulation := {
  leg1Failed : bool;
  leg2Failed : bool;
  fillRate : Q;
  totalSlippageBps : number;
}.

(** The basis points of the second leg: those of [estimate] when
    [market2Liquidity] is truthy, else [0]; an absent [market2Price] is
    [undefined]. *)
Definition leg2SlippageBps (cfg : Config.ArbitrageConfig)
    (opportunity : Opportunity) (positionSize : number) : number :=
  match market2Liquidity opportunity with
  | Some liquidity2 =>
      if truthy liquidity2 then
        JsSlippageModel.estimatedSlippageBps
          (JsSlippageModel.estimate cfg positionSize liquidity2 false
             (ofOption (market2Price opportunity)))
      else num 0
  | None => num 0
  end.

Definition simulateCLOBExecution (cfg : Config.ArbitrageConfig)
    (opportunity : Opportunity) (positionSize : number) : M Simulation :=
  r1 <- random ;;
  let leg1Failed := Qltb r1 PaperTradingExecutor.LEG_FAILURE_PROBABILITY in
  leg2Failed <- (if leg1Failed then ret false
                 else r2 <- random ;;
                      ret (Qltb r2 PaperTradingExecutor.LEG_FAILURE_PROBABILITY)) ;;
  fillRate <- (if negb leg1Failed && negb leg2Failed then
                 r3 <- random ;;
                 if Qltb r3 PaperTradingExecutor.PARTIAL_FILL_PROBABILITY
                 then r4 <- random ;; ret (0.5 + r4 * 0.5)
                 else ret 1
               else ret 1) ;;
  let leg1Slippage :=
    JsSlippageModel.estimate cfg positionSize (market1Liquidity opportunity)
                             true (market1Price opportunity) in
  let leg2Bps := leg2SlippageBps cfg opportunity positionSize in
  leg1SlippageWithNoise <- JsSlippageModel.addNoise leg1Slippage ;;
  ret {| leg1Failed := leg1Failed;
         leg2Failed := leg2Failed;
         fillRate := fillRate;
         totalSlippageBps :=
           (JsSlippageModel.estimatedSlippageBps leg1SlippageWithNoise
            + leg2Bps)%js |}.

(** What [execute] returns: [null], or the trade and the executor after
    it. *)
Inductive Outcome :=
| NoTrade
| Traded (ex' : t) (trade : PaperTrade).

(** The trade record and the executor's fields after a trade whose
    realized profit and restored bankroll are known. *)
Definition settle (ex : t) (opportunity : Opportunity)
    (startTime endTime : Z) (kellyFraction positionSize : number)
    (sim : Simulation) (bankroll' realizedProfit : number) (success : bool)
    (failureReason : option string) : Outcome :=
  let peakBalance' :=
    if gtb bankroll' (peakBalance ex) then bankroll' else peakBalance ex in
  let currentDrawdown := ((peakBalance' - bankroll') / peakBalance')%js in
  let maxDrawdown' :=
    if gtb currentDrawdown (maxDrawdown ex) then currentDrawdown
    else maxDrawdown ex in
  let isNegRisk :=
    match subType opportunity with
    | Some s => String.eqb s "negrisk"
    | None => false
    end in
  let oppType :=
    if isNegRisk then "negrisk"
    else ArbitrageType_to_string (type opportunity) in
  let trade := {|
    id := tradeIdCounter ex + 1;
    timestamp := endTime;
    opportunityType := oppType;
    tradeSubType := subType opportunity;
    tradeMarket1Question := market1Question opportunity;
    tradeMarket2Question := market2Question opportunity;
    positionSize := positionSize;
    kellyFraction := kellyFraction;
    expectedProfit := (profitPercent opportunity / num 100 * positionSize)%js;
    realizedProfit := realizedProfit;
    tradeProfitPercent := (realizedProfit / positionSize * num 100)%js;
    leg1Status :=
      PaperTradingExecutor.legStatusOf (leg1Failed sim) (fillRate sim);
    leg2Status :=
      if ArbitrageType_eqb (type opportunity) multi_outcome then None
      else Some (PaperTradingExecutor.legStatusOf (leg2Failed sim)
                                                  (fillRate sim));
    slippageBps := totalSlippageBps sim;
    executionTimeMs := endTime - startTime;
    balanceAfter := bankroll';
    success := success;
    failureReason := failureReason |} in
  Traded {| bankroll := bankroll';
            startingBankroll := startingBankroll ex;
            trades := trades ex ++ [trade];
            tradeIdCounter := tradeIdCounter ex + 1;
            peakBalance := peakBalance';
            maxDrawdown := maxDrawdown' |}
         trade.

(** [execute].  [startTime] and [endTime] are the two clock readings;
    the first draw is the jitter of the simulated delay. *)
Definition execute (cfg : Config.ArbitrageConfig) (startTime endTime : Z)
    (ex : t) (opportunity : Opportunity) : M Outcome :=
  let kellyFraction :=
    calculateKellyFraction (confidenceScore opportunity)
                           (profitPercent opportunity) in
  let positionSize := calculatePositionSize cfg ex opportunity in
  if leb positionSize (num 0) then ret NoTrade else
  let bankroll1 := (bankroll ex - positionSize)%js in
  _ <- random ;;
  executionResult <- simulateCLOBExecution cfg opportunity positionSize ;;
  let finish := settle ex opportunity startTime endTime kellyFraction
                       positionSize executionResult in
  if leg1Failed executionResult then
    ret (finish (bankroll1 + positionSize)%js (- positionSize * num 0.001)%js
                false (Some "Leg 1 execution failed"))
  else if leg2Failed executionResult then
    let unwindLoss := (positionSize * num 0.02)%js in
    ret (finish (bankroll1 + (positionSize - unwindLoss))%js (- unwindLoss)%js
                false (Some "Leg 2 failed - position unwound at loss"))
  else
    let slippageCost :=
      (totalSlippageBps executionResult / num 10000 * positionSize)%js in
    let fees := (positionSize * num 0.01)%js in
    let grossProfit := (profitPercent opportunity / num 100 * positionSize)%js in
    let realizedProfit :=
      (grossProfit * num (fillRate executionResult) - slippageCost - fees)%js in
    let success := gtb realizedProfit (num 0) in
    ret (finish (bankroll1 + (positionSize + realizedProfit))%js realizedProfit
                success
                (if success then None
                 else Some "Slippage exceeded profit margin")).

(** An opportunity of the union [ArbitrageOpportunity] all of whose
    numbers are finite, as [execute] reads it. *)
Definition ofFinite (o : ArbitrageOpportunity) : Opportunity := {|
  type := Types.type o;
  subType := Types.subType o;
  market1Question := Types.market1Question o;
  market1Price := num (Types.market1Price o);
  market1Liquidity := num (Types.market1Liquidity o);
  profitPercent := num (Types.profitPercent o);
  confidenceScore := num (Types.confidenceScore o);
  market2Question := Types.market2Question o;
  market2Price := option_map num (Types.market2Price o);
  market2Liquidity := option_map num (Types.market2Liquidity o);
|}.

(** A trade and an executor of [PaperTradingExecutor], all of whose
    numbers are finite, as the same records on numbers.  The basis
    points of a trade are absent there only on the path that [execute]
    does not settle. *)
Definition ofFiniteTrade (trade : PaperTradingExecutor.PaperTrade)
    : PaperTrade := {|
  id := PaperTradingExecutor.id trade;
  timestamp := PaperTradingExecutor.timestamp trade;
  opportunityType := PaperTradingExecutor.opportunityType trade;
  tradeSubType := PaperTradingExecutor.subType trade;
  tradeMarket1Question := PaperTradingExecutor.market1Question trade;
  tradeMarket2Question := PaperTradingExecutor.market2Question trade;
  positionSize := num (PaperTradingExecutor.positionSize trade);
  kellyFraction := num (PaperTradingExecutor.kellyFraction trade);
  expectedProfit := num (PaperTradingExecutor.expectedProfit trade);
  realizedProfit := num (PaperTradingExecutor.realizedProfit trade);
  tradeProfitPercent := num (PaperTradingExecutor.profitPercent trade);
  leg1Status := PaperTradingExecutor.leg1Status trade;
  leg2Status := PaperTradingExecutor.leg2Status trade;
  slippageBps := ofFiniteOrNaN (PaperTradingExecutor.slippageBps trade);
  executionTimeMs := PaperTradingExecutor.executionTimeMs trade;
  balanceAfter := num (PaperTradingExecutor.balanceAfter trade);
  success := PaperTradingExecutor.success trade;
  failureReason := PaperTradingExecutor.failureReason trade;
|}.

Definition ofFiniteExecutor (ex : PaperTradingExecutor.t) : t := {|
  bankroll := num (PaperTradingExecutor.bankroll ex);
  startingBankroll := num (PaperTradingExecutor.startingBankroll ex);
  trades := List.map ofFiniteTrade (PaperTradingExecutor.trades ex);
  tradeIdCounter := PaperTradingExecutor.tradeIdCounter ex;
  peakBalance := num (PaperTradingExecutor.peakBalance ex);
  maxDrawdown := num (PaperTradingExecutor.maxDrawdown ex);
|}.

(** The test of the caller before it hands an opportunity to [execute]
    ([detectArbitrage], [src/unnamed/part_008]):
    [profitPercent >= 0.5 && confidenceScore >= 0.6]. *)
Definition passedToExecute (opportunity : Opportunity) : bool :=
  geb (profitPercent opportunity) (num 0.5)
  && geb (confidenceScore opportunity) (num 0.6).

(** The part of a trade's realized profit that [execute] adds to the
    bankroll: all of it, except on a failed first leg. *)
Definition chargedProfit (trade : PaperTrade) : number :=
  match leg1Status trade with
  | PaperTradingExecutor.failed => num 0
  | _ => realizedProfit trade
  end.

(** [reduce((sum, t) => sum + f(t), 0)] *)
Definition sumOver {A} (f : A -> number) (l : list A) : number :=
  fold_left (fun sum x => (sum + f x)%js) l (num 0).

(** [getPnL().absolute] *)
Definition getPnLAbsolute (ex : t) : number :=
  (bankroll ex - startingBankroll ex)%js.

(** The executors that calls of [execute] and [reset] lead to from a
    newly constructed one. *)
Inductive reachable (cfg : Config.ArbitrageConfig) : t -> Prop :=
| reach_new (startingBankroll : number) : reachable cfg (new startingBankroll)
| reach_reset (startingBankroll : number) (ex : t) :
    reachable cfg ex -> reachable cfg (reset startingBankroll ex)
| reach_execute (ex ex' : t) (startTime endTime : Z)
    (opportunity : Opportunity) (tape : nat -> Q) (trade : PaperTrade) :
    reachable cfg ex ->
    eval (execute cfg startTime endTime ex opportunity) tape = Traded ex' trade ->
    reachable cfg ex'.
End JsPaperTradingExecutor.

(* ===================================================================== *)
(** * SimulationExecutor (third part of [src/execution/slippageModel.ts]) *)
(* ===================================================================== *)

Module SimulationExecutor.
Import JsNum Types JsNumber Rand Rand.Notations.
Local Open Scope Q_scope.

(** The values of the [direction] field: those of a multi-outcome
    opportunity and those of a NegRisk one. *)
Inductive Direction :=
| overpriced | underpriced | long_rebalancing | short_rebalancing.

(** The opportunity of a request: the flattened [ArbitrageOpportunity]
    and the fields of the variants that the executor reads besides,
    [direction], [yesPrice] and [noPrice] being read for the type
    [multi_outcome] only. *)
Record Opportunity := {
  base : ArbitrageOpportunity;
  market1Outcome : Z;
  market2Outcome : option Z;
  direction : Direction;
  yesPrice : Q;
  noPrice : Q;
}.

Record ExecutionRequest := {
  opportunity : Opportunity;
  sizeUsd : Q;
}.

Inductive LegStatus := pending | filled | partial | failed.
Inductive ExecutionStatus :=
| statusPending | statusPartial | complete | statusFailed | cancelled.

(** [failureReason]: the reason of the risk check, its fallback, or the
    balance. *)
Inductive FailureReason :=
| RiskReason (reason : RiskManager.Reason)
| RiskCheckFailed
| InsufficientBalance.

(** A leg, without [executedAt].  [executedPrice] and [slippage] are
    [null] ([None]) on a failed result; an executed price is a number
    between 0.01 and 0.99 or [NaN] ([Some None]), a slippage any
    number.  The fields of the second leg that the code reads through
    [(opp as any)] are absent when the opportunity has none. *)
Record ExecutionLeg := {
  marketId : option string;
  outcome : option Z;
  side : OrderSide;
  requestedSize : Q;
  filledSize : Q;
  expectedPrice : option Q;
  executedPrice : option (option Q);
  slippage : option number;
  status : LegStatus;
  error : option FailureReason;
}.

(** The result, without the identifiers, the clock readings and
    [profitPercent].  [realizedProfitUsd] is [null] ([None]) on a failed
    result, else a finite number or [NaN] ([Some None]). *)
Record ExecutionResult := {
  leg1 : ExecutionLeg;
  leg2 : option ExecutionLeg;
  totalSizeUsd : Q;
  totalFees : Q;
  gasCostUsd : Q;
  expectedProfitUsd : Q;
  realizedProfitUsd : option (option Q);
  resultStatus : ExecutionStatus;
  failureReason : option FailureReason;
}.

Record SimulationState := {
  balance : Q;
  startingBalance : Q;
  positions : gmap string Position;
  totalPnl : Q;
  dailyPnl : Q;
  tradesExecuted : Z;
  tradesSuccessful : Z;
  lastTradeAt : option Z;
}.

Record t := {
  state : SimulationState;
  localRiskManager : RiskManager.t;
}.

Definition freshState (startingBalance : Q) : SimulationState := {|
  balance := startingBalance;
  startingBalance := startingBalance;
  positions := ∅;
  totalPnl := 0;
  dailyPnl := 0;
  tradesExecuted := 0;
  tradesSuccessful := 0;
  lastTradeAt := None;
|}.

(** The constructor: [startingBalance] is
    [arbConfig.simulation.startingBalance], [lim] the limits that
    [new RiskManager()] resolves, [now] the clock it reads. *)
Definition new (startingBalance : Q) (lim : RiskLimits) (now : Z) : t := {|
  state := freshState startingBalance;
  localRiskManager := RiskManager.new lim now;
|}.

(** [reset] builds the same state as the constructor. *)
Definition reset (lim : RiskLimits) (now : Z) (ex : t) : t :=
  new (startingBalance (state ex)) lim now.

Definition createFailedResult (opp : Opportunity) (sizeUsd : Q)
    (reason : FailureReason) : ExecutionResult := {|
  leg1 := {| marketId := Some (market1Id (base opp));
             outcome := Some (market1Outcome opp);
             side := BUY;
             requestedSize := sizeUsd;
             filledSize := 0;
             expectedPrice := Some (market1Price (base opp));
             executedPrice := None;
             slippage := None;
             status := failed;
             error := Some reason |};
  leg2 := None;
  totalSizeUsd := 0;
  totalFees := 0;
  gasCostUsd := 0;
  expectedProfitUsd := profitPercent (base opp) * sizeUsd / 100;
  realizedProfitUsd := None;
  resultStatus := statusFailed;
  failureReason := Some reason;
|}.

(** A number read from a field that may be absent: [undefined] behaves
    as [NaN]. *)
Definition numberOf (x : option Q) : number := ofOption (option_map num x).

(** [executeMultiOutcome].  The two executed prices come from
    [addNoise]; the profit is [NaN] when one of them is. *)
Definition executeMultiOutcome (cfg : Config.ArbitrageConfig)
    (opp : Opportunity) (sizeUsd : Q) : M ExecutionResult :=
  let isBuy := match direction opp with underpriced => true | _ => false end in
  let side := if isBuy then BUY else SELL in
  let legSize := sizeUsd / 2 in
  let yesSlippage :=
    JsSlippageModel.estimate cfg (num legSize)
      (num (market1Liquidity (base opp))) isBuy (num (yesPrice opp)) in
  yesNoisy <- JsSlippageModel.addNoise yesSlippage ;;
  let yesExecutedPrice := JsSlippageModel.estimatedExecutionPrice yesNoisy in
  let noSlippage :=
    JsSlippageModel.estimate cfg (num legSize)
      (num (market1Liquidity (base opp))) isBuy (num (noPrice opp)) in
  noNoisy <- JsSlippageModel.addNoise noSlippage ;;
  let noExecutedPrice := JsSlippageModel.estimatedExecutionPrice noNoisy in
  let fees := sizeUsd * 0.01 in
  let realizedProfitUsd :=
    match yesExecutedPrice, noExecutedPrice with
    | Some yes, Some no =>
        let executedSum := yes + no in
        Some (match direction opp with
              | underpriced => (1 - executedSum) * legSize
              | _ => (executedSum - 1) * legSize
              end - fees)
    | _, _ => None
    end in
  ret {|
    leg1 := {| marketId := Some (market1Id (base opp));
               outcome := Some 1%Z;
               side := side;
               requestedSize := legSize;
               filledSize := legSize;
               expectedPrice := Some (yesPrice opp);
               executedPrice := Some yesExecutedPrice;
               slippage :=
                 Some (div (JsSlippageModel.estimatedSlippageBps yesSlippage)
                           (num 10000));
               status := filled;
               error := None |};
    leg2 := Some {| marketId := Some (market1Id (base opp));
                    outcome := Some 0%Z;
                    side := side;
                    requestedSize := legSize;
                    filledSize := legSize;
                    expectedPrice := Some (noPrice opp);
                    executedPrice := Some noExecutedPrice;
                    slippage :=
                      Some (div (JsSlippageModel.estimatedSlippageBps noSlippage)
                                (num 10000));
                    status := filled;
                    error := None |};
    totalSizeUsd := sizeUsd;
    totalFees := fees;
    gasCostUsd := 0;
    expectedProfitUsd := profitPercent (base opp) * sizeUsd / 100;
    realizedProfitUsd := Some realizedProfitUsd;
    resultStatus := complete;
    failureReason := None |}.

(** [executeTwoLegged].  An absent liquidity or price of the second
    market is [undefined] in the estimate of the second leg. *)
Definition executeTwoLegged (cfg : Config.ArbitrageConfig)
    (opp : Opportunity) (sizeUsd : Q) : M ExecutionResult :=
  let leg1Slippage :=
    JsSlippageModel.estimate cfg (num sizeUsd)
      (num (market1Liquidity (base opp))) true (num (market1Price (base opp))) in
  leg1Noisy <- JsSlippageModel.addNoise leg1Slippage ;;
  let leg1ExecutedPrice := JsSlippageModel.estimatedExecutionPrice leg1Noisy in
  let leg2Slippage :=
    JsSlippageModel.estimate cfg (num sizeUsd)
      (numberOf (market2Liquidity (base opp))) false
      (numberOf (market2Price (base opp))) in
  leg2Noisy <- JsSlippageModel.addNoise leg2Slippage ;;
  let leg2ExecutedPrice := JsSlippageModel.estimatedExecutionPrice leg2Noisy in
  let fees := sizeUsd * 0.01 * 2 in
  let realizedProfitUsd :=
    match leg1ExecutedPrice, leg2ExecutedPrice with
    | Some price1, Some price2 =>
        let priceDiff := price2 - price1 in
        Some (priceDiff * sizeUsd - fees)
    | _, _ => None
    end in
  ret {|
    leg1 := {| marketId := Some (market1Id (base opp));
               outcome := Some (market1Outcome opp);
               side := BUY;
               requestedSize := sizeUsd;
               filledSize := sizeUsd;
               expectedPrice := Some (market1Price (base opp));
               executedPrice := Some leg1ExecutedPrice;
               slippage :=
                 Some (div (JsSlippageModel.estimatedSlippageBps leg1Slippage)
                           (num 10000));
               status := filled;
               error := None |};
    leg2 := Some {| marketId := market2Id (base opp);
                    outcome := market2Outcome opp;
                    side := SELL;
                    requestedSize := sizeUsd;
                    filledSize := sizeUsd;
                    expectedPrice := market2Price (base opp);
                    executedPrice := Some leg2ExecutedPrice;
                    slippage :=
                      Some (div (JsSlippageModel.estimatedSlippageBps leg2Slippage)
                                (num 10000));
                    status := filled;
                    error := None |};
    totalSizeUsd := sizeUsd * 2;
    totalFees := fees;
    gasCostUsd := 0;
    expectedProfitUsd := profitPercent (base opp) * sizeUsd / 100;
    realizedProfitUsd := Some realizedProfitUsd;
    resultStatus := complete;
    failureReason := None |}.

(** [result.realizedProfitUsd || 0]: zero for [null], for [NaN] and for
    zero. *)
Definition orZero (x : option (option Q)) : Q :=
  match x with
  | Some (Some q) => q
  | _ => 0
  end.

(** [leg.executedPrice || leg.expectedPrice], for a leg whose expected
    price is present, as the first leg's always is. *)
Definition priceOfLeg (leg : ExecutionLeg) : Q :=
  let expected := match expectedPrice leg with Some p => p | None => 0 end in
  match executedPrice leg with
  | Some (Some p) => if Qeq_bool p 0 then expected else p
  | _ => expected
  end.

(** The update of the state and of the risk manager after the legs. *)
Definition recordResult (updateTime endTime : Z) (ex : t)
    (riskManager : RiskManager.t) (opp : Opportunity)
    (result : ExecutionResult) : t :=
  let st := state ex in
  let pnl := orZero (realizedProfitUsd result) in
  let completed :=
    match resultStatus result with complete => true | _ => false end in
  {| state := {|
       balance := if completed then balance st + pnl else balance st;
       startingBalance := startingBalance st;
       positions := positions st;
       totalPnl := if completed then totalPnl st + pnl else totalPnl st;
       dailyPnl := if completed then dailyPnl st + pnl else dailyPnl st;
       tradesExecuted := tradesExecuted st + 1;
       tradesSuccessful :=
         if completed then tradesSuccessful st + 1 else tradesSuccessful st;
       lastTradeAt := Some endTime |};
     localRiskManager :=
       if completed then
         RiskManager.updateAfterExecution updateTime riskManager
           (market1Id (base opp)) (side (leg1 result))
           (filledSize (leg1 result)) (priceOfLeg (leg1 result)) pnl
       else riskManager |}.

(** What [execute] returns, with the executor after it. *)
Inductive Outcome :=
| Done (ex' : t) (result : ExecutionResult).

(** [execute]: [checkTime], [updateTime] and [endTime] are the clock
    readings of the risk check, of the risk manager's update and of
    [lastTradeAt]. *)
Definition execute (cfg : Config.ArbitrageConfig)
    (checkTime updateTime endTime : Z) (ex : t) (request : ExecutionRequest)
    : M Outcome :=
  let opp := opportunity request in
  let size := sizeUsd request in
  let (riskManager, riskCheck) :=
    RiskManager.checkPreExecution checkTime (localRiskManager ex) (base opp) size in
  let rejected := {| state := state ex; localRiskManager := riskManager |} in
  if negb (RiskManager.approved riskCheck) then
    ret (Done rejected
           (createFailedResult opp size
              match RiskManager.failure riskCheck with
              | Some reason => RiskReason reason
              | None => RiskCheckFailed
              end))
  else if Qltb (balance (state ex)) size then
    ret (Done rejected (createFailedResult opp size InsufficientBalance))
  else
    result <- (match type (base opp) with
               | multi_outcome => executeMultiOutcome cfg opp size
               | _ => executeTwoLegged cfg opp size
               end) ;;
    ret (Done (recordResult updateTime endTime ex riskManager opp result)
              result).

(** [getSummary]; the percentage of the profit is absent when the
    starting balance is zero. *)
Module Summary.
Record t := {
  startingBalance : Q;
  currentBalance : Q;
  totalPnl : Q;
  totalPnlPercent : option Q;
  tradesExecuted : Z;
  tradesSuccessful : Z;
  winRate : Q;
}.
End Summary.

Definition getSummary (ex : t) : Summary.t :=
  let st := state ex in
  {| Summary.startingBalance := startingBalance st;
     Summary.currentBalance := balance st;
     Summary.totalPnl := totalPnl st;
     Summary.totalPnlPercent :=
       if Qeq_bool (startingBalance st) 0 then None
       else Some (totalPnl st / startingBalance st * 100);
     Summary.tradesExecuted := tradesExecuted st;
     Summary.tradesSuccessful := tradesSuccessful st;
     Summary.winRate :=
       if (0 <? tradesExecuted st)%Z
       then inject_Z (tradesSuccessful st) / inject_Z (tradesExecuted st) * 100
       else 0 |}.

(** The executors that calls of [execute] and [reset] lead to from a
    newly constructed one. *)
Inductive reachable (cfg : Config.ArbitrageConfig) : t -> Prop :=
| reach_new (startingBalance : Q) (lim : RiskLimits) (now : Z) :
    reachable cfg (new startingBalance lim now)
| reach_reset (lim : RiskLimits) (now : Z) (ex : t) :
    reachable cfg ex -> reachable cfg (reset lim now ex)
| reach_execute (ex ex' : t) (checkTime updateTime endTime : Z)
    (request : ExecutionRequest) (tape : nat -> Q) (result : ExecutionResult) :
    reachable cfg ex ->
    eval (execute cfg checkTime updateTime endTime ex request) tape
    = Done ex' result ->
    reachable cfg ex'.

(** The sizing of [executeOpportunity] in the runner
    ([src/arbitrageRunner.ts]): the request it sends to [execute], or
    none when the size is below 10. *)
Definition runnerRequest (cfg : Config.ArbitrageConfig) (ex : t)
    (opp : Opportunity) : option ExecutionRequest :=
  let sizeUsd :=
    Qmin (Qmin (balance (state ex) * 0.1) (Config.risk_maxPositionSizeUsd cfg))
         100 in
  if Qltb sizeUsd 10 then None
  else Some {| opportunity := opp; sizeUsd := sizeUsd |}.
End SimulationExecutor.

(* ===================================================================== *)
(** * ArbitrageEngine (last part of [src/arbitrage/detectors/crossMarketDetector.ts]) *)
(* ===================================================================== *)

Module ArbitrageEngine.
Import JsNum Types.
Local Open Scope Q_scope.

Record PricePoint := {
  timestamp : Z;
  pointSpread : Q;
}.

Record TrackedOpportunity := {
  opportunity : ArbitrageOpportunity;
  firstSeenAt : Z;
  lastSeenAt : Z;
  seenCount : Z;
  priceHistory : list PricePoint;
  executed : bool;
}.

(** The engine's mutable state is the map [trackedOpportunities], passed
    below as [tracked]. *)

Definition OPPORTUNITY_EXPIRY_MS : Z := 5 * 60 * 1000.

(** The result of [detect], without the counts by type and the timing. *)
Record AggregatedDetectionResult := {
  resultTimestamp : Z;
  totalOpportunities : nat;
  opportunities : list ArbitrageOpportunity;
}.

(** [(opp as any).market2Id || ''] *)
Definition m2IdOf (opp : ArbitrageOpportunity) : string :=
  match market2Id opp with
  | Some s => s
  | None => ""
  end.

Definition getOpportunityKey (opp : ArbitrageOpportunity) : string :=
  match type opp with
  | multi_outcome => "mo_" +:+ market1Id opp
  | ty => ArbitrageType_to_string ty +:+ "_" +:+ market1Id opp
          +:+ "_" +:+ m2IdOf opp
  end.

(** [opportunities.sort((a, b) => b.profitPercent - a.profitPercent)]:
    a stable sort, highest profit first.  An element goes in front of
    the first one that is not strictly more profitable, so elements of
    equal profit keep their order. *)
Fixpoint insertByProfit (o : ArbitrageOpportunity)
    (l : list ArbitrageOpportunity) : list ArbitrageOpportunity :=
  match l with
  | [] => [o]
  | x :: l' =>
      if Qltb (profitPercent o) (profitPercent x)
      then x :: insertByProfit o l'
      else o :: l
  end.

Definition sortByProfitDesc (l : list ArbitrageOpportunity)
    : list ArbitrageOpportunity :=
  fold_right insertByProfit [] l.

(** The order the sort establishes: [a] may stand before [b]. *)
Definition profitGe (a b : ArbitrageOpportunity) : Prop :=
  profitPercent b <= profitPercent a.

(** One turn of the loop of [filterAndDedupe]. *)
Definition dedupeStep (acc : gset string * list ArbitrageOpportunity)
    (opp : ArbitrageOpportunity) : gset string * list ArbitrageOpportunity :=
  let key := getOpportunityKey opp in
  if decide (key ∈ acc.1) then acc
  else ({[ key ]} ∪ acc.1, acc.2 ++ [opp]).

Definition filterAndDedupe (opportunities : list ArbitrageOpportunity)
    : list ArbitrageOpportunity :=
  let sorted := sortByProfitDesc opportunities in
  (fold_left dedupeStep sorted (∅, [])).2.

(** The loop of [filterAndDedupe] read as a recursive function: what it
    still appends, given the keys already seen. *)
Fixpoint firstPerKey (seen : gset string) (l : list ArbitrageOpportunity)
    : list ArbitrageOpportunity :=
  match l with
  | [] => []
  | opp :: l' =>
      if decide (getOpportunityKey opp ∈ seen) then firstPerKey seen l'
      else opp :: firstPerKey ({[ getOpportunityKey opp ]} ∪ seen) l'
  end.

(** [priceHistory.push(...)] followed by [shift()] beyond ten points. *)
Definition pushHistory (h : list PricePoint) (p : PricePoint) : list PricePoint :=
  let h' := h ++ [p] in
  if (10 <? length h')%nat then tail h' else h'.

(** What [updateTracking] leaves under the key of [opp]: the entry
    found there, refreshed in place, or a first entry. *)
Definition trackedEntry (now : Z) (existing : option TrackedOpportunity)
    (opp : ArbitrageOpportunity) : TrackedOpportunity :=
  match existing with
  | Some existing =>
      {| opportunity := opp;
         firstSeenAt := firstSeenAt existing;
         lastSeenAt := now;
         seenCount := seenCount existing + 1;
         priceHistory :=
           pushHistory (priceHistory existing)
             {| timestamp := now; pointSpread := spread opp |};
         executed := executed existing |}
  | None =>
      {| opportunity := opp;
         firstSeenAt := now;
         lastSeenAt := now;
         seenCount := 1;
         priceHistory := [{| timestamp := now; pointSpread := spread opp |}];
         executed := false |}
  end.

(** One turn of the loop of [updateTracking]. *)
Definition trackStep (now : Z) (tracked : gmap string TrackedOpportunity)
    (opp : ArbitrageOpportunity) : gmap string TrackedOpportunity :=
  let key := getOpportunityKey opp in
  <[key := trackedEntry now (tracked !! key) opp]> tracked.

(** The invariant of the tracked map: every entry has been seen at
    least once. *)
Definition seenAtLeastOnce (tracked : gmap string TrackedOpportunity) : Prop :=
  forall k e, tracked !! k = Some e -> (1 <= seenCount e)%Z.

Definition updateTracking (now : Z) (opportunities : list ArbitrageOpportunity)
    (tracked : gmap string TrackedOpportunity) : gmap string TrackedOpportunity :=
  fold_left (trackStep now) opportunities tracked.

(** The part of [detect] after the detectors have settled: [results]
    holds one list per enabled detector, an empty one for a detector
    that threw. *)
Definition detect (now : Z) (results : list (list ArbitrageOpportunity))
    (tracked : gmap string TrackedOpportunity)
    : gmap string TrackedOpportunity * AggregatedDetectionResult :=
  let allOpportunities := concat results in
  let filteredOpportunities := filterAndDedupe allOpportunities in
  (updateTracking now filteredOpportunities tracked,
   {| resultTimestamp := now;
      totalOpportunities := length filteredOpportunities;
      opportunities := filteredOpportunities |}).

(** The three-way test in the loop of [getNewOpportunities]. *)
Definition isNew (tracked : gmap string TrackedOpportunity)
    (opp : ArbitrageOpportunity) : bool :=
  match tracked !! getOpportunityKey opp with
  | None => true
  | Some tr =>
      if (seenCount tr =? 1)%Z then true
      else Qltb 0.5 (Qabs (profitPercent opp - profitPercent (opportunity tr)))
  end.

Definition getNewOpportunities (tracked : gmap string TrackedOpportunity)
    (result : AggregatedDetectionResult) : list ArbitrageOpportunity :=
  fold_left (fun newOpps opp => if isNew tracked opp then newOpps ++ [opp]
                                else newOpps)
            (opportunities result) [].

(** [expireOldOpportunities], without the status update sent to the
    repository. *)
Definition expireOldOpportunities (now : Z)
    (tracked : gmap string TrackedOpportunity) : gmap string TrackedOpportunity :=
  filter (fun kv => ¬ (OPPORTUNITY_EXPIRY_MS < now - lastSeenAt kv.2)%Z) tracked.

(** One cycle of the runner ([arbitrageRunner.ts], [detectionCycle]):
    [detect], then [getNewOpportunities] on its result, then the expiry
    sweep. *)
Definition cycle (now : Z) (results : list (list ArbitrageOpportunity))
    (tracked : gmap string TrackedOpportunity)
    : gmap string TrackedOpportunity * list ArbitrageOpportunity :=
  let (tracked', result) := detect now results tracked in
  (expireOldOpportunities now tracked', getNewOpportunities tracked' result).

(** The tracked maps that calls of [detect] and [expireOldOpportunities]
    lead to from the empty map of a new engine. *)
Inductive reachable : gmap string TrackedOpportunity -> Prop :=
| reach_new : reachable ∅
| reach_detect (now : Z) (results : list (list ArbitrageOpportunity))
    (tracked : gmap string TrackedOpportunity) :
    reachable tracked -> reachable (detect now results tracked).1
| reach_expire (now : Z) (tracked : gmap string TrackedOpportunity) :
    reachable tracked -> reachable (expireOldOpportunities now tracked).
(** What the engine maintains of an entry [e] stored under the key [k]. *)
Definition entryOk (k : string) (e : TrackedOpportunity) : Prop :=
  k = getOpportunityKey (opportunity e)
  /\ (1 <= seenCount e)%Z
  /\ length (priceHistory e) = Z.to_nat (Z.min (seenCount e) 10)
  /\ executed e = false
  /\ last (priceHistory e)
     = Some {| timestamp := lastSeenAt e;
               pointSpread := spread (opportunity e) |}.
End ArbitrageEngine.

(* ===================================================================== *)
(** * QuestionSimilarityMatcher (second part of [src/arbitrage/detectors/crossMarketDetector.ts]) *)
(* ===================================================================== *)

Module QuestionSimilarityMatcher.
Import JsNum.
Local Open Scope Q_scope.

Record ExtractedEntities := {
  names : list string;
  dates : list string;
  numbers : list string;
  keywords : list string;
}.

Record MarketData := {
  id : string;
  question : string;
}.

Inductive MatchType := exact | inverse | related.

Record MarketMatch := {
  market1Id : string;
  market1Question : string;
  market2Id : string;
  market2Question : string;
  similarityScore : Q;
  matchType : MatchType;
  sharedEntities : list string;
}.

(** The text functions that work by regular expressions are an
    interface of the model: [entityExtractor.extract],
    [entityExtractor.normalizeQuestion], and the matcher's own
    [extractSubject] and [detectInverseRelationship]. *)
Class TextOps := {
  extract : string -> ExtractedEntities;
  normalizeQuestion : string -> string;
  extractSubject : string -> option string;
  detectInverseRelationship : string -> string -> bool;
}.

(** The two caches of the matcher, filled by [findMatches]. *)
Record t := {
  entityCache : gmap string ExtractedEntities;
  subjectCache : gmap string (option string);
}.

(** ASCII white space, the part of the class [\s] that a byte string
    can hold. *)
Definition isWhitespace (c : ascii) : bool :=
  let n := nat_of_ascii c in
  ((9 <=? n) && (n <=? 13) || (n =? 32))%nat.

(** [s.split(/\s+/)]: [inSep] holds while a run of white space is being
    skipped, [cur] is the piece read so far. *)
Fixpoint splitWhitespaceFrom (inSep : bool) (cur : string) (s : string)
    : list string :=
  match s with
  | EmptyString => [cur]
  | String c s' =>
      if isWhitespace c then
        if inSep then splitWhitespaceFrom true cur s'
        else cur :: splitWhitespaceFrom true "" s'
      else splitWhitespaceFrom false (cur +:+ String c "") s'
  end.

Definition splitWhitespace (s : string) : list string :=
  splitWhitespaceFrom false "" s.

(** [s.split(' ')] *)
Fixpoint splitSpaceFrom (cur : string) (s : string) : list string :=
  match s with
  | EmptyString => [cur]
  | String c s' =>
      if Ascii.eqb c " " then cur :: splitSpaceFrom "" s'
      else splitSpaceFrom (cur +:+ String c "") s'
  end.

Definition splitSpace (s : string) : list string := splitSpaceFrom "" s.

Definition jaccardSimilarity (set1 set2 : gset string) : Q :=
  if ((size set1 =? 0) && (size set2 =? 0))%nat then 0
  else inject_Z (Z.of_nat (size (set1 ∩ set2)))
       / inject_Z (Z.of_nat (size (set1 ∪ set2))).

Definition toSet (l : list string) : gset string := list_to_set l.

(** [new Set(subject.split(/\s+/).filter(w => w.length > 2))] *)
Definition subjectWords (subject : string) : gset string :=
  toSet (List.filter (fun w => (2 <? String.length w)%nat)
                     (splitWhitespace subject)).

Definition subjectOverlap (subject1 subject2 : string) : Q :=
  jaccardSimilarity (subjectWords subject1) (subjectWords subject2).

Section WithTextOps.
Context `{TextOps}.

(** [entityCache.get(id) || entityExtractor.extract(question)] *)
Definition entitiesOf (m : t) (market : MarketData) : ExtractedEntities :=
  match entityCache m !! id market with
  | Some e => e
  | None => extract (question market)
  end.

(** [subjectCache.get(id) ?? this.extractSubject(question)]: a cached
    [null] falls through to a fresh extraction. *)
Definition subjectOf (m : t) (market : MarketData) : option string :=
  match subjectCache m !! id market with
  | Some (Some s) => Some s
  | _ => extractSubject (question market)
  end.

(** The guard of the subject rule together with its inner test:
    both subjects truthy (present and non-empty), not the same
    string, and sharing less than half of their words of more than
    two characters. *)
Definition subjectRuleRejects (subject1 subject2 : option string) : bool :=
  match subject1, subject2 with
  | Some s1, Some s2 =>
      negb (String.eqb s1 "") && negb (String.eqb s2 "")
      && negb (String.eqb s1 s2)
      && Qltb (subjectOverlap s1 s2) 0.5
  | _, _ => false
  end.

Definition nameOverlapOf (entities1 entities2 : ExtractedEntities) : Q :=
  jaccardSimilarity (toSet (names entities1)) (toSet (names entities2)).

Definition inList (x : string) (l : list string) : bool :=
  existsb (String.eqb x) l.

(** The body of [compareMarkets] from the entity overlaps on: it
    does not read the subjects. *)
Definition compareEntities (entities1 entities2 : ExtractedEntities)
    (market1 market2 : MarketData) : option MarketMatch :=
  let nameOverlap := nameOverlapOf entities1 entities2 in
  let dateOverlap :=
    jaccardSimilarity (toSet (dates entities1)) (toSet (dates entities2)) in
  let numberOverlap :=
    jaccardSimilarity (toSet (numbers entities1)) (toSet (numbers entities2)) in
  let keywordOverlap :=
    jaccardSimilarity (toSet (keywords entities1)) (toSet (keywords entities2)) in
  let words1 := toSet (splitSpace (normalizeQuestion (question market1))) in
  let words2 := toSet (splitSpace (normalizeQuestion (question market2))) in
  let wordOverlap := jaccardSimilarity words1 words2 in
  if Qltb nameOverlap 0.3 then None else
  let similarityScore :=
    nameOverlap * 0.45 + dateOverlap * 0.15 + numberOverlap * 0.1
    + keywordOverlap * 0.1 + wordOverlap * 0.2 in
  if Qltb similarityScore 0.5 then None else
  let isInverse :=
    detectInverseRelationship (question market1) (question market2) in
  let sharedNames :=
    List.filter (fun n => inList n (names entities2)) (names entities1) in
  let sharedDates :=
    List.filter (fun d => inList d (dates entities2)) (dates entities1) in
  let sharedEntities := sharedNames ++ sharedDates in
  if (length sharedNames =? 0)%nat then None else
  Some {| market1Id := id market1;
          market1Question := question market1;
          market2Id := id market2;
          market2Question := question market2;
          similarityScore := similarityScore;
          matchType := if isInverse then inverse else exact;
          sharedEntities := sharedEntities |}.

Definition compareMarkets (m : t) (market1 market2 : MarketData)
    : option MarketMatch :=
  let entities1 := entitiesOf m market1 in
  let entities2 := entitiesOf m market2 in
  let subject1 := subjectOf m market1 in
  let subject2 := subjectOf m market2 in
  if subjectRuleRejects subject1 subject2 then None
  else compareEntities entities1 entities2 market1 market2.
End WithTextOps.

(** [matches.sort((a, b) => b.similarityScore - a.similarityScore)]: a
    stable sort, highest score first. *)
Fixpoint insertByScore (x : MarketMatch) (l : list MarketMatch)
    : list MarketMatch :=
  match l with
  | [] => [x]
  | y :: l' =>
      if Qltb (similarityScore x) (similarityScore y)
      then y :: insertByScore x l'
      else x :: l
  end.

Definition sortByScoreDesc (l : list MarketMatch) : list MarketMatch :=
  fold_right insertByScore [] l.

(** The order the sort establishes: [a] may stand before [b]. *)
Definition scoreGe (a b : MarketMatch) : Prop :=
  similarityScore b <= similarityScore a.

(** [clearCache]: only the entity cache is cleared. *)
Definition clearCache (m : t) : t :=
  {| entityCache := ∅; subjectCache := subjectCache m |}.

Section FindMatches.
Context `{TextOps}.

(** One turn of the first loop of [findMatches]: an identifier already
    in a cache keeps what is cached for it. *)
Definition cacheMarket (m : t) (market : MarketData) : t :=
  {| entityCache :=
       match entityCache m !! id market with
       | Some _ => entityCache m
       | None => <[id market := extract (question market)]> (entityCache m)
       end;
     subjectCache :=
       match subjectCache m !! id market with
       | Some _ => subjectCache m
       | None =>
           <[id market := extractSubject (question market)]> (subjectCache m)
       end |}.

Definition fillCaches (markets : list MarketData) (m : t) : t :=
  fold_left cacheMarket markets m.

(** The inner loop for one [markets[i]]: [rest] holds the markets after
    it. *)
Definition matchesWith (minSimilarityScore : Q) (m : t) (market1 : MarketData)
    (rest : list MarketData) : list MarketMatch :=
  flat_map (fun market2 =>
              match compareMarkets m market1 market2 with
              | Some found =>
                  if Qle_bool minSimilarityScore (similarityScore found)
                  then [found] else []
              | None => []
              end)
           rest.

(** The two nested loops over the pairs [i < j]. *)
Fixpoint comparePairs (minSimilarityScore : Q) (m : t)
    (markets : list MarketData) : list MarketMatch :=
  match markets with
  | [] => []
  | market1 :: rest =>
      matchesWith minSimilarityScore m market1 rest
      ++ comparePairs minSimilarityScore m rest
  end.

(** [findMatches]: [minSimilarityScore] is
    [arbConfig.matching.minSimilarityScore]. *)
Definition findMatches (minSimilarityScore : Q) (markets : list MarketData)
    (m : t) : t * list MarketMatch :=
  let m' := fillCaches markets m in
  (m', sortByScoreDesc (comparePairs minSimilarityScore m' markets)).
End FindMatches.
End QuestionSimilarityMatcher.

(* ===================================================================== *)
(** * CrossMarketDetector (first part of [src/arbitrage/detectors/crossMarketDetector.ts]) *)
(* ===================================================================== *)

Module CrossMarketDetector.
Import JsNum.
Local Open Scope Q_scope.

(** The fields of [MarketData] that the detector reads. *)
Record MarketData := {
  id : string;
  question : string;
  currentPrices : list Q;
  liquidity : Q;
  category : string;
}.

(** The configuration the detector reads: [arbConfig.minProfitThreshold],
    [arbConfig.minConfidence] and [arbConfig.risk.minLiquidityUsd]. *)
Record Thresholds := {
  minProfitThreshold : Q;
  minConfidence : Q;
  minLiquidityUsd : Q;
}.

(** The values [loadArbitrageConfig] falls back to. *)
Definition defaults : Thresholds := {|
  minProfitThreshold := 0.5;
  minConfidence := 0.7;
  minLiquidityUsd := 5000;
|}.

Definition POLYMARKET_FEE_PERCENT : Q := 1.

(** What [analyzeMatchPair] returns.  [profitPercent] is [None] when the
    number is not finite: the price difference was divided by a cheap
    price of zero. *)
Record CrossMarketOpportunity := {
  market1Id : string;
  market1Question : string;
  market1Price : Q;
  market1Outcome : Z;
  market1Liquidity : Q;
  market2Id : string;
  market2Question : string;
  market2Price : Q;
  market2Outcome : Z;
  market2Liquidity : Q;
  matchType : QuestionSimilarityMatcher.MatchType;
  similarityScore : Q;
  spread : Q;
  profitPercent : option Q;
  confidenceScore : Q;
}.

(** [prices[i] || 0]: an absent price reads as 0, like a price of 0. *)
Definition priceAt (prices : list Q) (i : nat) : Q := default 0 (prices !! i).

Definition isValidPrice (price : Q) : bool :=
  Qltb 0.01 price && Qltb price 0.99.

Definition calculateConfidence (market1 market2 : MarketData)
    (found : QuestionSimilarityMatcher.MarketMatch) (priceDiff : Q) : Q :=
  let score := QuestionSimilarityMatcher.similarityScore found in
  let confidence := score * 0.5 in
  let minLiquidity := Qmin (liquidity market1) (liquidity market2) in
  let confidence :=
    if Qle_bool 50000 minLiquidity then confidence + 0.2
    else if Qle_bool 20000 minLiquidity then confidence + 0.1
    else confidence in
  let confidence :=
    if Qltb 0.15 priceDiff && Qltb 0.8 score then confidence - 0.2
    else confidence in
  let shared := length (QuestionSimilarityMatcher.sharedEntities found) in
  let confidence :=
    if (3 <=? shared)%nat then confidence + 0.15
    else if (2 <=? shared)%nat then confidence + 0.1
    else confidence in
  let confidence :=
    if String.eqb (category market1) (category market2) then confidence + 0.1
    else confidence in
  Qmax 0 (Qmin 1 confidence).

(** The seven variables that the two branches of [analyzeMatchPair]
    assign. *)
Record Sides := {
  priceDiff : Q;
  cheapMarket : MarketData;
  cheapOutcome : Z;
  cheapPrice : Q;
  expensiveMarket : MarketData;
  expensiveOutcome : Z;
  expensivePrice : Q;
}.

Definition sidesOf (market1 market2 : MarketData)
    (found : QuestionSimilarityMatcher.MarketMatch) : Sides :=
  let yesPrice1 := priceAt (currentPrices market1) 1 in
  let yesPrice2 := priceAt (currentPrices market2) 1 in
  let noPrice2 := priceAt (currentPrices market2) 0 in
  match QuestionSimilarityMatcher.matchType found with
  | QuestionSimilarityMatcher.exact =>
      if Qltb yesPrice1 yesPrice2 then
        {| priceDiff := Qabs (yesPrice1 - yesPrice2);
           cheapMarket := market1; cheapOutcome := 1; cheapPrice := yesPrice1;
           expensiveMarket := market2; expensiveOutcome := 1;
           expensivePrice := yesPrice2 |}
      else
        {| priceDiff := Qabs (yesPrice1 - yesPrice2);
           cheapMarket := market2; cheapOutcome := 1; cheapPrice := yesPrice2;
           expensiveMarket := market1; expensiveOutcome := 1;
           expensivePrice := yesPrice1 |}
  | _ =>
      if Qltb yesPrice1 noPrice2 then
        {| priceDiff := Qabs (yesPrice1 - noPrice2);
           cheapMarket := market1; cheapOutcome := 1; cheapPrice := yesPrice1;
           expensiveMarket := market2; expensiveOutcome := 0;
           expensivePrice := noPrice2 |}
      else
        {| priceDiff := Qabs (yesPrice1 - noPrice2);
           cheapMarket := market2; cheapOutcome := 0; cheapPrice := noPrice2;
           expensiveMarket := market1; expensiveOutcome := 1;
           expensivePrice := yesPrice1 |}
  end.

(** [analyzeMatchPair].  With a cheap price of zero the quotient is
    [Infinity] or [NaN] (the difference is an absolute value), and the
    test [netProfitPercent < minProfitThreshold] is false for both. *)
Definition analyzeMatchPair (cfg : Thresholds) (market1 market2 : MarketData)
    (found : QuestionSimilarityMatcher.MarketMatch)
    : option CrossMarketOpportunity :=
  if Qltb (liquidity market1) (minLiquidityUsd cfg)
     || Qltb (liquidity market2) (minLiquidityUsd cfg) then None else
  let yesPrice1 := priceAt (currentPrices market1) 1 in
  let yesPrice2 := priceAt (currentPrices market2) 1 in
  if negb (isValidPrice yesPrice1) || negb (isValidPrice yesPrice2) then None else
  let sides := sidesOf market1 market2 found in
  let netProfitPercent :=
    if Qeq_bool (cheapPrice sides) 0 then None
    else Some (priceDiff sides / cheapPrice sides * 100 - POLYMARKET_FEE_PERCENT) in
  let belowThreshold :=
    match netProfitPercent with
    | Some p => Qltb p (minProfitThreshold cfg)
    | None => false
    end in
  if belowThreshold then None else
  let confidence := calculateConfidence market1 market2 found (priceDiff sides) in
  if Qltb confidence (minConfidence cfg) then None else
  Some {| market1Id := id (cheapMarket sides);
          market1Question := question (cheapMarket sides);
          market1Price := cheapPrice sides;
          market1Outcome := cheapOutcome sides;
          market1Liquidity := liquidity (cheapMarket sides);
          market2Id := id (expensiveMarket sides);
          market2Question := question (expensiveMarket sides);
          market2Price := expensivePrice sides;
          market2Outcome := expensiveOutcome sides;
          market2Liquidity := liquidity (expensiveMarket sides);
          matchType := QuestionSimilarityMatcher.matchType found;
          similarityScore := QuestionSimilarityMatcher.similarityScore found;
          spread := priceDiff sides;
          profitPercent := netProfitPercent;
          confidenceScore := confidence |}.

(** [profitPercent] of an emitted opportunity as the number it is in
    the source, [(priceDiff / cheapPrice) * 100 - POLYMARKET_FEE_PERCENT]
    with the division of the language: [Infinity] when a positive
    difference is divided by a price of zero. *)
Definition netProfitPercent (opp : CrossMarketOpportunity) : JsNumber.number :=
  JsNumber.sub
    (JsNumber.mul
       (JsNumber.div (JsNumber.num (spread opp))
                     (JsNumber.num (market1Price opp)))
       (JsNumber.num 100))
    (JsNumber.num POLYMARKET_FEE_PERCENT).

(** The emitted opportunity as the member of the union
    [ArbitrageOpportunity] that [PaperTradingExecutor.execute] is handed:
    the same object, which has no [subType]. *)
Definition asArbitrageOpportunity (opp : CrossMarketOpportunity)
    : JsPaperTradingExecutor.Opportunity := {|
  JsPaperTradingExecutor.type := Types.cross_market;
  JsPaperTradingExecutor.subType := None;
  JsPaperTradingExecutor.market1Question := market1Question opp;
  JsPaperTradingExecutor.market1Price := JsNumber.num (market1Price opp);
  JsPaperTradingExecutor.market1Liquidity := JsNumber.num (market1Liquidity opp);
  JsPaperTradingExecutor.profitPercent := netProfitPercent opp;
  JsPaperTradingExecutor.confidenceScore := JsNumber.num (confidenceScore opp);
  JsPaperTradingExecutor.market2Question := Some (market2Question opp);
  JsPaperTradingExecutor.market2Price := Some (JsNumber.num (market2Price opp));
  JsPaperTradingExecutor.market2Liquidity :=
    Some (JsNumber.num (market2Liquidity opp));
|}.
End CrossMarketDetector.

(* ===================================================================== *)
(** * Position sizing in the words of the specification *)
(* ===================================================================== *)

(** The sizing rule as section 4.5 of the specification words it, to be
    compared with [PaperTradingExecutor.calculateKellyFraction] and
    [PaperTradingExecutor.calculatePositionSize]. *)
Module KellySpec.
Local Open Scope Q_scope.

(** [x] clamped to the interval from [lo] to [hi]. *)
Definition clamp (lo hi x : Q) : Q :=
  if Qlt_le_dec x lo then lo else if Qlt_le_dec hi x then hi else x.

(** "estimate win probability from confidence (clamped to [0.5, 0.95])" *)
Definition winProbability (confidence : Q) : Q := clamp 0.5 0.95 confidence.

(** "raw Kelly = (odds p - q) / odds where odds =
    expected-profit-fraction / 0.02" *)
Definition rawKelly (confidence profitPercent : Q) : Q :=
  let p := winProbability confidence in
  let q := 1 - p in
  let odds := (profitPercent / 100) / 0.02 in
  (odds * p - q) / odds.

(** "apply a 0.5 fractional multiplier, then clamp to [1%, 25%]" *)
Definition kellyFraction (confidence profitPercent : Q) : Q :=
  clamp 0.01 0.25 (rawKelly confidence profitPercent * 0.5).

Definition cappedBy (cap x : Q) : Q := if Qlt_le_dec cap x then cap else x.
Definition flooredAt (floor x : Q) : Q := if Qlt_le_dec x floor then floor else x.

(** "further capped by the configured max-position-size and by 25% of
    bankroll, with a $5 floor; sizing yields zero if bankroll < $10" *)
Definition positionSize (maxPositionSize bankroll fraction : Q) : Q :=
  if Qlt_le_dec bankroll 10 then 0
  else flooredAt 5 (cappedBy (bankroll * 0.25)
                             (cappedBy maxPositionSize (bankroll * fraction))).
End KellySpec.

(* ===================================================================== *)
(** * The subject rule in the words of the specification *)
(* ===================================================================== *)

(** "the subjects' word overlap": the Jaccard overlap of the two sets of
    words of the subjects, every word counted, to be compared with
    [QuestionSimilarityMatcher.subjectOverlap]. *)
Module SubjectRuleSpec.
Import QuestionSimilarityMatcher.

Definition words (subject : string) : gset string :=
  toSet (List.filter (fun w => negb (String.eqb w ""))
                     (splitWhitespace subject)).

Definition wordOverlap (subject1 subject2 : string) : Q :=
  jaccardSimilarity (words subject1) (words subject2).
End SubjectRuleSpec.

(* ===================================================================== *)
(** * Sample inputs *)
(* ===================================================================== *)

Module Samples.
Import Types.
Local Open Scope Q_scope.

(** A single-market opportunity on a liquid market. *)
Definition spreadOpp : ArbitrageOpportunity := {|
  id := None; type := multi_outcome; subType := None;
  market1Id := "m1"; market1Question := "Will it rain in Paris tomorrow?";
  market1Price := 0.5; market1Liquidity := 50000;
  spread := 0.04; profitPercent := 3; confidenceScore := 0.8;
  market2Id := None; market2Question := None;
  market2Price := None; market2Liquidity := None |}.

(** The scenario of the specification: confidence 0.9, profit 5%. *)
Definition crossOpp : ArbitrageOpportunity := {|
  id := None; type := cross_market; subType := None;
  market1Id := "a"; market1Question := "Will the Lakers win the title?";
  market1Price := 0.4; market1Liquidity := 50000;
  spread := 0.05; profitPercent := 5; confidenceScore := 0.9;
  market2Id := Some "b";
  market2Question := Some "Lakers to win the title?";
  market2Price := Some 0.45; market2Liquidity := Some 60000 |}.

(** The paper executor after one more trade of [crossOpp] with the
    given draws. *)
Definition afterTrade (ex : PaperTradingExecutor.t) (draws : list Q)
    : PaperTradingExecutor.t :=
  match Rand.eval (PaperTradingExecutor.execute Config.defaults 0 600 ex crossOpp)
                  (Rand.tapeOf draws) with
  | PaperTradingExecutor.Traded ex' _ => ex'
  | _ => ex
  end.

(** A history of three trades from a bankroll of 1000, the second with
    a failed first leg. *)
Definition threeTrades : PaperTradingExecutor.t :=
  afterTrade
    (afterTrade
       (afterTrade (PaperTradingExecutor.new 1000) [0.5; 0.5; 0.5; 0.5; 0.5])
       [0.5; 0.01; 0.5])
    [0.5; 0.5; 0.5; 0.5; 0.5].

(** [o] with another profit percentage. *)
Definition withProfit (o : ArbitrageOpportunity) (p : Q) : ArbitrageOpportunity := {|
  id := id o; type := type o; subType := subType o;
  market1Id := market1Id o; market1Question := market1Question o;
  market1Price := market1Price o; market1Liquidity := market1Liquidity o;
  spread := spread o; profitPercent := p;
  confidenceScore := confidenceScore o;
  market2Id := market2Id o; market2Question := market2Question o;
  market2Price := market2Price o; market2Liquidity := market2Liquidity o |}.

(** Six markets and the values of the regular-expression functions on
    their questions, traced by hand through [COMPETITION_PATTERNS],
    [EntityExtractor] and [NEGATION_PAIRS].  No negation pair and no
    "not" phrase occurs in any of the questions, so no two of them are
    inverse. *)
Definition lakersMarket : QuestionSimilarityMatcher.MarketData :=
  {| QuestionSimilarityMatcher.id := "1";
     QuestionSimilarityMatcher.question := "Will the Lakers win the NBA title?" |}.
Definition celticsMarket : QuestionSimilarityMatcher.MarketData :=
  {| QuestionSimilarityMatcher.id := "2";
     QuestionSimilarityMatcher.question := "Will the Celtics win the NBA title?" |}.
Definition lakersToWinMarket : QuestionSimilarityMatcher.MarketData :=
  {| QuestionSimilarityMatcher.id := "3";
     QuestionSimilarityMatcher.question := "Lakers to win the NBA title?" |}.
Definition bitcoinMarket : QuestionSimilarityMatcher.MarketData :=
  {| QuestionSimilarityMatcher.id := "4";
     QuestionSimilarityMatcher.question := "Will Bitcoin hit 100k?" |}.

Definition laGalaxyMarket : QuestionSimilarityMatcher.MarketData :=
  {| QuestionSimilarityMatcher.id := "5";
     QuestionSimilarityMatcher.question := "Will LA Galaxy win the MLS Cup 2025?" |}.
Definition dcGalaxyMarket : QuestionSimilarityMatcher.MarketData :=
  {| QuestionSimilarityMatcher.id := "6";
     QuestionSimilarityMatcher.question := "Will DC Galaxy win the MLS Cup 2025?" |}.

Definition entitiesOfQuestion (q : string) : QuestionSimilarityMatcher.ExtractedEntities :=
  let mk := QuestionSimilarityMatcher.Build_ExtractedEntities in
  if String.eqb q "Will LA Galaxy win the MLS Cup 2025?"
  then mk ["galaxy"; "la"; "mls"] ["2025"] ["2025"] ["win"; "cup"]
  else if String.eqb q "Will DC Galaxy win the MLS Cup 2025?"
  then mk ["galaxy"; "dc"; "mls"] ["2025"] ["2025"] ["win"; "cup"]
  else if String.eqb q "Will the Lakers win the NBA title?"
  then mk ["lakers"; "nba"] [] [] ["win"; "title"]
  else if String.eqb q "Will the Celtics win the NBA title?"
  then mk ["celtics"; "nba"] [] [] ["win"; "title"]
  else if String.eqb q "Lakers to win the NBA title?"
  then mk ["lakers"; "nba"] [] [] ["win"; "title"]
  else if String.eqb q "Will Bitcoin hit 100k?"
  then mk ["will bitcoin"] [] ["100k"] ["bitcoin"; "hit"]
  else mk [] [] [] [].

Definition normalizedQuestion (q : string) : string :=
  if String.eqb q "Will LA Galaxy win the MLS Cup 2025?"
  then "will la galaxy win the mls cup 2025"
  else if String.eqb q "Will DC Galaxy win the MLS Cup 2025?"
  then "will dc galaxy win the mls cup 2025"
  else if String.eqb q "Will the Lakers win the NBA title?"
  then "will the lakers win the nba title"
  else if String.eqb q "Will the Celtics win the NBA title?"
  then "will the celtics win the nba title"
  else if String.eqb q "Lakers to win the NBA title?"
  then "lakers to win the nba title"
  else if String.eqb q "Will Bitcoin hit 100k?"
  then "will bitcoin hit 100k"
  else q.

Definition subjectOfQuestion (q : string) : option string :=
  if String.eqb q "Will LA Galaxy win the MLS Cup 2025?" then Some "la galaxy"
  else if String.eqb q "Will DC Galaxy win the MLS Cup 2025?" then Some "dc galaxy"
  else if String.eqb q "Will the Lakers win the NBA title?" then Some "lakers"
  else if String.eqb q "Will the Celtics win the NBA title?" then Some "celtics"
  else if String.eqb q "Lakers to win the NBA title?" then Some "lakers"
  else None.

Definition textOps : QuestionSimilarityMatcher.TextOps := {|
  QuestionSimilarityMatcher.extract := entitiesOfQuestion;
  QuestionSimilarityMatcher.normalizeQuestion := normalizedQuestion;
  QuestionSimilarityMatcher.extractSubject := subjectOfQuestion;
  QuestionSimilarityMatcher.detectInverseRelationship := fun _ _ => false;
|}.

(** A matcher whose caches are still empty. *)
Definition freshMatcher : QuestionSimilarityMatcher.t :=
  {| QuestionSimilarityMatcher.entityCache := ∅;
     QuestionSimilarityMatcher.subjectCache := ∅ |}.
End Samples.

(* ===================================================================== *)
(** * Sample inputs of the cross-market detector *)
(* ===================================================================== *)

Module CrossSamples.
Import CrossMarketDetector.
Local Open Scope Q_scope.

(** Two liquid markets on the same event, priced at 0.40 and 0.45. *)
Definition lakersA : MarketData := {|
  id := "lakers-a"; question := "Will the Lakers win the NBA title?";
  currentPrices := [0.6; 0.4]; liquidity := 60000; category := "sports" |}.

Definition lakersB : MarketData := {|
  id := "lakers-b"; question := "Lakers to win the NBA title?";
  currentPrices := [0.55; 0.45]; liquidity := 80000; category := "sports" |}.

(** A market that lists no NO price. *)
Definition lakersLose : MarketData := {|
  id := "lakers-c"; question := "Will the Lakers lose the NBA title?";
  currentPrices := [0; 0.5]; liquidity := 80000; category := "sports" |}.

Definition matchOf (market1 market2 : MarketData)
    (type : QuestionSimilarityMatcher.MatchType)
    : QuestionSimilarityMatcher.MarketMatch := {|
  QuestionSimilarityMatcher.market1Id := id market1;
  QuestionSimilarityMatcher.market1Question := question market1;
  QuestionSimilarityMatcher.market2Id := id market2;
  QuestionSimilarityMatcher.market2Question := question market2;
  QuestionSimilarityMatcher.similarityScore := 0.75;
  QuestionSimilarityMatcher.matchType := type;
  QuestionSimilarityMatcher.sharedEntities := ["lakers"; "nba"] |}.

(** What the paper executor is handed for the inverse match of
    [lakersA] with [lakersLose], which lists no NO price: the
    opportunity that [analyzeMatchPair] emits for it. *)
Definition noPriceOpportunity : option JsPaperTradingExecutor.Opportunity :=
  option_map asArbitrageOpportunity
    (analyzeMatchPair defaults lakersA lakersLose
       (matchOf lakersA lakersLose QuestionSimilarityMatcher.inverse)).
End CrossSamples.

(* ===================================================================== *)
(** * Sample inputs of the simulation executor *)
(* ===================================================================== *)

Module SimSamples.
Import SimulationExecutor.
Local Open Scope Q_scope.

(** An executor with the default starting balance and limits. *)
Definition executor : t :=
  new 10000 (RiskManager.limitsOfConfig Config.defaults) 0.

(** An underpriced single-market opportunity: YES and NO at 0.48. *)
Definition underpricedOpp : Opportunity := {|
  base := Samples.spreadOpp;
  market1Outcome := 1;
  market2Outcome := None;
  direction := underpriced;
  yesPrice := 0.48;
  noPrice := 0.48;
|}.

Definition request : ExecutionRequest :=
  {| opportunity := underpricedOpp; sizeUsd := 100 |}.

(** A request larger than the position limit. *)
Definition oversized : ExecutionRequest :=
  {| opportunity := underpricedOpp; sizeUsd := 2000 |}.

(** A cross-market opportunity between two liquid markets. *)
Definition crossMarketOpp : Opportunity := {|
  base := Samples.crossOpp;
  market1Outcome := 1;
  market2Outcome := Some 1%Z;
  direction := underpriced;
  yesPrice := 0;
  noPrice := 0;
|}.

Definition crossRequest : ExecutionRequest :=
  {| opportunity := crossMarketOpp; sizeUsd := 100 |}.

(** The same opportunity with a second market that reports a liquidity
    of zero: the risk check reads [market2Liquidity || Infinity] and
    lets it pass. *)
Definition illiquidSecondOpp : Opportunity := {|
  base := {|
    Types.id := None; Types.type := Types.cross_market;
    Types.subType := None;
    Types.market1Id := "a";
    Types.market1Question := "Will the Lakers win the title?";
    Types.market1Price := 0.4; Types.market1Liquidity := 50000;
    Types.spread := 0.05; Types.profitPercent := 5;
    Types.confidenceScore := 0.9;
    Types.market2Id := Some "b";
    Types.market2Question := Some "Lakers to win the title?";
    Types.market2Price := Some 0.45; Types.market2Liquidity := Some 0 |};
  market1Outcome := 1;
  market2Outcome := Some 1%Z;
  direction := underpriced;
  yesPrice := 0;
  noPrice := 0;
|}.

Definition illiquidRequest : ExecutionRequest :=
  {| opportunity := illiquidSecondOpp; sizeUsd := 100 |}.
End SimSamples.

(* ===================================================================== *)
(** * Facts about the number tests *)
(* ===================================================================== *)

Section NumberFacts.
Import JsNum.
Local Open Scope Q_scope.

Lemma Qltb_true (x y : Q) : Qltb x y = true <-> x < y.
Proof.
  unfold Qltb. rewrite negb_true_iff.
  destruct (Qle_bool y x) eqn:E.
  - apply Qle_bool_iff in E. split; [discriminate | lra].
  - split; [intros _ | reflexivity].
    destruct (Qlt_le_dec x y) as [Hlt | Hle]; [exact Hlt |].
    apply Qle_bool_iff in Hle. congruence.
Qed.

Lemma Qltb_false (x y : Q) : Qltb x y = false <-> y <= x.
Proof.
  destruct (Qltb x y) eqn:E.
  - apply Qltb_true in E. split; [discriminate | lra].
  - split; [intros _ | reflexivity].
    destruct (Qlt_le_dec x y) as [Hlt | Hle]; [| exact Hle].
    apply Qltb_true in Hlt. congruence.
Qed.

Lemma Qle_bool_false (x y : Q) : Qle_bool x y = false <-> y < x.
Proof.
  split.
  - intros E. apply Qltb_true. unfold Qltb. now rewrite E.
  - intros Hlt. apply Qltb_true in Hlt. unfold Qltb in Hlt.
    now apply negb_true_iff in Hlt.
Qed.
End NumberFacts.

(* ===================================================================== *)
(** * RiskManager: admission *)
(* ===================================================================== *)

Section RiskManagerAdmission.
Import JsNum Types RiskManager.
Local Open Scope Q_scope.

(** The names of the six checks, in evaluation order. *)
Lemma checkPreExecution_check_names now rm opp sz :
  map name (checks (checkPreExecution now rm opp sz).2)
  = ["position_limit"; "total_exposure"; "daily_loss"; "liquidity";
     "cooldown"; "profitability"].
Proof. reflexivity. Qed.

Lemma approved_forallb now rm opp sz :
  let res := (checkPreExecution now rm opp sz).2 in
  approved res = forallb passed (checks res).
Proof.
  unfold checkPreExecution.
  generalize (checkDailyReset now rm); intros rm'.
  generalize (checkPositionLimit rm' opp sz) (checkTotalExposure rm' sz)
             (checkDailyLoss rm') (checkLiquidity rm' opp)
             (checkCooldown now rm') (checkMinProfitability opp sz).
  intros c1 c2 c3 c4 c5 c6. cbn.
  destruct (passed c1), (passed c2), (passed c3), (passed c4),
           (passed c5), (passed c6); reflexivity.
Qed.

(** A failed check among the six rejects the trade. *)
Lemma failed_check_rejects now rm opp sz c :
  let res := (checkPreExecution now rm opp sz).2 in
  In c (checks res) -> passed c = false -> approved res = false.
Proof.
  intros res Hin Hc. subst res. rewrite approved_forallb.
  apply not_true_is_false. intros Htrue.
  rewrite forallb_forall in Htrue. specialize (Htrue c Hin). congruence.
Qed.

(** C1. [checkPreExecution] approves exactly when the six checks pass,
    each read on the state left by the daily reset: the position in the
    primary market stays within its cap, the aggregate exposure stays
    within its cap, the daily P&L is above the loss floor, the smallest
    liquidity meets the floor, the cooldown has elapsed, and the profit
    net of the rough slippage estimate exceeds 0.1 (with a zero
    liquidity: only for a negative order).  Any single failed check
    rejects the trade. *)
Theorem checkPreExecution_approved_iff_all_checks_pass
    (now : Z) (rm : t) (opp : ArbitrageOpportunity) (sz : Q) :
  let rm' := checkDailyReset now rm in
  let res := (checkPreExecution now rm opp sz).2 in
  (approved res = true <->
     currentSize rm' opp + sz <= maxPositionSizeUsd (limits rm')
     /\ totalExposure rm' + sz <= maxTotalExposureUsd (limits rm')
     /\ - maxDailyLossUsd (limits rm') < dailyPnL rm'
     /\ minLiquidityUsd (limits rm') <= minLiquidityOf opp
     /\ cooldownMs (limits rm') <= inject_Z (now - lastTradeTime rm')
     /\ match netProfitAfterSlippage opp sz with
        | Some netProfit => 0.1 < netProfit
        | None => sz < 0
        end)
  /\ approved res = forallb passed (checks res)
  /\ length (checks res) = 6%nat
  /\ (forall c, In c (checks res) -> passed c = false -> approved res = false).
Proof.
  intros rm' res.
  assert (Hall : approved res = forallb passed (checks res))
    by apply approved_forallb.
  split; [| split; [exact Hall | split; [reflexivity |]]].
  - rewrite Hall. subst res.
    cbn -[checkDailyReset currentSize minLiquidityOf netProfitAfterSlippage
          Qle_bool Qltb Qplus Qopp Qminus inject_Z].
    fold rm'.
    rewrite !andb_true_iff, !Qle_bool_iff, !Qltb_true.
    destruct (netProfitAfterSlippage opp sz);
      rewrite Qltb_true; tauto.
  - intros c. apply failed_check_rejects.
Qed.
End RiskManagerAdmission.

(* ===================================================================== *)
(** * RiskManager: exposure, positions and the emergency stop *)
(* ===================================================================== *)

Section RiskManagerState.
Import JsNum Types RiskManager.
Local Open Scope Q_scope.

Lemma sumAbsSizes_nonneg (ps : gmap string Position) : 0 <= sumAbsSizes ps.
Proof.
  unfold sumAbsSizes.
  apply (map_fold_weak_ind (fun r _ => 0 <= r)).
  - lra.
  - intros i x m r _ Hr. pose proof (Qabs_nonneg (size x)). lra.
Qed.

Lemma sumAbsSizes_empty : sumAbsSizes ∅ = 0.
Proof. unfold sumAbsSizes. apply map_fold_empty. Qed.

(** Adding a position under a fresh key adds its absolute size. *)
Lemma sumAbsSizes_insert (ps : gmap string Position) k p :
  ps !! k = None ->
  sumAbsSizes (<[k := p]> ps) == sumAbsSizes ps + Qabs (size p).
Proof.
  intros Hk. unfold sumAbsSizes.
  pose proof (map_fold_insert Qeq
                (fun (_ : string) (q : Position) (sum : Q) =>
                   sum + Qabs (size q)) 0 k p ps) as Hins.
  apply Hins; [| | exact Hk].
  - intros j z a b Hab. now rewrite Hab.
  - intros. ring.
Qed.

Lemma checkDailyReset_limits now rm :
  limits (checkDailyReset now rm) = limits rm.
Proof. unfold checkDailyReset. now destruct (_ <=? _)%Z. Qed.

Lemma checkDailyReset_totalExposure now rm :
  totalExposure (checkDailyReset now rm) = totalExposure rm.
Proof. unfold checkDailyReset. now destruct (_ <=? _)%Z. Qed.

Lemma checkDailyReset_positions now rm :
  positions (checkDailyReset now rm) = positions rm.
Proof. unfold checkDailyReset. now destruct (_ <=? _)%Z. Qed.

Lemma step_exposure_nonneg rm c :
  0 <= totalExposure rm -> 0 <= totalExposure (step rm c).
Proof.
  intros H. destruct c; cbn -[checkDailyReset sumAbsSizes].
  - now rewrite checkDailyReset_totalExposure.
  - apply sumAbsSizes_nonneg.
  - exact H.
  - exact H.
Qed.

Lemma run_exposure_nonneg cs : forall rm,
  0 <= totalExposure rm -> 0 <= totalExposure (run rm cs).
Proof.
  unfold run. induction cs as [| c cs IH]; intros rm H; cbn [fold_left].
  - exact H.
  - apply IH. now apply step_exposure_nonneg.
Qed.

Lemma step_exposure_limit_zero rm c :
  maxTotalExposureUsd (limits rm) = 0 ->
  maxTotalExposureUsd (limits (step rm c)) = 0.
Proof.
  intros H. destruct c; cbn -[checkDailyReset]; try exact H; try reflexivity.
  now rewrite checkDailyReset_limits.
Qed.

Lemma run_exposure_limit_zero cs : forall rm,
  maxTotalExposureUsd (limits rm) = 0 ->
  maxTotalExposureUsd (limits (run rm cs)) = 0.
Proof.
  unfold run. induction cs as [| c cs IH]; intros rm H; cbn [fold_left].
  - exact H.
  - apply IH. now apply step_exposure_limit_zero.
Qed.

(** With a zero exposure cap and a non-negative exposure, a positive
    order fails the exposure check. *)
Lemma zero_cap_rejects now rm opp sz :
  maxTotalExposureUsd (limits rm) = 0 ->
  0 <= totalExposure rm ->
  0 < sz ->
  approved (checkPreExecution now rm opp sz).2 = false.
Proof.
  intros Hcap Hexp Hsz.
  apply (failed_check_rejects now rm opp sz
           (checkTotalExposure (checkDailyReset now rm) sz)).
  - cbn -[checkDailyReset checkPositionLimit checkTotalExposure checkDailyLoss
          checkLiquidity checkCooldown checkMinProfitability]. tauto.
  - unfold checkTotalExposure. cbn [passed].
    rewrite checkDailyReset_limits, checkDailyReset_totalExposure, Hcap.
    apply Qle_bool_false. lra.
Qed.

(** C8. [emergencyStop] writes zero into the exposure and daily-loss
    limits and leaves every other field and limit as it was; from any
    state the manager can reach, once it has run, every later
    [checkPreExecution] with a positive order size is rejected, whatever
    calls come in between. *)
Theorem emergencyStop_zeroes_limits_and_blocks_approvals :
  (forall rm : t,
     let rm' := emergencyStop rm in
     maxTotalExposureUsd (limits rm') = 0
     /\ maxDailyLossUsd (limits rm') = 0
     /\ positions rm' = positions rm
     /\ dailyPnL rm' = dailyPnL rm
     /\ dailyVolume rm' = dailyVolume rm
     /\ lastTradeTime rm' = lastTradeTime rm
     /\ totalExposure rm' = totalExposure rm
     /\ dailyReset rm' = dailyReset rm
     /\ maxPositionSizeUsd (limits rm') = maxPositionSizeUsd (limits rm)
     /\ maxSlippagePercent (limits rm') = maxSlippagePercent (limits rm)
     /\ minLiquidityUsd (limits rm') = minLiquidityUsd (limits rm)
     /\ maxGasCostUsd (limits rm') = maxGasCostUsd (limits rm)
     /\ cooldownMs (limits rm') = cooldownMs (limits rm))
  /\ (forall (lim : RiskLimits) (t0 : Z) (before after : list Call)
             (now : Z) (opp : ArbitrageOpportunity) (sz : Q),
        0 < sz ->
        let stopped := emergencyStop (run (new lim t0) before) in
        approved (checkPreExecution now (run stopped after) opp sz).2 = false).
Proof.
  split.
  - intros rm. cbn. repeat split.
  - intros lim t0 before after now opp sz Hsz stopped.
    apply zero_cap_rejects; [| | exact Hsz].
    + apply run_exposure_limit_zero. reflexivity.
    + apply run_exposure_nonneg. subst stopped. cbn [emergencyStop totalExposure].
      apply run_exposure_nonneg. cbn. lra.
Qed.

Lemma emergencyStop_zeroes_limits_and_blocks_approvals_witness :
  let lim := limitsOfConfig Config.defaults in
  let opp := Samples.spreadOpp in
  approved (checkPreExecution 20000 (new lim 0) opp 100).2 = true
  /\ approved (checkPreExecution 20000
                 (run (emergencyStop (run (new lim 0) []))
                      [CallResetDaily 10000])
                 opp 100).2 = false.
Proof.
  intros lim opp. split.
  - vm_compute. reflexivity.
  - apply (proj2 emergencyStop_zeroes_limits_and_blocks_approvals
             lim 0%Z [] [CallResetDaily 10000] 20000%Z opp 100).
    reflexivity.
Defined.
End RiskManagerState.

Section RiskManagerPositions.
Import JsNum Types RiskManager.
Local Open Scope Q_scope.

Lemma updatePositions_positive now ps mid side sz price :
  (side = BUY -> ps !! mid = None -> 0 < sz) ->
  (forall k p, ps !! k = Some p -> 0 < size p) ->
  forall k p,
    updatePositions now ps mid side sz price !! k = Some p -> 0 < size p.
Proof.
  intros Hsz Hpos k p. unfold updatePositions.
  destruct (ps !! mid) as [existing |] eqn:Hmid.
  - destruct (Qle_bool _ 0) eqn:Hle.
    + rewrite lookup_delete_Some. intros [_ Hk]. eauto.
    + apply Qle_bool_false in Hle.
      rewrite lookup_insert_Some. intros [[_ <-] | [_ Hk]]; [exact Hle | eauto].
  - destruct side.
    + rewrite lookup_insert_Some. intros [[_ <-] | [_ Hk]]; [| eauto].
      cbn. now apply Hsz.
    + eauto.
Qed.

(** C9, as amended.  [updateAfterExecution] keeps every stored position
    strictly positive provided a BUY that opens a new position has a
    positive size: an update that brings the net size of a position to
    zero or below deletes it; a SELL on a market without a position
    leaves the map as it is; and the total exposure after the update is
    the sum of the absolute sizes of the stored positions. *)
Theorem updateAfterExecution_keeps_positions_positive
    (now : Z) (rm : t) (mid : string) (side : OrderSide) (sz price pnl : Q) :
  (side = BUY -> positions rm !! mid = None -> 0 < sz) ->
  (forall k p, positions rm !! k = Some p -> 0 < size p) ->
  let rm' := updateAfterExecution now rm mid side sz price pnl in
  (forall k p, positions rm' !! k = Some p -> 0 < size p)
  /\ (forall existing,
        positions rm !! mid = Some existing ->
        match side with
        | BUY => size existing + sz
        | SELL => size existing - sz
        end <= 0 ->
        positions rm' !! mid = None)
  /\ (side = SELL -> positions rm !! mid = None ->
      positions rm' = positions rm)
  /\ totalExposure rm' = sumAbsSizes (positions rm').
Proof.
  intros Hsz Hpos rm'. subst rm'. cbn [updateAfterExecution positions totalExposure].
  repeat split.
  - now apply updatePositions_positive.
  - intros existing Hmid Hle. unfold updatePositions. rewrite Hmid.
    apply Qle_bool_iff in Hle. rewrite Hle. apply lookup_delete_eq.
  - intros -> Hmid. unfold updatePositions. now rewrite Hmid.
Qed.

Lemma updateAfterExecution_keeps_positions_positive_witness :
  let rm := updateAfterExecution 1000
              (new (limitsOfConfig Config.defaults) 0) "m1" BUY 100 0.5 0 in
  let rm' := updateAfterExecution 2000 rm "m1" SELL 40 0.6 4 in
  (forall k p, positions rm' !! k = Some p -> 0 < size p)
  /\ totalExposure rm' = sumAbsSizes (positions rm').
Proof.
  intros rm rm'.
  destruct (updateAfterExecution_keeps_positions_positive
              2000 rm "m1" SELL 40 0.6 4) as (Hpos & _ & _ & Hexp).
  - discriminate.
  - intros k p. subst rm. cbn [updateAfterExecution positions new].
    unfold updatePositions. rewrite lookup_empty.
    rewrite lookup_insert_Some, lookup_empty.
    intros [[_ <-] | [_ Hk]]; [reflexivity | discriminate].
  - split; [exact Hpos | exact Hexp].
Defined.

(** C9, as stated, fails: a BUY of size zero on a market without a
    position stores a position of size zero. *)
Lemma updateAfterExecution_zero_size_buy_stores_empty_position :
  let rm := new (limitsOfConfig Config.defaults) 0 in
  (forall k p, positions rm !! k = Some p -> 0 < size p)
  /\ ~ (forall k p,
          positions (updateAfterExecution 1000 rm "m1" BUY 0 0.5 0) !! k = Some p ->
          0 < size p).
Proof.
  intros rm. split.
  - intros k p. subst rm. cbn. rewrite lookup_empty. discriminate.
  - intros Hall.
    specialize (Hall "m1"
                  {| marketId := "m1"; outcome := 1; size := 0;
                     avgEntryPrice := 0.5; currentPrice := 0.5;
                     unrealizedPnl := 0; openedAt := 1000 |}).
    assert (Hlt : 0 < 0); [| lra].
    apply Hall. subst rm. cbn [updateAfterExecution positions new].
    unfold updatePositions. rewrite lookup_empty. apply lookup_insert_eq.
Qed.
End RiskManagerPositions.

(* ===================================================================== *)
(** * PaperTradingExecutor: position sizing *)
(* ===================================================================== *)

Section PositionSizing.
Import JsNum Types PaperTradingExecutor.
Local Open Scope Q_scope.

Lemma clamp_eq (lo hi x y : Q) :
  x == y -> KellySpec.clamp lo hi x == KellySpec.clamp lo hi y.
Proof.
  intros Hxy. unfold KellySpec.clamp.
  destruct (Qlt_le_dec x lo), (Qlt_le_dec y lo); try lra;
    destruct (Qlt_le_dec hi x), (Qlt_le_dec hi y); lra.
Qed.

Lemma min_max_is_clamp (lo hi x : Q) :
  lo <= hi -> Qmin hi (Qmax lo x) == KellySpec.clamp lo hi x.
Proof.
  intros Hlohi. unfold KellySpec.clamp.
  destruct (Q.max_spec lo x) as [[Hlt Hmax] | [Hle Hmax]];
    destruct (Q.min_spec hi (Qmax lo x)) as [[Hlt' Hmin] | [Hle' Hmin]];
    destruct (Qlt_le_dec x lo); try lra;
    destruct (Qlt_le_dec hi x); lra.
Qed.

Lemma clamp_bounds (lo hi x : Q) :
  lo <= hi -> lo <= KellySpec.clamp lo hi x <= hi.
Proof.
  intros Hlohi. unfold KellySpec.clamp.
  destruct (Qlt_le_dec x lo); [lra |].
  destruct (Qlt_le_dec hi x); lra.
Qed.

Lemma odds_zero_iff (e : Q) : e / 100 / 0.02 == 0 <-> e == 0.
Proof.
  assert (Hodds : e / 100 / 0.02 == e * (1 # 2)) by (field; lra).
  rewrite Hodds. split; intros He; lra.
Qed.

Lemma calculateKellyFraction_bounds (c e : Q) :
  0.01 <= calculateKellyFraction c e <= 0.25.
Proof.
  unfold calculateKellyFraction.
  destruct (Qeq_bool _ 0).
  - split; [apply Q.min_glb; lra | apply Q.le_min_l].
  - split; [apply Q.min_glb; [lra | apply Q.le_max_l] | apply Q.le_min_l].
Qed.

Lemma calculateKellyFraction_spec (c e : Q) :
  ~ e == 0 -> calculateKellyFraction c e == KellySpec.kellyFraction c e.
Proof.
  intros He. unfold calculateKellyFraction.
  destruct (Qeq_bool _ 0) eqn:Hodds.
  - apply Qeq_bool_iff in Hodds. apply (proj1 (odds_zero_iff e)) in Hodds.
    contradiction.
  - rewrite min_max_is_clamp by lra.
    unfold KellySpec.kellyFraction, KellySpec.rawKelly, KellySpec.winProbability.
    apply clamp_eq.
    rewrite (min_max_is_clamp 0.5 0.95 c) by lra. reflexivity.
Qed.

Lemma calculateKellyFraction_zero_profit (c e : Q) :
  e == 0 -> calculateKellyFraction c e == 0.01.
Proof.
  intros He. unfold calculateKellyFraction.
  destruct (Qeq_bool _ 0) eqn:Hodds.
  - apply Q.min_r. lra.
  - apply (proj2 (odds_zero_iff e)) in He. apply Qeq_bool_iff in He.
    congruence.
Qed.

Lemma calculatePositionSize_spec cfg ex opp :
  calculatePositionSize cfg ex opp
  == KellySpec.positionSize (Config.risk_maxPositionSizeUsd cfg) (bankroll ex)
       (calculateKellyFraction (confidenceScore opp) (Types.profitPercent opp)).
Proof.
  unfold calculatePositionSize, KellySpec.positionSize.
  set (k := calculateKellyFraction _ _).
  destruct (Qltb (bankroll ex) 10) eqn:Hb.
  - apply Qltb_true in Hb. destruct (Qlt_le_dec (bankroll ex) 10); lra.
  - apply Qltb_false in Hb. destruct (Qlt_le_dec (bankroll ex) 10); [lra |].
    unfold KellySpec.flooredAt, KellySpec.cappedBy.
    set (m := Config.risk_maxPositionSizeUsd cfg).
    generalize (bankroll ex * k) (bankroll ex * 0.25); intros a b.
    destruct (Q.min_spec a m) as [[H1 E1] | [H1 E1]];
      destruct (Q.min_spec (Qmin a m) b) as [[H2 E2] | [H2 E2]];
      destruct (Q.max_spec (Qmin (Qmin a m) b) 5) as [[H3 E3] | [H3 E3]];
      destruct (Qlt_le_dec m a);
      match goal with
      | |- context [Qlt_le_dec b ?v] => destruct (Qlt_le_dec b v)
      end;
      match goal with
      | |- context [Qlt_le_dec ?v 5] => destruct (Qlt_le_dec v 5)
      end;
      lra.
Qed.

Lemma Qmax_floor_exact (x floor : Q) : x < floor -> Qmax x floor = floor.
Proof.
  intros Hlt. unfold Qmax, GenericMinMax.gmax.
  now rewrite (proj1 (Qlt_alt x floor) Hlt).
Qed.

End PositionSizing.

(* ===================================================================== *)
(** * SlippageModel: the noise pass *)
(* ===================================================================== *)

Section SlippageNoise.
Import JsNum Types SlippageModel.
Local Open Scope Q_scope.

(** The factor applied to the basis points lies in [0.8, 1.2) for a
    draw in [0, 1), and the perturbed estimate is floored at zero. *)
Lemma addNoiseWith_bps (r : Q) (e : SlippageEstimate) :
  estimatedSlippageBps (addNoiseWith r e)
  = Qmax 0 (estimatedSlippageBps e * (1 + (r - 0.5) * 0.4))
  /\ (0 <= r < 1 -> 0.8 <= 1 + (r - 0.5) * 0.4 < 1.2).
Proof. split; [reflexivity | intros Hr; lra]. Qed.

(** X13. For a buy whose estimated price was not clamped, the noise pass
    recovers the current price and shifts it by the perturbed
    fraction: the price returned is the current price raised by the
    perturbed basis points, clamped to [0.01, 0.99]. *)
Lemma addNoiseWith_buy_price_consistent cfg sz liq cur r e :
  estimate cfg sz liq true cur = Some e ->
  0 <= estimatedSlippageBps e ->
  0.01 <= cur * (1 + estimatedSlippageBps e / 10000) <= 0.99 ->
  estimatedExecutionPrice (addNoiseWith r e)
  == Qmax 0.01 (Qmin 0.99
       (cur * (1 + estimatedSlippageBps e * (1 + (r - 0.5) * 0.4) / 10000))).
Proof.
  unfold estimate. destruct (Qeq_bool liq 0); [discriminate |].
  intros [= <-]. cbn [estimatedSlippageBps estimatedExecutionPrice addNoiseWith].
  set (bps := Config.baseSlippageBps cfg + _ + _).
  intros Hbps Hrange.
  assert (Hunclamped : Qmax 0.01 (Qmin 0.99 (cur * (1 + bps / 10000)))
                       == cur * (1 + bps / 10000)).
  { rewrite Q.min_r by lra. apply Q.max_r. lra. }
  rewrite Hunclamped.
  assert (Horig : cur * (1 + bps / 10000) / (1 + bps / 10000) == cur)
    by (field; lra).
  rewrite Horig. reflexivity.
Qed.

(** C6, on the code.  A sell of 100 on a market of liquidity 10000 at
    price 0.5 is estimated at 60 basis points and price 0.497.  With the
    draw 0.75 the noise pass raises the estimate to 66 basis points but
    returns the price 2501401/5030000 (about 0.4973): not the current
    price lowered by 66 basis points (0.4967), and above the price before
    the noise although the slippage of the sell grew. *)
Theorem addNoise_sell_price_not_recomputed_in_direction :
  exists e : SlippageEstimate,
    estimate Config.defaults 100 10000 false 0.5 = Some e
    /\ estimatedSlippageBps e == 60
    /\ estimatedExecutionPrice e == 0.497
    /\ estimatedSlippageBps (addNoiseWith 0.75 e) == 66
    /\ estimatedExecutionPrice (addNoiseWith 0.75 e) == 2501401 # 5030000
    /\ ~ estimatedExecutionPrice (addNoiseWith 0.75 e)
         == Qmax 0.01 (Qmin 0.99 (0.5 * (1 - 66 / 10000)))
    /\ estimatedExecutionPrice e < estimatedExecutionPrice (addNoiseWith 0.75 e).
Proof.
  eexists. split; [reflexivity |].
  repeat split; try (vm_compute; reflexivity).
  intros Heq. vm_compute in Heq. discriminate.
Qed.
End SlippageNoise.

(* ===================================================================== *)
(** * PaperTradingExecutor: a failed first leg *)
(* ===================================================================== *)

Section FirstLegFailure.
Import JsNum Types PaperTradingExecutor.
Local Open Scope Q_scope.

(** Whatever the opportunity and the later draws, a draw below 0.05 for
    the first leg makes the simulation report [leg1Failed]. *)
Lemma simulateCLOBExecution_leg1 cfg opp size tape i :
  tape i < LEG_FAILURE_PROBABILITY ->
  leg1Failed (simulateCLOBExecution cfg opp size tape i).1 = true.
Proof.
  intros Hdraw. apply Qltb_true in Hdraw.
  unfold simulateCLOBExecution, Rand.bind, Rand.random, Rand.ret.
  rewrite Hdraw. cbn [negb andb].
  destruct (SlippageModel.estimate _ _ _ _ _); reflexivity.
Qed.

(** On the path of a failed first leg the bankroll is restored in full:
    the fee of a thousandth of the position is written into the trade's
    realized profit and nowhere else. *)
Lemma execute_leg1_failure cfg t0 t1 ex opp tape :
  0 < calculatePositionSize cfg ex opp ->
  tape 1%nat < LEG_FAILURE_PROBABILITY ->
  exists ex' trade,
    Rand.eval (execute cfg t0 t1 ex opp) tape = Traded ex' trade
    /\ bankroll ex' == bankroll ex
    /\ balanceAfter trade == bankroll ex
    /\ realizedProfit trade == - (positionSize trade * 0.001)
    /\ positionSize trade = calculatePositionSize cfg ex opp
    /\ success trade = false
    /\ leg1Status trade = failed
    /\ trades ex' = trades ex ++ [trade].
Proof.
  intros Hsize Hdraw.
  pose proof (simulateCLOBExecution_leg1 cfg opp
                (calculatePositionSize cfg ex opp) tape 1%nat Hdraw) as Hleg.
  unfold Rand.eval, execute.
  apply Qle_bool_false in Hsize. rewrite Hsize.
  unfold Rand.bind at 1. unfold Rand.random at 1. unfold Rand.bind at 1.
  destruct (simulateCLOBExecution cfg opp _ tape 1%nat) as [sim j] eqn:Hsim.
  cbn [fst] in Hleg. rewrite Hleg. unfold Rand.ret. cbn [fst].
  unfold settle. do 2 eexists. split; [reflexivity |].
  cbn [bankroll balanceAfter realizedProfit positionSize success leg1Status trades].
  repeat split; try ring.
  unfold legStatusOf. now rewrite Hleg.
Qed.

(** C2, on the code.  In the scenario of the specification (confidence
    0.9, profit 5%, bankroll 1000) the position is 250; when the first
    leg fails the trade is unsuccessful and records a realized profit of
    -0.25, but the bankroll after the trade is 1000 again, not 999.75:
    the fee is not taken from the capital that is returned. *)
Theorem execute_leg1_failure_returns_full_capital :
  exists (ex' : t) (trade : PaperTrade),
    Rand.eval (execute Config.defaults 0 600 (new 1000) Samples.crossOpp)
              (Rand.tapeOf [0.5; 0.01; 0.5])
    = Traded ex' trade
    /\ kellyFraction trade == 0.25
    /\ positionSize trade == 250
    /\ leg1Status trade = failed
    /\ success trade = false
    /\ realizedProfit trade == - 0.25
    /\ bankroll ex' == 1000
    /\ balanceAfter trade == 1000
    /\ ~ bankroll ex' < bankroll (new 1000).
Proof.
  do 2 eexists. split; [vm_compute; reflexivity |].
  repeat split; try (vm_compute; reflexivity).
  intros Hlt. vm_compute in Hlt. discriminate.
Qed.
End FirstLegFailure.

(* ===================================================================== *)
(** * ArbitrageEngine: merge, sort and deduplicate *)
(* ===================================================================== *)

Section EngineDedupe.
Import JsNum Types ArbitrageEngine.
Local Open Scope Q_scope.

Lemma insertByProfit_perm o l : Permutation (insertByProfit o l) (o :: l).
Proof.
  induction l as [| x l IH]; cbn [insertByProfit]; [reflexivity |].
  destruct (Qltb _ _); [| reflexivity].
  rewrite IH. apply perm_swap.
Qed.

Lemma sortByProfitDesc_perm l : Permutation (sortByProfitDesc l) l.
Proof.
  induction l as [| x l IH]; cbn; [reflexivity |].
  rewrite insertByProfit_perm. now constructor.
Qed.

Lemma insertByProfit_sorted o l :
  StronglySorted profitGe l -> StronglySorted profitGe (insertByProfit o l).
Proof.
  induction 1 as [| x l Hsorted IH Hx]; cbn [insertByProfit].
  - repeat constructor.
  - destruct (Qltb (profitPercent o) (profitPercent x)) eqn:Hcmp.
    + apply Qltb_true in Hcmp. constructor; [exact IH |].
      rewrite (List.Forall_forall (profitGe x)). intros y Hy.
      apply (Permutation_in _ (insertByProfit_perm o l)) in Hy.
      destruct Hy as [<- | Hy]; [unfold profitGe; lra |].
      now apply (proj1 (List.Forall_forall _ _) Hx).
    + apply Qltb_false in Hcmp.
      constructor; [now constructor |].
      constructor; [exact Hcmp |].
      rewrite (List.Forall_forall (profitGe o)). intros y Hy.
      pose proof (proj1 (List.Forall_forall _ _) Hx y Hy) as Hxy.
      unfold profitGe in *. lra.
Qed.

Lemma sortByProfitDesc_sorted l : StronglySorted profitGe (sortByProfitDesc l).
Proof.
  induction l as [| x l IH]; cbn; [constructor |].
  now apply insertByProfit_sorted.
Qed.

Lemma dedupe_loop l : forall seen acc,
  (fold_left dedupeStep l (seen, acc)).2 = acc ++ firstPerKey seen l.
Proof.
  induction l as [| o l IH]; intros seen acc; cbn [fold_left firstPerKey].
  - now rewrite app_nil_r.
  - unfold dedupeStep at 2. cbn [fst snd].
    destruct (decide (getOpportunityKey o ∈ seen)).
    + apply IH.
    + rewrite IH, <- app_assoc. reflexivity.
Qed.

Lemma filterAndDedupe_firstPerKey opps :
  filterAndDedupe opps = firstPerKey ∅ (sortByProfitDesc opps).
Proof. unfold filterAndDedupe. now rewrite dedupe_loop. Qed.

Lemma firstPerKey_In l : forall seen o,
  In o (firstPerKey seen l) -> In o l /\ getOpportunityKey o ∉ seen.
Proof.
  induction l as [| x l IH]; intros seen o; cbn [firstPerKey]; [tauto |].
  destruct (decide (getOpportunityKey x ∈ seen)) as [Hseen | Hfresh].
  - intros Ho. apply IH in Ho. cbn. tauto.
  - intros [<- | Ho]; [cbn; tauto |].
    apply IH in Ho. destruct Ho as [Hin Hnot]. split; [now right |].
    intros Hs. apply Hnot, elem_of_union. now right.
Qed.

Lemma firstPerKey_NoDup l : forall seen,
  NoDup (map getOpportunityKey (firstPerKey seen l)).
Proof.
  induction l as [| x l IH]; intros seen; cbn [firstPerKey map].
  - constructor.
  - destruct (decide (getOpportunityKey x ∈ seen)); [apply IH |].
    cbn [map]. constructor; [| apply IH].
    rewrite list_elem_of_In, in_map_iff. intros (o & Hkey & Ho).
    apply firstPerKey_In in Ho. destruct Ho as [_ Hnot].
    rewrite Hkey in Hnot. apply Hnot, elem_of_union. left.
    now apply elem_of_singleton.
Qed.

Lemma firstPerKey_sorted l :
  StronglySorted profitGe l ->
  forall seen, StronglySorted profitGe (firstPerKey seen l).
Proof.
  induction 1 as [| x l Hsorted IH Hx]; intros seen; cbn [firstPerKey].
  - constructor.
  - destruct (decide (getOpportunityKey x ∈ seen)); [apply IH |].
    constructor; [apply IH |].
    rewrite (List.Forall_forall (profitGe x)). intros y Hy.
    apply firstPerKey_In in Hy.
    exact (proj1 (List.Forall_forall _ _) Hx y (proj1 Hy)).
Qed.

Lemma firstPerKey_keeps_best l :
  StronglySorted profitGe l ->
  forall seen o,
    In o l -> getOpportunityKey o ∉ seen ->
    exists best,
      In best (firstPerKey seen l)
      /\ getOpportunityKey best = getOpportunityKey o
      /\ profitPercent o <= profitPercent best.
Proof.
  induction 1 as [| x l Hsorted IH Hx]; intros seen o Hin Hfresh;
    [destruct Hin |].
  cbn [firstPerKey].
  destruct (decide (getOpportunityKey x ∈ seen)) as [Hseen | Hnew].
  - destruct Hin as [-> | Hin]; [contradiction |]. now apply IH.
  - destruct (decide (getOpportunityKey o = getOpportunityKey x)) as [Hsame | Hdiff].
    + exists x. split; [now left |]. split; [now symmetry |].
      destruct Hin as [-> | Hin]; [lra |].
      exact (proj1 (List.Forall_forall _ _) Hx o Hin).
    + destruct Hin as [-> | Hin]; [contradiction |].
      destruct (IH ({[ getOpportunityKey x ]} ∪ seen) o Hin) as (best & Hb & Hk & Hp).
      * rewrite elem_of_union, elem_of_singleton. tauto.
      * exists best. split; [now right | tauto].
Qed.
End EngineDedupe.

(* ===================================================================== *)
(** * ArbitrageEngine: the tracked map *)
(* ===================================================================== *)

Section EngineTracking.
Import JsNum Types ArbitrageEngine.
Local Open Scope Q_scope.

Lemma trackStep_lookup_self now tracked o :
  trackStep now tracked o !! getOpportunityKey o
  = Some (trackedEntry now (tracked !! getOpportunityKey o) o).
Proof. unfold trackStep. apply lookup_insert_eq. Qed.

Lemma trackStep_lookup_other now tracked o k :
  k <> getOpportunityKey o -> trackStep now tracked o !! k = tracked !! k.
Proof. intros Hk. unfold trackStep. apply lookup_insert_ne. congruence. Qed.

Lemma updateTracking_lookup_other now l : forall tracked k,
  ~ In k (map getOpportunityKey l) ->
  updateTracking now l tracked !! k = tracked !! k.
Proof.
  unfold updateTracking.
  induction l as [| x l IH]; intros tracked k Hk; cbn [fold_left]; [reflexivity |].
  cbn [map] in Hk. rewrite IH by (intros Hin; apply Hk; now right).
  apply trackStep_lookup_other. intros ->. apply Hk. now left.
Qed.

(** With one opportunity per key, each key read after the loop holds
    the entry built from what the map held before the loop. *)
Lemma updateTracking_lookup now l : forall tracked o,
  NoDup (map getOpportunityKey l) ->
  In o l ->
  updateTracking now l tracked !! getOpportunityKey o
  = Some (trackedEntry now (tracked !! getOpportunityKey o) o).
Proof.
  induction l as [| x l IH]; intros tracked o Hnodup Hin; [destruct Hin |].
  cbn [map] in Hnodup. apply NoDup_cons in Hnodup. destruct Hnodup as [Hx Hnodup].
  rewrite list_elem_of_In in Hx.
  change (updateTracking now (x :: l) tracked)
    with (updateTracking now l (trackStep now tracked x)).
  destruct Hin as [-> | Hin].
  - rewrite updateTracking_lookup_other by exact Hx.
    apply trackStep_lookup_self.
  - rewrite (IH _ o Hnodup Hin). f_equal. f_equal.
    apply trackStep_lookup_other. intros Hkey. apply Hx.
    rewrite <- Hkey. now apply in_map.
Qed.

Lemma updateTracking_dom now l : forall tracked,
  dom (updateTracking now l tracked)
  = dom tracked ∪ list_to_set (map getOpportunityKey l).
Proof.
  unfold updateTracking.
  induction l as [| x l IH]; intros tracked; cbn [fold_left map list_to_set].
  - now rewrite union_empty_r_L.
  - rewrite IH. unfold trackStep. rewrite dom_insert_L.
    rewrite (union_comm_L {[ getOpportunityKey x ]} (dom tracked)).
    now rewrite union_assoc_L.
Qed.

(** C4. The merged results are deduplicated by the canonical key
    ("mo_" and the primary market id for multi-outcome opportunities,
    NegRisk included; the type and both market ids for the pairwise
    types): the kept list has one opportunity per key, is sorted by
    profit, highest first, and each of its opportunities is taken from
    the merged results and at least as profitable as every merged
    opportunity of its key.  Detecting the same results again in the
    next cycle refreshes the tracked entries (seen count plus one, same
    first-seen time) and adds none: the key set and the size of the
    tracked map do not change, and the map lists each key once. *)
Theorem dedupe_by_key_and_redetection_adds_no_entry
    (now1 now2 : Z) (results : list (list ArbitrageOpportunity))
    (tracked : gmap string TrackedOpportunity) :
  let merged := concat results in
  let first := detect now1 results tracked in
  let second := detect now2 results first.1 in
  let kept := opportunities first.2 in
  (forall o,
     getOpportunityKey o
     = match type o with
       | multi_outcome => "mo_" +:+ market1Id o
       | cross_market =>
           "cross_market_" +:+ market1Id o +:+ "_" +:+ default "" (market2Id o)
       | related_market =>
           "related_market_" +:+ market1Id o +:+ "_" +:+ default "" (market2Id o)
       end)
  /\ NoDup (map getOpportunityKey kept)
  /\ StronglySorted profitGe kept
  /\ (forall o, In o kept -> In o merged)
  /\ (forall o, In o merged ->
        exists best, In best kept
                     /\ getOpportunityKey best = getOpportunityKey o
                     /\ profitPercent o <= profitPercent best)
  /\ opportunities second.2 = kept
  /\ dom second.1 = dom first.1
  /\ base.size second.1 = base.size first.1
  /\ (forall o, In o kept ->
        exists e1 e2,
          first.1 !! getOpportunityKey o = Some e1
          /\ second.1 !! getOpportunityKey o = Some e2
          /\ seenCount e2 = (seenCount e1 + 1)%Z
          /\ firstSeenAt e2 = firstSeenAt e1
          /\ lastSeenAt e2 = now2
          /\ opportunity e2 = o)
  /\ NoDup (map fst (map_to_list second.1)).
Proof.
  intros merged first second kept.
  assert (Hkept : kept = firstPerKey ∅ (sortByProfitDesc merged))
    by apply filterAndDedupe_firstPerKey.
  assert (Hnodup : NoDup (map getOpportunityKey kept))
    by (rewrite Hkept; apply firstPerKey_NoDup).
  assert (Hdom : dom second.1 = dom first.1).
  { subst second first. cbn [detect fst]. fold merged. fold kept.
    rewrite !updateTracking_dom, <- union_assoc_L. now rewrite union_idemp_L. }
  split; [intros o; destruct o as [? [] ? ? ? ? ? ? ? ? [m2 |] ? ? ?]; reflexivity |].
  split; [exact Hnodup |].
  split; [rewrite Hkept; apply firstPerKey_sorted, sortByProfitDesc_sorted |].
  split.
  { intros o Ho. rewrite Hkept in Ho. apply firstPerKey_In in Ho.
    apply (Permutation_in _ (sortByProfitDesc_perm merged)). tauto. }
  split.
  { intros o Ho. rewrite Hkept.
    apply firstPerKey_keeps_best.
    - apply sortByProfitDesc_sorted.
    - apply (Permutation_in _ (Permutation_sym (sortByProfitDesc_perm merged))), Ho.
    - apply not_elem_of_empty. }
  split; [reflexivity |].
  split; [exact Hdom |].
  split; [now rewrite <- !size_dom, Hdom |].
  split; [| apply NoDup_fst_map_to_list].
  intros o Ho.
  assert (H1 : first.1 !! getOpportunityKey o
               = Some (trackedEntry now1 (tracked !! getOpportunityKey o) o))
    by now apply updateTracking_lookup.
  assert (H2 : second.1 !! getOpportunityKey o
               = Some (trackedEntry now2 (first.1 !! getOpportunityKey o) o))
    by now apply updateTracking_lookup.
  rewrite H1 in H2. do 2 eexists. split; [exact H1 |]. split; [exact H2 |].
  repeat split.
Qed.
End EngineTracking.

(* ===================================================================== *)
(** * ArbitrageEngine: which opportunities are reported as new *)
(* ===================================================================== *)

Section EngineNewOpportunities.
Import JsNum Types ArbitrageEngine.
Local Open Scope Q_scope.

Lemma getNewOpportunities_loop tracked l : forall acc,
  fold_left (fun newOpps opp => if isNew tracked opp then newOpps ++ [opp]
                                else newOpps) l acc
  = acc ++ List.filter (isNew tracked) l.
Proof.
  induction l as [| o l IH]; intros acc; cbn [fold_left List.filter].
  - now rewrite app_nil_r.
  - rewrite IH. destruct (isNew tracked o); [| reflexivity].
    now rewrite <- app_assoc.
Qed.

Lemma getNewOpportunities_filter tracked result :
  getNewOpportunities tracked result
  = List.filter (isNew tracked) (opportunities result).
Proof. unfold getNewOpportunities. now rewrite getNewOpportunities_loop. Qed.

Lemma trackedEntry_seenCount now existing o :
  (forall e, existing = Some e -> (1 <= seenCount e)%Z) ->
  (1 <= seenCount (trackedEntry now existing o))%Z
  /\ (seenCount (trackedEntry now existing o) = 1%Z <-> existing = None).
Proof.
  intros Hinv. destruct existing as [e |]; cbn.
  - specialize (Hinv e eq_refl). split; [lia |]. split; [lia | discriminate].
  - split; [lia | tauto].
Qed.

Lemma trackStep_seenAtLeastOnce now tracked o :
  seenAtLeastOnce tracked -> seenAtLeastOnce (trackStep now tracked o).
Proof.
  intros Hinv k e. unfold trackStep. rewrite lookup_insert_Some.
  intros [[_ <-] | [_ Hk]]; [| now apply (Hinv k)].
  apply trackedEntry_seenCount. intros e' He'. now apply (Hinv _ _ He').
Qed.

Lemma updateTracking_seenAtLeastOnce now l : forall tracked,
  seenAtLeastOnce tracked -> seenAtLeastOnce (updateTracking now l tracked).
Proof.
  unfold updateTracking.
  induction l as [| o l IH]; intros tracked Hinv; cbn [fold_left]; [exact Hinv |].
  apply IH. now apply trackStep_seenAtLeastOnce.
Qed.

(** What the code reports when [getNewOpportunities] runs on the result
    of [detect], as the runner calls it: [detect] has already refreshed
    the tracked map, so an opportunity is new exactly when its key was
    not tracked before the cycle.  The branch for a changed profit
    compares the opportunity with itself. *)
Lemma getNewOpportunities_after_detect now results tracked :
  seenAtLeastOnce tracked ->
  let cycle := detect now results tracked in
  getNewOpportunities cycle.1 cycle.2
  = List.filter (fun o => match tracked !! getOpportunityKey o with
                          | None => true
                          | Some _ => false
                          end)
                (opportunities cycle.2).
Proof.
  intros Hinv cycle. rewrite getNewOpportunities_filter.
  apply filter_ext_in. intros o Ho.
  assert (Hnodup : NoDup (map getOpportunityKey (opportunities cycle.2))).
  { subst cycle. cbn [detect snd opportunities].
    rewrite filterAndDedupe_firstPerKey. apply firstPerKey_NoDup. }
  unfold isNew. subst cycle. cbn [detect fst snd opportunities] in *.
  rewrite (updateTracking_lookup now _ tracked o Hnodup Ho).
  destruct (tracked !! getOpportunityKey o) as [e |] eqn:Hprev; [| reflexivity].
  cbn [trackedEntry seenCount opportunity].
  pose proof (Hinv _ _ Hprev) as Hseen.
  destruct (Z.eqb_spec (seenCount e + 1) 1) as [Heq | _]; [lia |].
  apply Qltb_false.
  assert (Hzero : profitPercent o - profitPercent o == 0) by ring.
  rewrite Hzero. apply Qle_bool_iff. reflexivity.
Qed.

(** C3, on the code.  The same opportunity is detected in three cycles
    ten seconds apart, the third time with its profit moved from 5 to 7.
    The first cycle reports it; the second, its second sighting after
    having been seen exactly once, reports nothing; the third, with the
    profit moved by 2 points, reports nothing either. *)
Theorem redetected_opportunity_never_reported_again :
  let opp := Samples.crossOpp in
  let moved := Samples.withProfit opp 7 in
  let key := getOpportunityKey opp in
  let c1 := cycle 1000 [[opp]] ∅ in
  let c2 := cycle 11000 [[opp]] c1.1 in
  let c3 := cycle 21000 [[moved]] c2.1 in
  c1.2 = [opp]
  /\ seenCount <$> (c1.1 !! key) = Some 1%Z
  /\ c2.2 = []
  /\ seenCount <$> (c2.1 !! key) = Some 2%Z
  /\ getOpportunityKey moved = key
  /\ 0.5 < Qabs (profitPercent moved - profitPercent opp)
  /\ c3.2 = []
  /\ seenCount <$> (c3.1 !! key) = Some 3%Z.
Proof.
  cbv zeta. repeat split; vm_compute; reflexivity.
Qed.
End EngineNewOpportunities.

(* ===================================================================== *)
(** * QuestionSimilarityMatcher: the rejection rules *)
(* ===================================================================== *)

Section MatcherRejection.
Import JsNum QuestionSimilarityMatcher.
Local Open Scope Q_scope.

Lemma String_eqb_false (a b : string) : a <> b -> String.eqb a b = false.
Proof. intros Hne. now apply String.eqb_neq. Qed.

(** C7, as amended.  In [compareMarkets]: when both markets have a
    subject, the two subjects are not the same string, and the Jaccard
    overlap of their words of more than two characters is below 0.5, no
    match is returned, whatever the entities, the words and the caches
    hold; when the Jaccard overlap of the name entities is below 0.3, no
    match is returned; and when the two subjects are the same the subject
    rule does not apply, the result being that of the entity comparison
    alone. *)
Theorem compareMarkets_rejection_rules
    `{TextOps} (m : t) (market1 market2 : MarketData) :
  (forall s1 s2,
     subjectOf m market1 = Some s1 ->
     subjectOf m market2 = Some s2 ->
     s1 <> "" -> s2 <> "" -> s1 <> s2 ->
     subjectOverlap s1 s2 < 0.5 ->
     compareMarkets m market1 market2 = None)
  /\ (nameOverlapOf (entitiesOf m market1) (entitiesOf m market2) < 0.3 ->
      compareMarkets m market1 market2 = None)
  /\ (subjectOf m market1 = subjectOf m market2 ->
      compareMarkets m market1 market2
      = compareEntities (entitiesOf m market1) (entitiesOf m market2)
                        market1 market2).
Proof.
  repeat split.
  - intros s1 s2 Hs1 Hs2 Hne1 Hne2 Hdiff Hoverlap.
    unfold compareMarkets, subjectRuleRejects. rewrite Hs1, Hs2.
    rewrite !String_eqb_false by assumption.
    apply Qltb_true in Hoverlap. now rewrite Hoverlap.
  - intros Hnames. unfold compareMarkets.
    destruct (subjectRuleRejects _ _); [reflexivity |].
    unfold compareEntities. apply Qltb_true in Hnames. now rewrite Hnames.
  - intros Hsame. unfold compareMarkets, subjectRuleRejects. rewrite Hsame.
    destruct (subjectOf m market2) as [s |]; [| reflexivity].
    rewrite String.eqb_refl, andb_false_r. reflexivity.
Qed.

Lemma compareMarkets_rejection_rules_witness :
  let compare := compareMarkets (H := Samples.textOps) Samples.freshMatcher in
  compare Samples.lakersMarket Samples.celticsMarket = None
  /\ compare Samples.lakersMarket Samples.bitcoinMarket = None
  /\ matchType <$> compare Samples.lakersMarket Samples.lakersToWinMarket
     = Some exact
  /\ (fun found => Qred (similarityScore found))
       <$> compare Samples.lakersMarket Samples.lakersToWinMarket
     = Some (97 # 140).
Proof.
  intros compare. subst compare.
  split; [| split; [| rewrite (proj2 (proj2 (compareMarkets_rejection_rules
                                 (H := Samples.textOps) Samples.freshMatcher
                                 Samples.lakersMarket Samples.lakersToWinMarket)))
                        by reflexivity]].
  - apply (proj1 (compareMarkets_rejection_rules (H := Samples.textOps)
                    Samples.freshMatcher Samples.lakersMarket
                    Samples.celticsMarket) "lakers" "celtics");
      try reflexivity; discriminate.
  - apply (proj1 (proj2 (compareMarkets_rejection_rules (H := Samples.textOps)
                           Samples.freshMatcher Samples.lakersMarket
                           Samples.bitcoinMarket))).
    reflexivity.
  - split; vm_compute; reflexivity.
Defined.

(** C7, as stated, fails: the subjects "la galaxy" and "dc galaxy" share
    one word of three, an overlap of 1/3, yet the pair is matched.  The
    code compares only the words of more than two characters, here
    "galaxy" on both sides. *)
Lemma compareMarkets_matches_subjects_differing_in_short_words :
  let compare := compareMarkets (H := Samples.textOps) Samples.freshMatcher in
  subjectOf (H := Samples.textOps) Samples.freshMatcher Samples.laGalaxyMarket
  = Some "la galaxy"
  /\ subjectOf (H := Samples.textOps) Samples.freshMatcher Samples.dcGalaxyMarket
     = Some "dc galaxy"
  /\ SubjectRuleSpec.wordOverlap "la galaxy" "dc galaxy" == 1 # 3
  /\ SubjectRuleSpec.wordOverlap "la galaxy" "dc galaxy" < 0.5
  /\ subjectOverlap "la galaxy" "dc galaxy" == 1
  /\ compare Samples.laGalaxyMarket Samples.dcGalaxyMarket <> None
  /\ matchType <$> compare Samples.laGalaxyMarket Samples.dcGalaxyMarket
     = Some exact
  /\ (fun found => Qred (similarityScore found))
       <$> compare Samples.laGalaxyMarket Samples.dcGalaxyMarket
     = Some (263 # 360).
Proof.
  cbv zeta. repeat split; try (vm_compute; reflexivity).
  vm_compute. discriminate.
Qed.
End MatcherRejection.

(* ===================================================================== *)
(** * RiskManager: the daily reset, the cooldown and the reported limits *)
(* ===================================================================== *)

Section RiskManagerDay.
Import JsNum Types RiskManager.
Local Open Scope Q_scope.

Lemma getNextMidnight_bounds (now : Z) :
  (now < getNextMidnight now)%Z
  /\ (getNextMidnight now - now <= msPerDay)%Z
  /\ (getNextMidnight now mod msPerDay = 0)%Z.
Proof.
  unfold getNextMidnight.
  assert (Hday : (0 < msPerDay)%Z) by reflexivity.
  pose proof (Z.div_mod now msPerDay ltac:(lia)) as Hdiv.
  pose proof (Z.mod_pos_bound now msPerDay Hday) as Hmod.
  repeat split; [lia | lia |].
  apply Z.mod_mul. lia.
Qed.

Lemma checkDailyReset_lastTradeTime now rm :
  lastTradeTime (checkDailyReset now rm) = lastTradeTime rm.
Proof. unfold checkDailyReset. now destruct (_ <=? _)%Z. Qed.

Lemma checkDailyReset_not_due now rm :
  (now < dailyReset rm)%Z -> checkDailyReset now rm = rm.
Proof.
  intros Hnot. unfold checkDailyReset.
  destruct (Z.leb_spec (dailyReset rm) now); [lia | reflexivity].
Qed.

(** X1. The daily reset runs at most once per UTC day: whatever the
    state, after [checkDailyReset] the boundary lies strictly after the
    clock reading, and a further check at any instant before that
    boundary changes nothing.  When the boundary had been reached, the
    daily P&L and volume are zero and the new boundary is the next
    multiple of a day, at most one day ahead; when it had not, the state
    is unchanged.  Positions, limits, exposure and last trade time are
    never touched. *)
Theorem daily_reset_once_per_day (now : Z) (rm : t) :
  let rm' := checkDailyReset now rm in
  (now < dailyReset rm')%Z
  /\ (forall later, (later < dailyReset rm')%Z -> checkDailyReset later rm' = rm')
  /\ ((dailyReset rm <= now)%Z ->
      dailyPnL rm' = 0 /\ dailyVolume rm' = 0
      /\ (dailyReset rm' - now <= msPerDay)%Z
      /\ (dailyReset rm' mod msPerDay = 0)%Z)
  /\ ((now < dailyReset rm)%Z -> rm' = rm)
  /\ positions rm' = positions rm
  /\ limits rm' = limits rm
  /\ totalExposure rm' = totalExposure rm
  /\ lastTradeTime rm' = lastTradeTime rm.
Proof.
  intros rm'. subst rm'.
  destruct (getNextMidnight_bounds now) as (Hlt & Hday & Hmod).
  split.
  { unfold checkDailyReset. destruct (Z.leb_spec (dailyReset rm) now); cbn; lia. }
  split; [intros later; apply checkDailyReset_not_due |].
  split.
  { intros Hdue. unfold checkDailyReset.
    destruct (Z.leb_spec (dailyReset rm) now); [| lia]. cbn. auto. }
  split; [apply checkDailyReset_not_due |].
  split; [apply checkDailyReset_positions |].
  split; [apply checkDailyReset_limits |].
  split; [apply checkDailyReset_totalExposure | apply checkDailyReset_lastTradeTime].
Qed.

(** X2. A completed execution starts the cooldown: any admission check
    made less than [cooldownMs] after [updateAfterExecution] is rejected,
    whatever the opportunity, the order size and the other limits. *)
Theorem trade_starts_cooldown
    (t0 : Z) (rm : t) (mid : string) (side : OrderSide) (sz price pnl : Q)
    (later : Z) (opp : ArbitrageOpportunity) (order : Q) :
  inject_Z (later - t0) < cooldownMs (limits rm) ->
  approved (checkPreExecution later
              (updateAfterExecution t0 rm mid side sz price pnl) opp order).2
  = false.
Proof.
  intros Hcool.
  set (rm1 := updateAfterExecution t0 rm mid side sz price pnl).
  apply (failed_check_rejects later rm1 opp order
           (checkCooldown later (checkDailyReset later rm1))).
  - cbn -[checkDailyReset checkPositionLimit checkTotalExposure checkDailyLoss
          checkLiquidity checkCooldown checkMinProfitability]. tauto.
  - unfold checkCooldown. cbn [passed].
    rewrite checkDailyReset_limits, checkDailyReset_lastTradeTime.
    apply Qle_bool_false. exact Hcool.
Qed.

Lemma trade_starts_cooldown_witness :
  let rm := new (limitsOfConfig Config.defaults) 0 in
  approved (checkPreExecution 61000
              (updateAfterExecution 60000 rm "m1" BUY 100 0.5 2)
              Samples.spreadOpp 100).2 = false.
Proof.
  intros rm.
  apply (trade_starts_cooldown 60000 rm "m1" BUY 100 0.5 2 61000
           Samples.spreadOpp 100).
  reflexivity.
Defined.

(** X3. [getState] and the admission checks agree.  While
    "total_exposure" is reported, every order of positive size is
    rejected; while "daily_loss" is reported and the day has not turned,
    every order is rejected.  The two names are reported exactly when
    the daily P&L is at or below minus the loss limit, and when the
    exposure is at or above its cap. *)
Theorem reported_limits_reject_orders
    (now : Z) (rm : t) (opp : ArbitrageOpportunity) (order : Q) :
  let reached := State.limitsReached (getState rm) in
  let res := (checkPreExecution now rm opp order).2 in
  (In "total_exposure" reached <->
     maxTotalExposureUsd (limits rm) <= totalExposure rm)
  /\ (In "daily_loss" reached <->
        dailyPnL rm <= - maxDailyLossUsd (limits rm))
  /\ (In "total_exposure" reached -> 0 < order -> approved res = false)
  /\ (In "daily_loss" reached -> (now < dailyReset rm)%Z -> approved res = false).
Proof.
  intros reached res.
  assert (Hexp : In "total_exposure" reached <->
                 maxTotalExposureUsd (limits rm) <= totalExposure rm).
  { subst reached. unfold getState. cbn [State.limitsReached].
    rewrite in_app_iff, <- Qle_bool_iff.
    destruct (Qle_bool (dailyPnL rm) _), (Qle_bool (maxTotalExposureUsd _) _);
      cbn; split; intros Hin; try reflexivity; try discriminate;
      intuition discriminate. }
  assert (Hloss : In "daily_loss" reached <->
                  dailyPnL rm <= - maxDailyLossUsd (limits rm)).
  { subst reached. unfold getState. cbn [State.limitsReached].
    rewrite in_app_iff, <- Qle_bool_iff.
    destruct (Qle_bool (dailyPnL rm) _), (Qle_bool (maxTotalExposureUsd _) _);
      cbn; split; intros Hin; try reflexivity; try discriminate;
      intuition discriminate. }
  split; [exact Hexp |]. split; [exact Hloss |]. split.
  - intros Hin Hpos. apply Hexp in Hin. subst res.
    apply (failed_check_rejects now rm opp order
             (checkTotalExposure (checkDailyReset now rm) order)).
    + cbn -[checkDailyReset checkPositionLimit checkTotalExposure checkDailyLoss
            checkLiquidity checkCooldown checkMinProfitability]. tauto.
    + unfold checkTotalExposure. cbn [passed].
      rewrite checkDailyReset_limits, checkDailyReset_totalExposure.
      apply Qle_bool_false. lra.
  - intros Hin Hday. apply Hloss in Hin. subst res.
    apply (failed_check_rejects now rm opp order
             (checkDailyLoss (checkDailyReset now rm))).
    + cbn -[checkDailyReset checkPositionLimit checkTotalExposure checkDailyLoss
            checkLiquidity checkCooldown checkMinProfitability]. tauto.
    + rewrite (checkDailyReset_not_due now rm Hday).
      unfold checkDailyLoss. cbn [passed].
      apply Qltb_false. exact Hin.
Qed.
End RiskManagerDay.

(* ===================================================================== *)
(** * RiskManager: the reason of a rejection, round trips and exposure *)
(* ===================================================================== *)

Section RiskManagerLedger.
Import JsNum Types RiskManager.
Local Open Scope Q_scope.

(** The first element of a list that fails a test, with what stands
    before it. *)
Lemma find_first {A} (f : A -> bool) (l : list A) (x : A) :
  List.find f l = Some x ->
  exists pre post, l = pre ++ x :: post
                   /\ f x = true
                   /\ (forall y, In y pre -> f y = false).
Proof.
  induction l as [| a l IH]; cbn [List.find]; [discriminate |].
  destruct (f a) eqn:Hfa.
  - intros [= <-]. exists [], l. repeat split; [exact Hfa | intros y []].
  - intros Hfind. destruct (IH Hfind) as (pre & post & -> & Hx & Hpre).
    exists (a :: pre), post. repeat split; [exact Hx |].
    intros y [<- | Hy]; [exact Hfa | now apply Hpre].
Qed.

(** Each of the six checks gives a reason exactly when it fails. *)
Lemma check_reason_iff_failed now rm opp sz c :
  In c (checks (checkPreExecution now rm opp sz).2) ->
  (reason c = None <-> passed c = true).
Proof.
  unfold checkPreExecution. cbn [snd checks].
  intros [<- | [<- | [<- | [<- | [<- | [<- | []]]]]]];
    unfold checkPositionLimit, checkTotalExposure, checkDailyLoss,
           checkLiquidity, checkCooldown, checkMinProfitability;
    cbn [reason passed];
    match goal with
    | |- (if ?b then None else _) = None <-> _ => destruct b
    end; split; (reflexivity || discriminate).
Qed.

(** X4. The result of [checkPreExecution] carries a reason exactly when
    it rejects; the reason is that of the first failed check in the order
    position, exposure, daily loss, liquidity, cooldown, profitability,
    every check before it having passed.  The call changes neither the
    limits nor the positions, the exposure or the last trade time. *)
Theorem rejection_reports_first_failed_check
    (now : Z) (rm : t) (opp : ArbitrageOpportunity) (sz : Q) :
  let out := checkPreExecution now rm opp sz in
  (approved out.2 = true <-> failure out.2 = None)
  /\ (approved out.2 = false ->
      exists pre c post r,
        checks out.2 = pre ++ c :: post
        /\ (forall d, In d pre -> passed d = true)
        /\ passed c = false
        /\ reason c = Some r
        /\ failure out.2 = Some r)
  /\ limits out.1 = limits rm
  /\ positions out.1 = positions rm
  /\ totalExposure out.1 = totalExposure rm
  /\ lastTradeTime out.1 = lastTradeTime rm.
Proof.
  intros out.
  assert (Hreason : forall c, In c (checks out.2) ->
                              (reason c = None <-> passed c = true))
    by (intros c; apply check_reason_iff_failed).
  assert (Hfirst : approved out.2 = false ->
      exists pre c post r,
        checks out.2 = pre ++ c :: post
        /\ (forall d, In d pre -> passed d = true)
        /\ passed c = false
        /\ reason c = Some r
        /\ failure out.2 = Some r).
  { subst out. unfold checkPreExecution in *. cbn [snd approved failure checks] in *.
    match goal with
    | |- context [List.find ?f ?l] => destruct (List.find f l) as [c |] eqn:Hfind
    end; [| discriminate].
    intros _. destruct (find_first _ _ _ Hfind) as (pre & post & Hsplit & Hc & Hpre).
    apply negb_true_iff in Hc.
    assert (Hin : In c (pre ++ c :: post)) by (apply in_elt).
    rewrite <- Hsplit in Hin.
    destruct (reason c) as [r |] eqn:Hr.
    - exists pre, c, post, r. repeat split; try assumption.
      intros d Hd. specialize (Hpre d Hd). now apply negb_false_iff in Hpre.
    - apply (Hreason c Hin) in Hr. congruence. }
  split.
  { destruct (approved out.2) eqn:Happ.
    - split; [intros _ | reflexivity].
      subst out. unfold checkPreExecution in *. cbn [snd approved failure] in *.
      match goal with
      | H : context [List.find ?f ?l] |- _ => destruct (List.find f l); [discriminate | reflexivity]
      end.
    - split; [discriminate |]. intros Hnone.
      destruct (Hfirst eq_refl) as (_ & _ & _ & r & _ & _ & _ & _ & Hfail).
      congruence. }
  split; [exact Hfirst |].
  subst out. cbn [checkPreExecution fst].
  split; [apply checkDailyReset_limits |].
  split; [apply checkDailyReset_positions |].
  split; [apply checkDailyReset_totalExposure | apply checkDailyReset_lastTradeTime].
Qed.

(** X5. A BUY of positive size that opens a position, followed by a SELL
    of the same size on the same market, leaves the positions map as it
    was before the two calls, and the exposure is again the sum over that
    map. *)
Theorem buy_then_sell_restores_positions
    (t1 t2 : Z) (rm : t) (mid : string) (sz p1 p2 pnl1 pnl2 : Q) :
  positions rm !! mid = None ->
  0 < sz ->
  let bought := updateAfterExecution t1 rm mid BUY sz p1 pnl1 in
  let sold := updateAfterExecution t2 bought mid SELL sz p2 pnl2 in
  (exists p, positions bought !! mid = Some p /\ size p = sz
             /\ avgEntryPrice p = p1)
  /\ positions sold = positions rm
  /\ totalExposure sold = sumAbsSizes (positions rm)
  /\ dailyVolume sold == dailyVolume rm + 2 * sz
  /\ dailyPnL sold == dailyPnL rm + pnl1 + pnl2.
Proof.
  intros Hnone Hsz bought sold.
  assert (Hbought : positions bought
                    = <[mid := {| marketId := mid; outcome := 1; size := sz;
                                  avgEntryPrice := p1; currentPrice := p1;
                                  unrealizedPnl := 0; openedAt := t1 |}]>
                        (positions rm)).
  { subst bought. cbn [updateAfterExecution positions]. unfold updatePositions.
    now rewrite Hnone. }
  assert (Hsold : positions sold = positions rm).
  { subst sold. cbn [updateAfterExecution positions]. unfold updatePositions.
    rewrite Hbought, lookup_insert_eq. cbn [size].
    assert (Hzero : Qle_bool (sz - sz) 0 = true) by (apply Qle_bool_iff; lra).
    rewrite Hzero. now rewrite delete_insert_id. }
  split.
  { eexists. rewrite Hbought, lookup_insert_eq. split; [reflexivity |]. now cbn. }
  split; [exact Hsold |].
  split.
  { change (totalExposure sold) with (sumAbsSizes (positions sold)).
    now rewrite Hsold. }
  split; subst sold bought; cbn [updateAfterExecution dailyVolume dailyPnL]; ring.
Qed.

Lemma buy_then_sell_restores_positions_witness :
  let rm := new (limitsOfConfig Config.defaults) 0 in
  let bought := updateAfterExecution 1000 rm "m1" BUY 50 0.4 0 in
  let sold := updateAfterExecution 9000 bought "m1" SELL 50 0.45 2.5 in
  positions sold = ∅ /\ totalExposure sold = 0.
Proof.
  intros rm bought sold.
  destruct (buy_then_sell_restores_positions 1000 9000 rm "m1" 50 0.4 0.45 0 2.5)
    as (_ & Hpos & Hexp & _).
  - apply lookup_empty.
  - reflexivity.
  - split; [exact Hpos |]. fold bought sold in Hexp. rewrite Hexp.
    apply sumAbsSizes_empty.
Defined.

(** X6. In every state the manager can reach from its constructor, by
    any sequence of calls, the total exposure is the sum of the absolute
    sizes of the stored positions, and it is not negative. *)
Theorem exposure_is_sum_of_position_sizes
    (lim : RiskLimits) (t0 : Z) (calls : list Call) :
  let rm := run (new lim t0) calls in
  totalExposure rm = sumAbsSizes (positions rm)
  /\ 0 <= totalExposure rm.
Proof.
  intros rm.
  assert (Hsum : totalExposure rm = sumAbsSizes (positions rm)).
  { subst rm. unfold run.
    assert (Hinit : totalExposure (new lim t0) = sumAbsSizes (positions (new lim t0)))
      by (cbn; now rewrite sumAbsSizes_empty).
    revert Hinit. generalize (new lim t0).
    induction calls as [| c cs IH]; intros rm0 Hrm0; cbn [fold_left]; [exact Hrm0 |].
    apply IH. destruct c; cbn -[checkDailyReset sumAbsSizes]; try exact Hrm0.
    - now rewrite checkDailyReset_totalExposure, checkDailyReset_positions.
    - reflexivity. }
  split; [exact Hsum |]. rewrite Hsum. apply sumAbsSizes_nonneg.
Qed.
End RiskManagerLedger.

(* ===================================================================== *)
(** * SlippageModel: bounds and monotonicity of the estimate *)
(* ===================================================================== *)

Section SlippageBounds.
Import JsNum Types SlippageModel.
Local Open Scope Q_scope.

Lemma clamp_price_bounds (x : Q) : 0.01 <= Qmax 0.01 (Qmin 0.99 x) <= 0.99.
Proof.
  split; [apply Q.le_max_l |].
  apply Q.max_lub; [lra | apply Q.le_min_l].
Qed.

Lemma clamp_price_mono (x y : Q) :
  x <= y -> Qmax 0.01 (Qmin 0.99 x) <= Qmax 0.01 (Qmin 0.99 y).
Proof.
  intros Hxy. apply Q.max_le_compat_l. now apply Q.min_le_compat_l.
Qed.

Lemma clamp_price_id (x : Q) :
  0.01 <= x <= 0.99 -> Qmax 0.01 (Qmin 0.99 x) == x.
Proof. intros Hx. rewrite Q.min_r by lra. apply Q.max_r. lra. Qed.

Lemma calculatePriceImpact_bounds (price : Q) (isBuy : bool) :
  0 <= calculatePriceImpact price isBuy
  /\ (0 <= price <= 1 -> calculatePriceImpact price isBuy <= 10).
Proof.
  unfold calculatePriceImpact.
  destruct isBuy;
    match goal with
    | |- context [Qltb ?a ?b] => destruct (Qltb a b) eqn:Hcmp
    end;
    try apply Qltb_true in Hcmp;
    (split; [| intros [Hlow Hhigh]]);
    first [lra | apply Qle_bool_iff; reflexivity].
Qed.

Lemma ratio_nonneg (sz liq : Q) : 0 <= sz -> 0 < liq -> 0 <= sz / liq.
Proof.
  intros Hsz Hliq. apply Qle_shift_div_l; [exact Hliq | lra].
Qed.

Lemma ratio_mono (s1 s2 liq : Q) : s1 <= s2 -> 0 < liq -> s1 / liq <= s2 / liq.
Proof.
  intros Hs Hliq. unfold Qdiv. apply Qmult_le_compat_r; [exact Hs |].
  apply Qinv_le_0_compat. lra.
Qed.

Lemma estimate_some cfg sz liq isBuy cur :
  ~ liq == 0 ->
  estimate cfg sz liq isBuy cur
  = Some {| estimatedSlippageBps :=
              Config.baseSlippageBps cfg
              + sz / liq * Config.liquidityImpactFactor cfg * 10000
              + calculatePriceImpact cur isBuy;
            estimatedExecutionPrice :=
              Qmax 0.01 (Qmin 0.99
                (if isBuy
                 then cur * (1 + (Config.baseSlippageBps cfg
                                  + sz / liq * Config.liquidityImpactFactor cfg * 10000
                                  + calculatePriceImpact cur isBuy) / 10000)
                 else cur * (1 - (Config.baseSlippageBps cfg
                                  + sz / liq * Config.liquidityImpactFactor cfg * 10000
                                  + calculatePriceImpact cur isBuy) / 10000)));
            confidence := Qmax 0.3 (1 - sz / liq * 2);
            liquidityDepth := liq |}.
Proof.
  intros Hliq. unfold estimate.
  destruct (Qeq_bool liq 0) eqn:Hz; [| reflexivity].
  apply Qeq_bool_iff in Hz. contradiction.
Qed.



(** X8. Slippage never improves the price: when the estimate is not
    negative and the current price lies between 0.01 and 0.99, a buy is
    estimated at the current price or above and a sell at the current
    price or below. *)
Theorem slippage_never_improves_price
    (cfg : Config.ArbitrageConfig) (sz liq : Q) (isBuy : bool) (cur : Q)
    (e : SlippageEstimate) :
  estimate cfg sz liq isBuy cur = Some e ->
  0 <= estimatedSlippageBps e ->
  0.01 <= cur <= 0.99 ->
  if isBuy then cur <= estimatedExecutionPrice e
  else estimatedExecutionPrice e <= cur.
Proof.
  unfold estimate. destruct (Qeq_bool liq 0); [discriminate |].
  intros [= <-]. cbn [estimatedSlippageBps estimatedExecutionPrice].
  set (bps := Config.baseSlippageBps cfg + _ + _).
  intros Hbps Hcur.
  assert (Hshift : 0 <= cur * (bps / 10000)).
  { apply Qmult_le_0_compat; [lra |]. apply Qle_shift_div_l; lra. }
  destruct isBuy.
  - rewrite <- (clamp_price_id cur Hcur) at 1. apply clamp_price_mono.
    assert (Heq : cur * (1 + bps / 10000) == cur + cur * (bps / 10000)) by ring.
    rewrite Heq. lra.
  - rewrite <- (clamp_price_id cur Hcur) at 2. apply clamp_price_mono.
    assert (Heq : cur * (1 - bps / 10000) == cur - cur * (bps / 10000)) by ring.
    rewrite Heq. lra.
Qed.

Lemma slippage_never_improves_price_witness :
  exists e,
    estimate Config.defaults 100 10000 false 0.5 = Some e
    /\ estimatedExecutionPrice e <= 0.5.
Proof.
  eexists. split; [reflexivity |].
  apply (slippage_never_improves_price Config.defaults 100 10000 false 0.5 _ eq_refl).
  - vm_compute. discriminate.
  - split; vm_compute; discriminate.
Defined.

(** X9. On a market of positive liquidity and with a non-negative impact
    factor, a larger order never has a smaller slippage estimate nor a
    larger confidence; with a non-negative current price it never has a
    lower buy price nor a higher sell price. *)
Theorem larger_order_more_slippage
    (cfg : Config.ArbitrageConfig) (s1 s2 liq : Q) (isBuy : bool) (cur : Q)
    (e1 e2 : SlippageEstimate) :
  0 < liq ->
  0 <= Config.liquidityImpactFactor cfg ->
  s1 <= s2 ->
  estimate cfg s1 liq isBuy cur = Some e1 ->
  estimate cfg s2 liq isBuy cur = Some e2 ->
  estimatedSlippageBps e1 <= estimatedSlippageBps e2
  /\ confidence e2 <= confidence e1
  /\ (0 <= cur ->
      if isBuy then estimatedExecutionPrice e1 <= estimatedExecutionPrice e2
      else estimatedExecutionPrice e2 <= estimatedExecutionPrice e1).
Proof.
  intros Hliq Hfactor Hs.
  assert (Hnz : ~ liq == 0) by lra.
  rewrite !estimate_some by exact Hnz. intros [= <-] [= <-].
  cbn [estimatedSlippageBps estimatedExecutionPrice confidence].
  pose proof (ratio_mono s1 s2 liq Hs Hliq) as Hratio.
  assert (Himpact : s1 / liq * Config.liquidityImpactFactor cfg
                    <= s2 / liq * Config.liquidityImpactFactor cfg)
    by (apply Qmult_le_compat_r; assumption).
  revert Hratio Himpact.
  generalize (calculatePriceImpact cur isBuy).
  generalize (s1 / liq * Config.liquidityImpactFactor cfg)
             (s2 / liq * Config.liquidityImpactFactor cfg).
  generalize (s1 / liq) (s2 / liq).
  intros r1 r2 i1 i2 extra Hratio Himpact.
  split; [lra |].
  split; [apply Q.max_le_compat_l; lra |].
  intros Hcur.
  set (b1 := Config.baseSlippageBps cfg + i1 * 10000 + extra).
  set (b2 := Config.baseSlippageBps cfg + i2 * 10000 + extra).
  assert (Hb : b1 / 10000 <= b2 / 10000).
  { subst b1 b2. apply Qmult_le_compat_r; [lra |]. apply Qinv_le_0_compat. lra. }
  assert (Hshift : cur * (b1 / 10000) <= cur * (b2 / 10000)).
  { rewrite !(Qmult_comm cur). now apply Qmult_le_compat_r. }
  destruct isBuy; apply clamp_price_mono.
  - assert (H1 : cur * (1 + b1 / 10000) == cur + cur * (b1 / 10000)) by ring.
    assert (H2 : cur * (1 + b2 / 10000) == cur + cur * (b2 / 10000)) by ring.
    rewrite H1, H2. lra.
  - assert (H1 : cur * (1 - b1 / 10000) == cur - cur * (b1 / 10000)) by ring.
    assert (H2 : cur * (1 - b2 / 10000) == cur - cur * (b2 / 10000)) by ring.
    rewrite H1, H2. lra.
Qed.

Lemma larger_order_more_slippage_witness :
  exists e1 e2,
    estimate Config.defaults 100 10000 true 0.5 = Some e1
    /\ estimate Config.defaults 400 10000 true 0.5 = Some e2
    /\ estimatedSlippageBps e1 <= estimatedSlippageBps e2
    /\ confidence e2 <= confidence e1.
Proof.
  do 2 eexists. split; [reflexivity |]. split; [reflexivity |].
  destruct (larger_order_more_slippage Config.defaults 100 400 10000 true 0.5
              _ _ ltac:(reflexivity) ltac:(vm_compute; discriminate)
              ltac:(vm_compute; discriminate) eq_refl eq_refl)
    as (Hbps & Hconf & _).
  split; [exact Hbps | exact Hconf].
Defined.



Lemma addNoiseWith_buy_price_consistent_witness :
  exists e,
    estimate Config.defaults 100 10000 true 0.5 = Some e
    /\ estimatedExecutionPrice (addNoiseWith 0.75 e) == 0.5033.
Proof.
  eexists. split; [reflexivity |].
  etransitivity.
  - apply (addNoiseWith_buy_price_consistent Config.defaults 100 10000 0.5 0.75 _ eq_refl).
    + vm_compute. discriminate.
    + split; vm_compute; discriminate.
  - vm_compute. reflexivity.
Defined.
End SlippageBounds.

(* ===================================================================== *)
(** * PaperTradingExecutor: the account over a run, and its statistics *)
(* ===================================================================== *)

Section PaperTradeStatistics.
Import JsNum Types PaperTradingExecutor.
Local Open Scope Q_scope.






(** X15. [getRecentTrades(count)] returns the last [count] trades of the
    history, all of them when there are fewer; with [count] zero it
    returns the whole history, not an empty list, and with a negative
    [count] it drops the first [-count] trades. *)
Theorem getRecentTrades_counts (count : Z) (ex : t) :
  ((0 < count)%Z ->
     getRecentTrades count ex
     = drop (length (trades ex) - Z.to_nat count) (trades ex)
     /\ length (getRecentTrades count ex)
        = Nat.min (Z.to_nat count) (length (trades ex)))
  /\ getRecentTrades 0 ex = trades ex
  /\ ((count < 0)%Z ->
      getRecentTrades count ex = drop (Z.to_nat (- count)) (trades ex)).
Proof.
  unfold getRecentTrades, sliceFrom.
  split; [| split].
  - intros Hcount.
    destruct (Z.ltb_spec (- count) 0) as [_ | Hge]; [| lia].
    replace (Z.to_nat (Z.max (Z.of_nat (length (trades ex)) + - count) 0))
      with (length (trades ex) - Z.to_nat count)%nat by lia.
    split; [reflexivity |]. rewrite length_drop. lia.
  - change (- 0 <? 0)%Z with false. cbv iota.
    rewrite Z.min_l by lia. reflexivity.
  - intros Hcount.
    destruct (Z.ltb_spec (- count) 0) as [Hlt | _]; [lia |].
    destruct (Z.min_spec (- count) (Z.of_nat (length (trades ex))))
      as [[_ ->] | [Hlen ->]]; [reflexivity |].
    rewrite Nat2Z.id. rewrite drop_all. symmetry. apply drop_ge. lia.
Qed.

Lemma getRecentTrades_counts_witness :
  List.map id (trades Samples.threeTrades) = [1; 2; 3]%Z
  /\ List.map id (getRecentTrades 2 Samples.threeTrades) = [2; 3]%Z
  /\ List.map id (getRecentTrades 10 Samples.threeTrades) = [1; 2; 3]%Z
  /\ length (getRecentTrades 10 Samples.threeTrades) = 3%nat
  /\ List.map id (getRecentTrades 0 Samples.threeTrades) = [1; 2; 3]%Z
  /\ List.map id (getRecentTrades (-1) Samples.threeTrades) = [2; 3]%Z.
Proof.
  destruct (getRecentTrades_counts 2 Samples.threeTrades) as (Htwo & _ & _).
  destruct (getRecentTrades_counts 10 Samples.threeTrades) as (Hten & _ & _).
  destruct (getRecentTrades_counts 0 Samples.threeTrades) as (_ & Hzero & _).
  destruct (getRecentTrades_counts (-1) Samples.threeTrades) as (_ & _ & Hneg).
  destruct (Htwo ltac:(lia)) as [Htwo' _].
  destruct (Hten ltac:(lia)) as [Hten' Hlength].
  specialize (Hneg ltac:(lia)).
  rewrite Hlength, Htwo', Hten', Hzero, Hneg.
  vm_compute. repeat split.
Defined.



Lemma natQ_le (n m : nat) : (n <= m)%nat -> natQ n <= natQ m.
Proof. intros Hle. unfold natQ. rewrite <- Zle_Qle. lia. Qed.

Lemma natQ_pos (n : nat) : (0 < n)%nat -> 0 < natQ n.
Proof.
  intros Hpos. unfold natQ. change 0 with (inject_Z 0).
  rewrite <- Zlt_Qlt. lia.
Qed.


Lemma fold_countByType (l : list PaperTrade) (m : gmap string ByType.t)
    (type : string) :
  let old := default {| ByType.trades := 0; ByType.profit := 0;
                        ByType.winRate := 0 |} (m !! type) in
  let ofType := List.filter (fun t => String.eqb (opportunityType t) type) l in
  fold_left countByType l m !! type
  = match ofType with
    | [] => m !! type
    | _ => Some {| ByType.trades := ByType.trades old + length ofType;
                   ByType.profit :=
                     fold_left (fun sum t => sum + realizedProfit t) ofType
                               (ByType.profit old);
                   ByType.winRate := ByType.winRate old |}
    end.
Proof.
  revert m. induction l as [| x l IH]; intros m; [reflexivity |].
  cbn [fold_left List.filter]. cbv zeta in IH |- *. rewrite IH.
  destruct (String.eqb_spec (opportunityType x) type) as [Heq | Hne].
  - unfold countByType. rewrite Heq, !lookup_insert_eq.
    cbn [default from_option Datatypes.id
         ByType.trades ByType.profit ByType.winRate].
    destruct (List.filter _ l) as [| y rest]; cbn [length fold_left].
    + reflexivity.
    + f_equal. f_equal. lia.
  - unfold countByType. rewrite lookup_insert_ne by exact Hne. reflexivity.
Qed.

(** X17. The table by type of [getStats] has an entry for a type exactly
    when the history holds a trade of that type; the entry counts those
    trades, sums their realized profits, and gives the share of
    successful ones among them as a percentage. *)
Theorem getStats_byType_entry (ex : t) (type : string) :
  let ofType :=
    List.filter (fun t => String.eqb (opportunityType t) type) (trades ex) in
  Stats.byType (getStats ex) !! type
  = match ofType with
    | [] => None
    | _ => Some {| ByType.trades := length ofType;
                   ByType.profit := sumOver realizedProfit ofType;
                   ByType.winRate :=
                     natQ (length (List.filter success ofType))
                     / natQ (length ofType) * 100 |}
    end.
Proof.
  cbv zeta. unfold getStats. cbn [Stats.byType].
  rewrite map_lookup_imap, fold_countByType. cbv zeta.
  rewrite lookup_empty. unfold winRateOfType.
  destruct (List.filter _ (trades ex)) as [| y rest]; [reflexivity |].
  reflexivity.
Qed.
End PaperTradeStatistics.

(* ===================================================================== *)
(** * Numbers with their non-finite values: comparisons and sums *)
(* ===================================================================== *)

Section NumberTower.
Import JsNum JsNumber.
Local Open Scope Q_scope.

Lemma ltb_irrefl (x : number) : ltb x x = false.
Proof. destruct x; cbn; [apply Qltb_false; lra | reflexivity ..]. Qed.

Lemma ltb_asym (x y : number) : ltb x y = true -> ltb y x = false.
Proof.
  destruct x as [a | | |], y as [b | | |]; cbn;
    try discriminate; try reflexivity.
  intros H. apply Qltb_true in H. apply Qltb_false. lra.
Qed.

(** No number lies below one that is above a lower bound of it. *)
Lemma ltb_chain (x y z : number) :
  ltb x y = true -> ltb x z = false -> ltb y z = false.
Proof.
  destruct x as [a | | |], y as [b | | |], z as [c | | |]; cbn;
    try discriminate; try reflexivity.
  intros H1 H2. apply Qltb_true in H1. apply Qltb_false in H2.
  apply Qltb_false. lra.
Qed.

(** A sum or a difference is finite only when both sides are. *)
Lemma add_finite (x y : number) :
  isFinite (add x y) = true -> isFinite x = true /\ isFinite y = true.
Proof. destruct x, y; cbn; intros H; try discriminate; auto. Qed.

Lemma sub_finite (x y : number) :
  isFinite (sub x y) = true -> isFinite x = true /\ isFinite y = true.
Proof. destruct x, y; cbn; intros H; try discriminate; auto. Qed.

Lemma isFinite_num (x : number) : isFinite x = true -> exists a, x = num a.
Proof. destruct x as [a | | |]; try discriminate. intros _. now exists a. Qed.

(** A number raised to at least 5 is not at most 0: it is at least 5,
    or [Infinity], or [NaN]. *)
Lemma max_5_not_le_0 (x : number) : leb (max x (num 5)) (num 0) = false.
Proof.
  destruct x as [a | | |]; cbn; try reflexivity.
  apply Qle_bool_false. pose proof (Q.le_max_r a 5). lra.
Qed.

(** The clamp to [0.01, 0.25] gives a number in that range, or [NaN]
    for [NaN]. *)
Lemma clamp_fraction_cases (f : number) :
  (exists k, min (num 0.25) (max (num 0.01) f) = num k /\ 0.01 <= k <= 0.25)
  \/ (f = nan /\ min (num 0.25) (max (num 0.01) f) = nan).
Proof.
  destruct f as [a | | |]; cbn.
  - left. eexists. split; [reflexivity |].
    split; [apply Q.min_glb; [lra | apply Q.le_max_l] | apply Q.le_min_l].
  - left. exists 0.25. split; [reflexivity | lra].
  - left. eexists. split; [reflexivity |].
    split; [apply Q.min_glb; lra | apply Q.le_min_l].
  - right. split; reflexivity.
Qed.

(** The clamp of the confidence to [0.5, 0.95]. *)
Lemma clamp_probability_cases (c : number) :
  (exists w, min (num 0.95) (max (num 0.5) c) = num w /\ 0.5 <= w <= 0.95)
  \/ (c = nan /\ min (num 0.95) (max (num 0.5) c) = nan).
Proof.
  destruct c as [a | | |]; cbn.
  - left. eexists. split; [reflexivity |].
    split; [apply Q.min_glb; [lra | apply Q.le_max_l] | apply Q.le_min_l].
  - left. exists 0.95. split; [reflexivity | lra].
  - left. eexists. split; [reflexivity |].
    split; [apply Q.min_glb; lra | apply Q.le_min_l].
  - right. split; reflexivity.
Qed.
End NumberTower.

(* ===================================================================== *)
(** * PaperTradingExecutor on all numbers: position sizing *)
(* ===================================================================== *)

Section PositionSizingOnNumbers.
Import JsNum Types JsNumber JsPaperTradingExecutor.
Local Open Scope Q_scope.

(** On finite numbers the fraction is the one computed on the
    rationals. *)
Lemma calculateKellyFraction_on_finite (c p : Q) :
  calculateKellyFraction (num c) (num p)
  = num (PaperTradingExecutor.calculateKellyFraction c p).
Proof.
  unfold calculateKellyFraction, PaperTradingExecutor.calculateKellyFraction.
  cbv zeta.
  set (w := Qmin 0.95 (Qmax 0.5 c)).
  assert (Hw : 0.5 <= w <= 0.95).
  { subst w. split; [apply Q.min_glb; [lra | apply Q.le_max_l] | apply Q.le_min_l]. }
  change (min (num 0.95) (max (num 0.5) (num c))) with (num w).
  change (div (div (num p) (num 100)) (num 0.02)) with (num (p / 100 / 0.02)).
  set (odds := p / 100 / 0.02).
  cbn [mul sub add neg].
  unfold div at 1.
  destruct (Qeq_bool odds 0) eqn:Hodds.
  - apply Qeq_bool_iff in Hodds.
    assert (Hneg : odds * w + - (1 + - w) < 0) by (rewrite Hodds; lra).
    unfold scaled. rewrite (proj1 (Qlt_alt _ _) Hneg). reflexivity.
  - reflexivity.
Qed.

(** The fraction lies in [0.01, 0.25] unless it is [NaN]. *)
Lemma calculateKellyFraction_range (c p : number) :
  (exists k, calculateKellyFraction c p = num k /\ 0.01 <= k <= 0.25)
  \/ calculateKellyFraction c p = nan.
Proof.
  unfold calculateKellyFraction. cbv zeta.
  match goal with
  | |- context [max (num 0.01) ?f] =>
      destruct (clamp_fraction_cases f) as [Hnum | [_ Hnan]]
  end; [left; exact Hnum | right; exact Hnan].
Qed.

(** It is [NaN] exactly for a confidence that is [NaN] or a profit that
    is not finite. *)
Lemma calculateKellyFraction_nan_iff (c p : number) :
  calculateKellyFraction c p = nan <-> c = nan \/ isFinite p = false.
Proof.
  unfold calculateKellyFraction. cbv zeta.
  destruct (clamp_probability_cases c) as [(w & Heq & Hw) | [-> ->]].
  - rewrite Heq. destruct p as [b | | |].
    + change (div (div (num b) (num 100)) (num 0.02))
        with (num (b / 100 / 0.02)).
      set (odds := b / 100 / 0.02).
      cbn [mul sub add neg isFinite]. unfold div at 1.
      split; [| intros [Hc | Hp]; [| discriminate]].
      * destruct (Qeq_bool odds 0) eqn:Hodds; [| discriminate].
        apply Qeq_bool_iff in Hodds.
        assert (Hneg : odds * w + - (1 + - w) < 0) by (rewrite Hodds; lra).
        unfold scaled. rewrite (proj1 (Qlt_alt _ _) Hneg). discriminate.
      * subst c. discriminate Heq.
    + split; [intros _; now right |]. intros _.
      change (div (div infinity (num 100)) (num 0.02)) with infinity.
      cbn [mul]. unfold scaled. destruct (w ?= 0); reflexivity.
    + split; [intros _; now right |]. intros _.
      change (div (div neg_infinity (num 100)) (num 0.02)) with neg_infinity.
      cbn [mul]. unfold scaled. destruct (w ?= 0); reflexivity.
    + split; [intros _; now right | reflexivity].
  - split; [intros _; now left |]. intros _.
    destruct p as [b | | |]; reflexivity.
Qed.

Lemma calculatePositionSize_below_10 cfg ex opp :
  ltb (bankroll ex) (num 10) = true ->
  calculatePositionSize cfg ex opp = num 0.
Proof. intros Hlow. unfold calculatePositionSize. now rewrite Hlow. Qed.

Lemma calculatePositionSize_not_le_0 cfg ex opp :
  ltb (bankroll ex) (num 10) = false ->
  leb (calculatePositionSize cfg ex opp) (num 0) = false.
Proof.
  intros Hlow. unfold calculatePositionSize. rewrite Hlow.
  apply max_5_not_le_0.
Qed.

Lemma calculatePositionSize_nan cfg ex opp :
  ltb (bankroll ex) (num 10) = false ->
  calculateKellyFraction (confidenceScore opp) (profitPercent opp) = nan ->
  calculatePositionSize cfg ex opp = nan.
Proof.
  intros Hlow Hkelly. unfold calculatePositionSize. rewrite Hlow, Hkelly.
  destruct (bankroll ex); reflexivity.
Qed.

(** With a finite bankroll and a fraction that is a number the size is
    the one computed on the rationals. *)
Lemma calculatePositionSize_finite cfg ex opp (b k : Q) :
  bankroll ex = num b ->
  calculateKellyFraction (confidenceScore opp) (profitPercent opp) = num k ->
  calculatePositionSize cfg ex opp
  = num (if Qltb b 10 then 0
         else Qmax (Qmin (Qmin (b * k) (Config.risk_maxPositionSizeUsd cfg))
                         (b * 0.25)) 5).
Proof.
  intros Hb Hkelly. unfold calculatePositionSize. rewrite Hb, Hkelly.
  cbn [mul min max ltb]. destruct (Qltb b 10); reflexivity.
Qed.

Lemma sized_as_specified (m b k : Q) :
  (if Qltb b 10 then 0 else Qmax (Qmin (Qmin (b * k) m) (b * 0.25)) 5)
  == KellySpec.positionSize m b k.
Proof.
  unfold KellySpec.positionSize.
  destruct (Qltb b 10) eqn:Hb.
  - apply Qltb_true in Hb. destruct (Qlt_le_dec b 10); lra.
  - apply Qltb_false in Hb. destruct (Qlt_le_dec b 10); [lra |].
    unfold KellySpec.flooredAt, KellySpec.cappedBy.
    generalize (b * k) (b * 0.25); intros x y.
    destruct (Q.min_spec x m) as [[H1 E1] | [H1 E1]];
      destruct (Q.min_spec (Qmin x m) y) as [[H2 E2] | [H2 E2]];
      destruct (Q.max_spec (Qmin (Qmin x m) y) 5) as [[H3 E3] | [H3 E3]];
      destruct (Qlt_le_dec m x);
      match goal with
      | |- context [Qlt_le_dec y ?v] => destruct (Qlt_le_dec y v)
      end;
      match goal with
      | |- context [Qlt_le_dec ?v 5] => destruct (Qlt_le_dec v 5)
      end;
      lra.
Qed.

(** [execute], by the simulated execution. *)
Lemma execute_cases cfg t0 t1 ex opp tape :
  (leb (calculatePositionSize cfg ex opp) (num 0) = true
   /\ Rand.eval (execute cfg t0 t1 ex opp) tape = NoTrade)
  \/ (leb (calculatePositionSize cfg ex opp) (num 0) = false
      /\ exists sim bankroll' realized ok why,
           Rand.eval (execute cfg t0 t1 ex opp) tape
           = settle ex opp t0 t1
               (calculateKellyFraction (confidenceScore opp) (profitPercent opp))
               (calculatePositionSize cfg ex opp) sim bankroll' realized ok why
           /\ ((leg1Failed sim = true
                /\ bankroll'
                   = add (sub (bankroll ex) (calculatePositionSize cfg ex opp))
                         (calculatePositionSize cfg ex opp)
                /\ ok = false)
               \/ (leg1Failed sim = false
                   /\ bankroll'
                      = add (sub (bankroll ex) (calculatePositionSize cfg ex opp))
                            (add (calculatePositionSize cfg ex opp) realized)
                   /\ (ok = false \/ ok = gtb realized (num 0))))).
Proof.
  unfold Rand.eval, execute. cbv zeta.
  destruct (leb (calculatePositionSize cfg ex opp) (num 0)) eqn:Hsize;
    [left; split; reflexivity | right; split; [reflexivity |]].
  unfold Rand.bind at 1. unfold Rand.random at 1. unfold Rand.bind at 1.
  destruct (simulateCLOBExecution cfg opp _ tape 1%nat) as [sim j].
  unfold Rand.ret.
  exists sim.
  destruct (leg1Failed sim) eqn:Hleg1; [| destruct (leg2Failed sim) eqn:Hleg2];
    cbn [fst]; do 4 eexists; (split; [reflexivity |]).
  - left. repeat split.
  - right. split; [reflexivity |]. split; [reflexivity |]. now left.
  - right. split; [reflexivity |]. split; [reflexivity |]. now right.
Qed.

(** The fields of the trade and of the executor that [settle] writes. *)
Lemma settle_fields ex opp t0 t1 k size sim b' realized ok why :
  exists ex' trade,
    settle ex opp t0 t1 k size sim b' realized ok why = Traded ex' trade
    /\ trades ex' = trades ex ++ [trade]
    /\ id trade = (tradeIdCounter ex + 1)%Z
    /\ tradeIdCounter ex' = id trade
    /\ startingBankroll ex' = startingBankroll ex
    /\ bankroll ex' = b'
    /\ balanceAfter trade = b'
    /\ positionSize trade = size
    /\ kellyFraction trade = k
    /\ realizedProfit trade = realized
    /\ success trade = ok
    /\ leg1Status trade
       = PaperTradingExecutor.legStatusOf (leg1Failed sim) (fillRate sim)
    /\ gtb (bankroll ex') (peakBalance ex') = false
    /\ ltb (peakBalance ex') (peakBalance ex) = false
    /\ ltb (maxDrawdown ex') (maxDrawdown ex) = false
    /\ (ltb (maxDrawdown ex) (num 0) = false ->
        ltb (maxDrawdown ex') (num 0) = false).
Proof.
  unfold settle. do 2 eexists. split; [reflexivity |].
  cbn [trades id tradeIdCounter startingBankroll bankroll balanceAfter
       positionSize kellyFraction realizedProfit success leg1Status
       peakBalance maxDrawdown].
  do 11 (split; [reflexivity |]).
  unfold gtb.
  split; [| split; [| split]].
  - destruct (ltb (peakBalance ex) b') eqn:Hpeak;
      [apply ltb_irrefl | exact Hpeak].
  - destruct (ltb (peakBalance ex) b') eqn:Hpeak;
      [now apply ltb_asym | apply ltb_irrefl].
  - match goal with
    | |- ltb (if ltb ?a ?b then _ else _) _ = false =>
        destruct (ltb a b) eqn:Hdd
    end; [now apply ltb_asym | apply ltb_irrefl].
  - intros Hpos.
    match goal with
    | |- ltb (if ltb ?a ?b then _ else _) _ = false =>
        destruct (ltb a b) eqn:Hdd
    end; [eapply ltb_chain; eassumption | exact Hpos].
Qed.

(** A size of [NaN] makes the bankroll [NaN] on every path. *)
Lemma execute_nan_size cfg t0 t1 ex opp tape :
  ltb (bankroll ex) (num 10) = false ->
  calculateKellyFraction (confidenceScore opp) (profitPercent opp) = nan ->
  exists ex' trade,
    Rand.eval (execute cfg t0 t1 ex opp) tape = Traded ex' trade
    /\ kellyFraction trade = nan
    /\ positionSize trade = nan
    /\ balanceAfter trade = nan
    /\ bankroll ex' = nan.
Proof.
  intros Hlow Hkelly.
  pose proof (calculatePositionSize_nan cfg ex opp Hlow Hkelly) as Hsize.
  destruct (execute_cases cfg t0 t1 ex opp tape)
    as [[Hle _] | (_ & sim & b' & realized & ok & why & Hrun & Hcases)].
  { rewrite Hsize in Hle. discriminate. }
  rewrite Hsize, Hkelly in Hrun. rewrite Hsize in Hcases.
  assert (Hnan : b' = nan).
  { destruct Hcases as [(_ & -> & _) | (_ & -> & _)];
      destruct (bankroll ex); reflexivity. }
  subst b'.
  destruct (settle_fields ex opp t0 t1 nan nan sim nan realized ok why)
    as (ex' & trade & Hsettle & _ & _ & _ & _ & Hbank & Hafter & Hsz & Hk & _).
  exists ex', trade. rewrite Hrun. now repeat split.
Qed.

(** C5, on the code.  On finite numbers position sizing is the
    fractional-Kelly rule of the specification: the fraction is the
    halved raw Kelly value clamped to [0.01, 0.25] (0.01 at a zero
    profit), and the size is that fraction of the bankroll, capped by
    the configured maximum and a quarter of the bankroll, raised to 5,
    and zero below a bankroll of 10.  The rule is lost where the
    expected profit is not finite or the confidence is [NaN]: the
    fraction is then [NaN], although the code comments "Clamp between 1%
    and 25% of bankroll", and from a bankroll of 10 on the size is [NaN]
    as well, so the size is not zero and the fraction is not in
    [0.01, 0.25].  The cross-market detector emits an opportunity with
    an infinite profit for an inverse match without a NO price; the test
    of the caller passes it, and [execute] then records a trade of size
    [NaN] and leaves a bankroll of [NaN], whatever the draws. *)
Theorem kelly_fraction_is_NaN_for_an_infinite_profit :
  (exists opportunity,
     CrossSamples.noPriceOpportunity = Some opportunity
     /\ profitPercent opportunity = infinity
     /\ passedToExecute opportunity = true
     /\ calculateKellyFraction (confidenceScore opportunity)
                               (profitPercent opportunity) = nan
     /\ calculatePositionSize Config.defaults (new (num 1000)) opportunity = nan
     /\ forall (startTime endTime : Z) (tape : nat -> Q),
          exists ex' trade,
            Rand.eval (execute Config.defaults startTime endTime
                         (new (num 1000)) opportunity) tape
            = Traded ex' trade
            /\ kellyFraction trade = nan
            /\ positionSize trade = nan
            /\ bankroll ex' = nan)
  /\ (forall confidence profit : number,
        calculateKellyFraction confidence profit = nan
        <-> confidence = nan \/ isFinite profit = false)
  /\ (forall confidence profit : number,
        (exists k, calculateKellyFraction confidence profit = num k
                   /\ 0.01 <= k <= 0.25)
        \/ calculateKellyFraction confidence profit = nan)
  /\ (forall c e : Q,
        exists k,
          calculateKellyFraction (num c) (num e) = num k
          /\ 0.01 <= k <= 0.25
          /\ (~ e == 0 -> k == KellySpec.kellyFraction c e)
          /\ (e == 0 -> k == 0.01))
  /\ (forall (cfg : Config.ArbitrageConfig) (ex : t) (opportunity : Opportunity)
             (b k : Q),
        bankroll ex = num b ->
        calculateKellyFraction (confidenceScore opportunity)
                               (profitPercent opportunity) = num k ->
        exists size,
          calculatePositionSize cfg ex opportunity = num size
          /\ size == KellySpec.positionSize (Config.risk_maxPositionSizeUsd cfg)
                                            b k
          /\ (b < 10 -> size = 0))
  /\ (forall (cfg : Config.ArbitrageConfig) (ex : t) (opportunity : Opportunity),
        ltb (bankroll ex) (num 10) = false ->
        calculateKellyFraction (confidenceScore opportunity)
                               (profitPercent opportunity) = nan ->
        calculatePositionSize cfg ex opportunity = nan
        /\ leb (calculatePositionSize cfg ex opportunity) (num 0) = false).
Proof.
  split.
  { eexists. split; [vm_compute; reflexivity |].
    split; [reflexivity |]. split; [reflexivity |].
    split; [reflexivity |]. split; [reflexivity |].
    intros startTime endTime tape.
    match goal with
    | |- context [execute _ _ _ ?ex ?opp] =>
        destruct (execute_nan_size Config.defaults startTime endTime ex opp tape)
          as (ex' & trade & Hrun & Hk & Hsize & _ & Hbank);
        [reflexivity | reflexivity |]
    end.
    exists ex', trade. now repeat split. }
  split; [exact calculateKellyFraction_nan_iff |].
  split; [exact calculateKellyFraction_range |].
  split.
  { intros c e. eexists. split; [apply calculateKellyFraction_on_finite |].
    split; [apply calculateKellyFraction_bounds |].
    split; [apply calculateKellyFraction_spec
           | apply calculateKellyFraction_zero_profit]. }
  split.
  { intros cfg ex opportunity b k Hb Hk. eexists.
    split; [exact (calculatePositionSize_finite cfg ex opportunity b k Hb Hk) |].
    split; [apply sized_as_specified |].
    intros Hlow. apply Qltb_true in Hlow. now rewrite Hlow. }
  intros cfg ex opportunity Hlow Hk.
  split; [now apply calculatePositionSize_nan
         | now apply calculatePositionSize_not_le_0].
Qed.

(** C10, on the code.  With a finite fraction the floor of 5 is applied
    after both caps and wins over them: for a bankroll of at least 10
    and below 20 the size is exactly 5, more than a quarter of the
    bankroll, and with a bankroll of at least 10 a configured maximum
    below 5 is overridden by the same floor.  This does not hold for
    every opportunity: where the fraction is [NaN], as it is for the
    opportunity with an infinite profit that the cross-market detector
    emits, [Math.max(NaN, 5)] is [NaN] and the size is [NaN], not 5,
    although the code comments "Minimum $5 trade". *)
Theorem minimum_trade_size_is_NaN_for_an_infinite_profit :
  (exists opportunity,
     CrossSamples.noPriceOpportunity = Some opportunity
     /\ passedToExecute opportunity = true
     /\ ltb (bankroll (new (num 12))) (num 20) = true
     /\ calculatePositionSize Config.defaults (new (num 12)) opportunity = nan)
  /\ (forall (cfg : Config.ArbitrageConfig) (ex : t) (opportunity : Opportunity)
             (b : Q),
        bankroll ex = num b ->
        10 <= b ->
        b < 20 \/ Config.risk_maxPositionSizeUsd cfg < 5 ->
        (calculateKellyFraction (confidenceScore opportunity)
                                (profitPercent opportunity) = nan ->
         calculatePositionSize cfg ex opportunity = nan)
        /\ (forall k,
              calculateKellyFraction (confidenceScore opportunity)
                                     (profitPercent opportunity) = num k ->
              calculatePositionSize cfg ex opportunity = num 5
              /\ (b < 20 -> b * 0.25 < 5))).
Proof.
  split.
  { eexists. split; [vm_compute; reflexivity |]. now repeat split. }
  intros cfg ex opportunity b Hb Hten Hcap.
  assert (Hlow : ltb (bankroll ex) (num 10) = false)
    by (rewrite Hb; cbn [ltb]; now apply Qltb_false).
  split; [now apply calculatePositionSize_nan |].
  intros k Hk.
  split; [| intros Hb20; lra].
  rewrite (calculatePositionSize_finite cfg ex opportunity b k Hb Hk).
  apply Qltb_false in Hten. rewrite Hten. f_equal.
  apply Qmax_floor_exact.
  destruct Hcap as [Hb20 | Hmax].
  - eapply Qle_lt_trans; [apply Q.le_min_r | lra].
  - eapply Qle_lt_trans; [apply Q.le_min_l |].
    eapply Qle_lt_trans; [apply Q.le_min_r | exact Hmax].
Qed.
End PositionSizingOnNumbers.

(* ===================================================================== *)
(** * PaperTradingExecutor on all numbers: the account *)
(* ===================================================================== *)

Section PaperTradeOnNumbers.
Import JsNum Types JsNumber JsPaperTradingExecutor.
Local Open Scope Q_scope.

(** X11. [execute] returns without a trade exactly when the bankroll is
    below 10; a bankroll that is [NaN] is not below 10.  Otherwise it
    always trades, with the size of [calculatePositionSize], which is
    then not at most zero.  With a finite bankroll of at least 10 and a
    fraction that is a number the capital committed is at least 5 and at
    most half of the bankroll; with a fraction that is [NaN] (the
    confidence is [NaN] or the expected profit is not finite) it is
    [NaN]. *)
Theorem execute_trades_unless_bankroll_below_10
    (cfg : Config.ArbitrageConfig) (t0 t1 : Z) (ex : t) (opp : Opportunity)
    (tape : nat -> Q) :
  (ltb (bankroll ex) (num 10) = true ->
     Rand.eval (execute cfg t0 t1 ex opp) tape = NoTrade)
  /\ (ltb (bankroll ex) (num 10) = false ->
      exists ex' trade,
        Rand.eval (execute cfg t0 t1 ex opp) tape = Traded ex' trade
        /\ positionSize trade = calculatePositionSize cfg ex opp
        /\ leb (positionSize trade) (num 0) = false)
  /\ (bankroll ex = nan -> ltb (bankroll ex) (num 10) = false)
  /\ (forall b, bankroll ex = num b ->
        (ltb (bankroll ex) (num 10) = true <-> b < 10)
        /\ (10 <= b ->
            forall k,
              calculateKellyFraction (confidenceScore opp) (profitPercent opp)
              = num k ->
              exists size,
                calculatePositionSize cfg ex opp = num size
                /\ 5 <= size <= b / 2))
  /\ (ltb (bankroll ex) (num 10) = false ->
      (calculateKellyFraction (confidenceScore opp) (profitPercent opp) = nan
       <-> confidenceScore opp = nan \/ isFinite (profitPercent opp) = false)
      /\ (calculateKellyFraction (confidenceScore opp) (profitPercent opp) = nan ->
          calculatePositionSize cfg ex opp = nan)).
Proof.
  split.
  { intros Hlow.
    destruct (execute_cases cfg t0 t1 ex opp tape)
      as [[_ Hrun] | (Hle & _)]; [exact Hrun |].
    rewrite (calculatePositionSize_below_10 cfg ex opp Hlow) in Hle.
    discriminate. }
  split.
  { intros Hlow.
    pose proof (calculatePositionSize_not_le_0 cfg ex opp Hlow) as Hsize.
    destruct (execute_cases cfg t0 t1 ex opp tape)
      as [[Hle _] | (_ & sim & b' & realized & ok & why & Hrun & _)];
      [congruence |].
    destruct (settle_fields ex opp t0 t1
                (calculateKellyFraction (confidenceScore opp) (profitPercent opp))
                (calculatePositionSize cfg ex opp) sim b' realized ok why)
      as (ex' & trade & Hsettle & _ & _ & _ & _ & _ & _ & Hsz & _).
    exists ex', trade. rewrite Hrun, Hsz. now repeat split. }
  split; [intros ->; reflexivity |].
  split.
  { intros b Hb. rewrite Hb. cbn [ltb].
    split; [apply Qltb_true |].
    intros Hten k Hk. eexists.
    split; [exact (calculatePositionSize_finite cfg ex opp b k Hb Hk) |].
    apply Qltb_false in Hten. rewrite Hten.
    split; [apply Q.le_max_r |].
    apply Qltb_false in Hten.
    assert (Hhalf : b / 2 == b * (1 # 2)) by (field; lra).
    apply Q.max_lub.
    - eapply Qle_trans; [apply Q.le_min_r |]. rewrite Hhalf. lra.
    - rewrite Hhalf. lra. }
  intros Hlow.
  split; [apply calculateKellyFraction_nan_iff
         | now apply calculatePositionSize_nan].
Qed.

Lemma legStatusOf_is_failed legFailed fill :
  PaperTradingExecutor.legStatusOf legFailed fill = PaperTradingExecutor.failed
  <-> legFailed = true.
Proof.
  unfold PaperTradingExecutor.legStatusOf. destruct legFailed; [tauto |].
  destruct (Qltb fill 1); split; discriminate.
Qed.

(** What [execute] has done whenever it returns a trade. *)
Lemma execute_traded_fields
    (cfg : Config.ArbitrageConfig) (t0 t1 : Z) (ex : t) (opp : Opportunity)
    (tape : nat -> Q) (ex' : t) (trade : PaperTrade) :
  Rand.eval (execute cfg t0 t1 ex opp) tape = Traded ex' trade ->
  trades ex' = trades ex ++ [trade]
  /\ id trade = (tradeIdCounter ex + 1)%Z
  /\ tradeIdCounter ex' = id trade
  /\ startingBankroll ex' = startingBankroll ex
  /\ balanceAfter trade = bankroll ex'
  /\ positionSize trade = calculatePositionSize cfg ex opp
  /\ kellyFraction trade
     = calculateKellyFraction (confidenceScore opp) (profitPercent opp)
  /\ leb (positionSize trade) (num 0) = false
  /\ gtb (bankroll ex') (peakBalance ex') = false
  /\ ltb (peakBalance ex') (peakBalance ex) = false
  /\ ltb (maxDrawdown ex') (maxDrawdown ex) = false
  /\ (ltb (maxDrawdown ex) (num 0) = false ->
      ltb (maxDrawdown ex') (num 0) = false)
  /\ (leg1Status trade = PaperTradingExecutor.failed ->
      bankroll ex'
      = add (sub (bankroll ex) (positionSize trade)) (positionSize trade)
      /\ success trade = false)
  /\ (leg1Status trade <> PaperTradingExecutor.failed ->
      bankroll ex'
      = add (sub (bankroll ex) (positionSize trade))
            (add (positionSize trade) (realizedProfit trade)))
  /\ (success trade = true -> gtb (realizedProfit trade) (num 0) = true).
Proof.
  intros Hrun.
  destruct (execute_cases cfg t0 t1 ex opp tape)
    as [[_ Hnone] | (Hle & sim & b' & realized & ok & why & Hrun' & Hcases)];
    [congruence |].
  destruct (settle_fields ex opp t0 t1
              (calculateKellyFraction (confidenceScore opp) (profitPercent opp))
              (calculatePositionSize cfg ex opp) sim b' realized ok why)
    as (ex0 & trade0 & Hsettle & Htr & Hid & Hctr & Hstart & Hbank & Hafter
        & Hsz & Hk & Hreal & Hok & Hstatus & Hpeak & Hpeak' & Hdd & Hdd0).
  rewrite Hrun', Hsettle in Hrun. injection Hrun as -> ->.
  rewrite Hsz.
  do 4 (split; [assumption |]). split; [congruence |].
  do 2 (split; [assumption || reflexivity |]).
  do 5 (split; [assumption |]).
  rewrite Hstatus, legStatusOf_is_failed, Hbank, Hreal, Hok.
  destruct Hcases as [(Hleg1 & -> & ->) | (Hleg1 & -> & Hok')]; rewrite Hleg1.
  - split; [intros _; split; reflexivity |].
    split; [intros Hnot; now contradiction Hnot | discriminate].
  - split; [discriminate |]. split; [reflexivity |].
    destruct Hok' as [-> | ->]; [discriminate | tauto].
Qed.

(** X12. Every trade [execute] makes is settled in the same way: the
    trade is appended to the history under the next identifier and
    records the balance after it, the capital committed and the
    fraction; the committed capital is not at most zero; the bankroll is
    not above the peak balance, and neither the peak nor the maximal
    drawdown has decreased.  When the first leg failed the committed
    capital is subtracted and added back; otherwise it is added back
    together with the realized profit.  On finite numbers this leaves
    the bankroll unchanged, respectively moves it by the realized
    profit; a bankroll that is finite after the trade was finite before
    it, with a finite size, so one that is [NaN] or infinite stays so.
    A trade is marked successful only with a positive realized profit. *)
Theorem execute_settles_every_trade
    (cfg : Config.ArbitrageConfig) (t0 t1 : Z) (ex : t) (opp : Opportunity)
    (tape : nat -> Q) (ex' : t) (trade : PaperTrade) :
  Rand.eval (execute cfg t0 t1 ex opp) tape = Traded ex' trade ->
  trades ex' = trades ex ++ [trade]
  /\ id trade = (tradeIdCounter ex + 1)%Z
  /\ tradeIdCounter ex' = id trade
  /\ startingBankroll ex' = startingBankroll ex
  /\ balanceAfter trade = bankroll ex'
  /\ positionSize trade = calculatePositionSize cfg ex opp
  /\ kellyFraction trade
     = calculateKellyFraction (confidenceScore opp) (profitPercent opp)
  /\ leb (positionSize trade) (num 0) = false
  /\ gtb (bankroll ex') (peakBalance ex') = false
  /\ ltb (peakBalance ex') (peakBalance ex) = false
  /\ ltb (maxDrawdown ex') (maxDrawdown ex) = false
  /\ (leg1Status trade = PaperTradingExecutor.failed ->
      bankroll ex'
      = add (sub (bankroll ex) (positionSize trade)) (positionSize trade)
      /\ success trade = false)
  /\ (leg1Status trade <> PaperTradingExecutor.failed ->
      bankroll ex'
      = add (sub (bankroll ex) (positionSize trade))
            (add (positionSize trade) (realizedProfit trade)))
  /\ (forall b size : Q,
        bankroll ex = num b ->
        positionSize trade = num size ->
        (leg1Status trade = PaperTradingExecutor.failed ->
         exists b', bankroll ex' = num b' /\ b' == b)
        /\ (forall realized,
              leg1Status trade <> PaperTradingExecutor.failed ->
              realizedProfit trade = num realized ->
              exists b', bankroll ex' = num b' /\ b' == b + realized))
  /\ (isFinite (bankroll ex') = true ->
      isFinite (bankroll ex) = true
      /\ isFinite (positionSize trade) = true
      /\ (leg1Status trade <> PaperTradingExecutor.failed ->
          isFinite (realizedProfit trade) = true))
  /\ (success trade = true -> gtb (realizedProfit trade) (num 0) = true).
Proof.
  intros Hrun.
  destruct (execute_traded_fields _ _ _ _ _ _ _ _ Hrun)
    as (Htr & Hid & Hctr & Hstart & Hafter & Hsz & Hk & Hpos & Hpeak & Hpeak'
        & Hdd & _ & Hfailed & Hfilled & Hok).
  do 13 (split; [assumption |]).
  split; [| split; [| exact Hok]].
  - intros b size Hb Hsize. split.
    + intros Hstatus. destruct (Hfailed Hstatus) as [-> _].
      rewrite Hb, Hsize. cbn [sub add neg]. eexists.
      split; [reflexivity | ring].
    + intros realized Hstatus Hreal. rewrite (Hfilled Hstatus).
      rewrite Hb, Hsize, Hreal. cbn [sub add neg]. eexists.
      split; [reflexivity | ring].
  - intros Hfinite.
    assert (Hcases : leg1Status trade = PaperTradingExecutor.failed
                     \/ leg1Status trade <> PaperTradingExecutor.failed)
      by (destruct (leg1Status trade); [right | right | left];
          first [reflexivity | discriminate]).
    destruct Hcases as [Hstatus | Hstatus].
    + destruct (Hfailed Hstatus) as [Hbank _]. rewrite Hbank in Hfinite.
      apply add_finite in Hfinite as [Hsub Hsize].
      apply sub_finite in Hsub as [Hb _].
      split; [exact Hb |]. split; [exact Hsize |]. now intros Hnot.
    + rewrite (Hfilled Hstatus) in Hfinite.
      apply add_finite in Hfinite as [Hsub Hsum].
      apply sub_finite in Hsub as [Hb _].
      apply add_finite in Hsum as [Hsize Hreal].
      now repeat split.
Qed.

Lemma sumOver_number_snoc {A} (f : A -> number) (l : list A) (x : A) :
  sumOver f (l ++ [x]) = add (sumOver f l) (f x).
Proof. unfold sumOver. now rewrite fold_left_app. Qed.

(** X14. The account over a whole run.  In every state reached from a
    new executor by [execute] and [reset], whatever numbers the
    opportunities and the starting bankroll were: the trades are
    numbered 1, 2, ... in the order of the history and the counter is
    their number; every trade committed a size that is not at most zero
    and is marked successful only with a positive realized profit; the
    last trade records the bankroll; the bankroll is not above the
    recorded peak and the recorded drawdown is not below zero.  While
    the bankroll is finite every balance and size of the history is
    finite, and the profit and loss of the account ([getPnL]) is the sum
    of the realized profits of the trades whose first leg did not fail;
    after a trade with a size that is not finite the bankroll is not
    finite, and that equation is lost. *)
Theorem account_invariants_over_every_run
    (cfg : Config.ArbitrageConfig) (ex : t) :
  reachable cfg ex ->
  tradeIdCounter ex = Z.of_nat (length (trades ex))
  /\ (forall (i : nat) (trade : PaperTrade),
        trades ex !! i = Some trade -> id trade = (Z.of_nat i + 1)%Z)
  /\ List.Forall (fun trade =>
                    leb (positionSize trade) (num 0) = false
                    /\ (success trade = true ->
                        gtb (realizedProfit trade) (num 0) = true))
                 (trades ex)
  /\ (forall trade, last (trades ex) = Some trade ->
        balanceAfter trade = bankroll ex)
  /\ gtb (bankroll ex) (peakBalance ex) = false
  /\ ltb (maxDrawdown ex) (num 0) = false
  /\ (isFinite (bankroll ex) = true ->
      List.Forall (fun trade =>
                     isFinite (balanceAfter trade) = true
                     /\ isFinite (positionSize trade) = true)
                  (trades ex)
      /\ exists start b total,
           startingBankroll ex = num start
           /\ bankroll ex = num b
           /\ getPnLAbsolute ex = num (b - start)
           /\ sumOver chargedProfit (trades ex) = num total
           /\ b - start == total).
Proof.
  induction 1 as [b | b ex Hreach IH | ex ex' t0 t1 opp tape trade Hreach IH Hrun].
  1, 2: cbn [reset new tradeIdCounter trades bankroll startingBankroll
             peakBalance maxDrawdown length];
        (split; [reflexivity |]);
        (split; [intros i trade; now rewrite lookup_nil |]);
        (split; [constructor |]);
        (split; [intros trade; discriminate |]);
        (split; [apply ltb_irrefl |]);
        (split; [reflexivity |]);
        intros Hfinite; (split; [constructor |]);
        destruct (isFinite_num _ Hfinite) as [b0 ->];
        exists b0, b0, 0; unfold getPnLAbsolute, sumOver;
        cbn [bankroll startingBankroll fold_left];
        (do 3 (split; [reflexivity |])); (split; [reflexivity | ring]).
  destruct IH as (Hctr & Hids & Hall & Hlast & Hpeak & Hdd & Hledger).
  destruct (execute_traded_fields _ _ _ _ _ _ _ _ Hrun)
    as (Htr & Hid & Hctr' & Hstart & Hafter & Hsz & _ & Hpos & Hpeak' & _ & _
        & Hdd' & Hfailed & Hfilled & Hok).
  rewrite Htr, length_app. cbn [length].
  split; [lia |].
  split.
  { intros i trade' Hlook.
    apply lookup_app_Some in Hlook as [Hlook | [Hlen Hlook]].
    - now apply Hids.
    - apply list_lookup_singleton_Some in Hlook as [Hi ->]. lia. }
  split.
  { apply Forall_app. split; [exact Hall |].
    constructor; [| constructor]. split; assumption. }
  split.
  { intros trade'. rewrite last_snoc. now intros [= <-]. }
  split; [exact Hpeak' |].
  split; [now apply Hdd' |].
  intros Hfinite.
  assert (Hcases : leg1Status trade = PaperTradingExecutor.failed
                   \/ leg1Status trade <> PaperTradingExecutor.failed)
    by (destruct (leg1Status trade); [right | right | left];
        first [reflexivity | discriminate]).
  assert (Hbefore : exists b size charged b',
                      bankroll ex = num b
                      /\ positionSize trade = num size
                      /\ chargedProfit trade = num charged
                      /\ bankroll ex' = num b'
                      /\ b' == b + charged).
  { destruct Hcases as [Hstatus | Hstatus].
    - destruct (Hfailed Hstatus) as [Hbank _]. rewrite Hbank in Hfinite.
      apply add_finite in Hfinite as [Hsub Hsize].
      apply sub_finite in Hsub as [Hb _].
      destruct (isFinite_num _ Hb) as [b0 Hb0].
      destruct (isFinite_num _ Hsize) as [s0 Hs0].
      exists b0, s0, 0. eexists.
      split; [exact Hb0 |]. split; [exact Hs0 |].
      split; [unfold chargedProfit; now rewrite Hstatus |].
      rewrite Hbank, Hb0, Hs0. cbn [add sub neg].
      split; [reflexivity | ring].
    - rewrite (Hfilled Hstatus) in Hfinite.
      apply add_finite in Hfinite as [Hsub Hsum].
      apply sub_finite in Hsub as [Hb _].
      apply add_finite in Hsum as [Hsize Hreal].
      destruct (isFinite_num _ Hb) as [b0 Hb0].
      destruct (isFinite_num _ Hsize) as [s0 Hs0].
      destruct (isFinite_num _ Hreal) as [r0 Hr0].
      exists b0, s0, r0. eexists.
      split; [exact Hb0 |]. split; [exact Hs0 |].
      split; [unfold chargedProfit; rewrite Hr0;
              destruct (leg1Status trade); congruence |].
      rewrite (Hfilled Hstatus), Hb0, Hs0, Hr0. cbn [add sub neg].
      split; [reflexivity | ring]. }
  destruct Hbefore as (b & size & charged & b' & Hb & Hsize & Hcharged & Hb'
                       & Hmoved).
  destruct (Hledger ltac:(now rewrite Hb))
    as (Hfin & start & b0 & total & Hs & Hb0 & _ & Hsum & Heq).
  rewrite Hb in Hb0. injection Hb0 as <-.
  split.
  { apply Forall_app. split; [exact Hfin |].
    constructor; [| constructor]. rewrite Hafter, Hsize. now split. }
  exists start, b', (total + charged).
  unfold getPnLAbsolute.
  rewrite Hstart, Hs, Hb', sumOver_number_snoc, Hsum, Hcharged.
  do 4 (split; [reflexivity |]). lra.
Qed.

Lemma execute_trades_unless_bankroll_below_10_witness :
  Rand.eval (execute Config.defaults 0 600 (new (num 8))
               (ofFinite Samples.crossOpp))
            (Rand.tapeOf [0.5; 0.5; 0.5; 0.5; 0.5]) = NoTrade
  /\ match CrossSamples.noPriceOpportunity with
     | Some opp =>
         exists ex' trade,
           Rand.eval (execute Config.defaults 0 600 (new (num 1000)) opp)
                     (Rand.tapeOf [0.5; 0.5; 0.5; 0.5; 0.5])
           = Traded ex' trade
           /\ positionSize trade = nan
     | None => False
     end.
Proof.
  split.
  - apply (proj1 (execute_trades_unless_bankroll_below_10 Config.defaults 0 600
                    (new (num 8)) (ofFinite Samples.crossOpp)
                    (Rand.tapeOf [0.5; 0.5; 0.5; 0.5; 0.5]))).
    reflexivity.
  - destruct CrossSamples.noPriceOpportunity as [opp |] eqn:Hopp;
      [| vm_compute in Hopp; discriminate].
    vm_compute in Hopp. injection Hopp as <-.
    match goal with
    | |- context [execute _ _ _ ?ex ?opp] =>
        destruct (execute_trades_unless_bankroll_below_10 Config.defaults 0 600
                    ex opp (Rand.tapeOf [0.5; 0.5; 0.5; 0.5; 0.5]))
          as (_ & Htrades & _ & _ & Hnan)
    end.
    destruct (Htrades eq_refl) as (ex' & trade & Hrun & Hsize & _).
    exists ex', trade. split; [exact Hrun |].
    rewrite Hsize. apply (Hnan eq_refl). reflexivity.
Defined.

Lemma execute_settles_every_trade_witness :
  match Rand.eval (execute Config.defaults 0 600 (new (num 1000))
                     (ofFinite Samples.crossOpp))
                  (Rand.tapeOf [0.5; 0.5; 0.5; 0.5; 0.5]) with
  | Traded ex' trade =>
      trades ex' = [trade]
      /\ gtb (bankroll ex') (peakBalance ex') = false
      /\ isFinite (bankroll ex') = true
  | NoTrade => False
  end
  /\ match CrossSamples.noPriceOpportunity with
     | Some opp =>
         match Rand.eval (execute Config.defaults 0 600 (new (num 1000)) opp)
                         (Rand.tapeOf [0.5; 0.5; 0.5; 0.5; 0.5]) with
         | Traded ex' trade =>
             trades ex' = [trade]
             /\ balanceAfter trade = bankroll ex'
             /\ bankroll ex' = nan
         | NoTrade => False
         end
     | None => False
     end.
Proof.
  split.
  - destruct (Rand.eval (execute Config.defaults 0 600 (new (num 1000))
                           (ofFinite Samples.crossOpp))
                        (Rand.tapeOf [0.5; 0.5; 0.5; 0.5; 0.5]))
      as [| ex' trade] eqn:Hrun; [vm_compute in Hrun; discriminate |].
    destruct (execute_settles_every_trade _ _ _ _ _ _ _ _ Hrun)
      as (Htr & _ & _ & _ & _ & _ & _ & _ & Hpeak & _).
    split; [exact Htr |]. split; [exact Hpeak |].
    vm_compute in Hrun. injection Hrun as <- _. reflexivity.
  - destruct CrossSamples.noPriceOpportunity as [opp |] eqn:Hopp;
      [| vm_compute in Hopp; discriminate].
    vm_compute in Hopp. injection Hopp as <-.
    match goal with
    | |- match ?run with _ => _ end =>
        destruct run as [| ex' trade] eqn:Hrun;
        [vm_compute in Hrun; discriminate |]
    end.
    destruct (execute_settles_every_trade _ _ _ _ _ _ _ _ Hrun)
      as (Htr & _ & _ & _ & Hafter & _).
    split; [exact Htr |]. split; [exact Hafter |].
    vm_compute in Hrun. injection Hrun as <- _. reflexivity.
Defined.

Lemma account_invariants_over_every_run_witness :
  match CrossSamples.noPriceOpportunity with
  | Some opp =>
      match Rand.eval (execute Config.defaults 0 600 (new (num 1000)) opp)
                      (Rand.tapeOf [0.5; 0.5; 0.5; 0.5; 0.5]) with
      | Traded ex' _ =>
          tradeIdCounter ex' = 1%Z
          /\ gtb (bankroll ex') (peakBalance ex') = false
          /\ bankroll ex' = nan
      | NoTrade => False
      end
  | None => False
  end
  /\ match Rand.eval (execute Config.defaults 0 600 (new (num 1000))
                        (ofFinite Samples.crossOpp))
                     (Rand.tapeOf [0.5; 0.01; 0.5; 0.5; 0.5]) with
     | Traded ex' _ =>
         exists b total,
           bankroll ex' = num b
           /\ sumOver chargedProfit (trades ex') = num total
           /\ b - 1000 == total
     | NoTrade => False
     end.
Proof.
  split.
  - destruct CrossSamples.noPriceOpportunity as [opp |] eqn:Hopp;
      [| vm_compute in Hopp; discriminate].
    vm_compute in Hopp. injection Hopp as <-.
    match goal with
    | |- match ?run with _ => _ end =>
        destruct run as [| ex' trade] eqn:Hrun;
        [vm_compute in Hrun; discriminate |]
    end.
    destruct (account_invariants_over_every_run Config.defaults ex'
                (reach_execute _ _ _ _ _ _ _ _ (reach_new _ (num 1000)) Hrun))
      as (Hctr & _ & _ & _ & Hpeak & _).
    vm_compute in Hrun. injection Hrun as <- _.
    split; [exact Hctr |]. split; [exact Hpeak | reflexivity].
  - destruct (Rand.eval (execute Config.defaults 0 600 (new (num 1000))
                           (ofFinite Samples.crossOpp))
                        (Rand.tapeOf [0.5; 0.01; 0.5; 0.5; 0.5]))
      as [| ex' trade] eqn:Hrun; [vm_compute in Hrun; discriminate |].
    destruct (account_invariants_over_every_run Config.defaults ex'
                (reach_execute _ _ _ _ _ _ _ _ (reach_new _ (num 1000)) Hrun))
      as (_ & _ & _ & _ & _ & _ & Hledger).
    assert (Hstart : startingBankroll ex' = num 1000)
      by (vm_compute in Hrun; injection Hrun as <- _; reflexivity).
    destruct Hledger as (_ & start & b & total & Hs & Hb & _ & Hsum & Heq).
    { vm_compute in Hrun. injection Hrun as <- _. reflexivity. }
    rewrite Hstart in Hs. injection Hs as <-.
    exists b, total. now repeat split.
Defined.
End PaperTradeOnNumbers.

(* ===================================================================== *)
(** * ArbitrageEngine: the tracked map over the cycles *)
(* ===================================================================== *)

Section EngineTracking.
Import JsNum Types ArbitrageEngine.
Local Open Scope Q_scope.

Lemma pushHistory_length h p :
  (length h <= 10)%nat ->
  length (pushHistory h p) = Nat.min (length h + 1) 10.
Proof.
  intros Hlen. unfold pushHistory. rewrite length_app. cbn [length].
  destruct (Nat.ltb_spec 10 (length h + 1)) as [Hover | Hfit].
  - destruct h as [| x h]; cbn [app tail length] in *; [lia |].
    rewrite length_app. cbn [length]. lia.
  - rewrite length_app. cbn [length]. lia.
Qed.

Lemma pushHistory_last h p : last (pushHistory h p) = Some p.
Proof.
  unfold pushHistory. rewrite length_app. cbn [length].
  destruct (Nat.ltb_spec 10 (length h + 1)) as [Hover | Hfit].
  - destruct h as [| x h]; cbn [app tail length] in *; [lia |].
    apply last_snoc.
  - apply last_snoc.
Qed.

Lemma trackedEntry_ok now existing opp :
  (forall e, existing = Some e -> entryOk (getOpportunityKey opp) e) ->
  entryOk (getOpportunityKey opp) (trackedEntry now existing opp).
Proof.
  intros Hold. unfold entryOk, trackedEntry.
  destruct existing as [e |].
  - destruct (Hold e eq_refl) as (_ & Hseen & Hlen & Hexec & _).
    cbn [opportunity seenCount priceHistory executed lastSeenAt].
    split; [reflexivity |]. split; [lia |].
    split; [rewrite pushHistory_length by lia; lia |].
    split; [exact Hexec | apply pushHistory_last].
  - cbn [opportunity seenCount priceHistory executed lastSeenAt length].
    repeat split. lia.
Qed.

Lemma trackStep_ok now tracked opp :
  (forall k e, tracked !! k = Some e -> entryOk k e) ->
  forall k e, trackStep now tracked opp !! k = Some e -> entryOk k e.
Proof.
  intros Hinv k e. unfold trackStep.
  destruct (decide (k = getOpportunityKey opp)) as [-> | Hne].
  - rewrite lookup_insert_eq. intros [= <-]. apply trackedEntry_ok.
    intros e0 He0. now apply Hinv.
  - rewrite lookup_insert_ne by congruence. apply Hinv.
Qed.

Lemma updateTracking_ok now opps tracked :
  (forall k e, tracked !! k = Some e -> entryOk k e) ->
  forall k e, updateTracking now opps tracked !! k = Some e -> entryOk k e.
Proof.
  unfold updateTracking. revert tracked.
  induction opps as [| opp opps IH]; intros tracked Hinv; [exact Hinv |].
  cbn [fold_left]. apply IH. now apply trackStep_ok.
Qed.

Lemma expireOldOpportunities_lookup now tracked k e :
  expireOldOpportunities now tracked !! k = Some e
  <-> tracked !! k = Some e /\ (now - lastSeenAt e <= OPPORTUNITY_EXPIRY_MS)%Z.
Proof.
  unfold expireOldOpportunities. rewrite map_lookup_filter_Some. cbn [snd].
  split; intros [Hlook Hage]; (split; [exact Hlook | lia]).
Qed.

Lemma reachable_ok tracked :
  reachable tracked -> forall k e, tracked !! k = Some e -> entryOk k e.
Proof.
  induction 1 as [| now results tracked Hreach IH | now tracked Hreach IH].
  - intros k e. now rewrite lookup_empty.
  - cbn [detect fst]. now apply updateTracking_ok.
  - intros k e Hlook. apply expireOldOpportunities_lookup in Hlook as [Hlook _].
    now apply IH.
Qed.

(** X18. What the engine keeps of a tracked opportunity.  In every map
    reached from a new engine by [detect] and [expireOldOpportunities],
    an entry is stored under the key of its own opportunity, has been
    seen at least once, holds one price point per sighting up to the
    last ten, the last of them being the spread of the stored
    opportunity at the time last seen, and is never marked executed. *)
Theorem tracked_entries_over_the_cycles
    (tracked : gmap string TrackedOpportunity) (k : string)
    (e : TrackedOpportunity) :
  reachable tracked ->
  tracked !! k = Some e ->
  k = getOpportunityKey (opportunity e)
  /\ (1 <= seenCount e)%Z
  /\ length (priceHistory e) = Z.to_nat (Z.min (seenCount e) 10)
  /\ executed e = false
  /\ last (priceHistory e)
     = Some {| timestamp := lastSeenAt e;
               pointSpread := spread (opportunity e) |}.
Proof. intros Hreach Hlook. exact (reachable_ok tracked Hreach k e Hlook). Qed.

Lemma tracked_entries_over_the_cycles_witness :
  match (detect 2000 [[Samples.crossOpp]]
           (detect 1000 [[Samples.crossOpp]] ∅).1).1
        !! getOpportunityKey Samples.crossOpp with
  | Some e => seenCount e = 2%Z /\ length (priceHistory e) = 2%nat
  | None => False
  end.
Proof.
  destruct ((detect 2000 [[Samples.crossOpp]]
               (detect 1000 [[Samples.crossOpp]] ∅).1).1
            !! getOpportunityKey Samples.crossOpp) as [e |] eqn:Hlook;
    [| vm_compute in Hlook; discriminate].
  destruct (tracked_entries_over_the_cycles _ _ e
              (reach_detect 2000 [[Samples.crossOpp]] _
                 (reach_detect 1000 [[Samples.crossOpp]] _ reach_new)) Hlook)
    as (_ & _ & Hlen & _).
  assert (Hseen : seenCount e = 2%Z)
    by (vm_compute in Hlook; injection Hlook as <-; reflexivity).
  split; [exact Hseen |]. rewrite Hlen, Hseen. reflexivity.
Defined.

(** X19. What the runner is told is new.  On any tracked map the engine
    can have reached, [getNewOpportunities] applied to the result of
    [detect] returns the opportunities of the result whose key was not
    tracked before that call, in the order of the result: [detect] has
    already refreshed the map, so neither the branch for a second
    sighting nor the branch for a changed profit ever adds one. *)
Theorem new_opportunities_are_the_untracked_ones
    (now : Z) (results : list (list ArbitrageOpportunity))
    (tracked : gmap string TrackedOpportunity) :
  reachable tracked ->
  getNewOpportunities (detect now results tracked).1
                      (detect now results tracked).2
  = List.filter (fun o => match tracked !! getOpportunityKey o with
                          | None => true
                          | Some _ => false
                          end)
                (opportunities (detect now results tracked).2).
Proof.
  intros Hreach. apply getNewOpportunities_after_detect.
  intros k e Hlook. now destruct (reachable_ok tracked Hreach k e Hlook) as (_ & Hseen & _).
Qed.

Lemma new_opportunities_are_the_untracked_ones_witness :
  let first := detect 1000 [[Samples.crossOpp]] ∅ in
  getNewOpportunities first.1 first.2 = [Samples.crossOpp]
  /\ getNewOpportunities (detect 2000 [[Samples.crossOpp]] first.1).1
                         (detect 2000 [[Samples.crossOpp]] first.1).2 = [].
Proof.
  intros first. subst first. split.
  - rewrite (new_opportunities_are_the_untracked_ones 1000 [[Samples.crossOpp]] ∅
               reach_new).
    vm_compute. reflexivity.
  - rewrite (new_opportunities_are_the_untracked_ones 2000 [[Samples.crossOpp]]
               _ (reach_detect 1000 [[Samples.crossOpp]] ∅ reach_new)).
    vm_compute. reflexivity.
Defined.

End EngineTracking.

(* ===================================================================== *)
(** * QuestionSimilarityMatcher: the overlap measure and the matches *)
(* ===================================================================== *)

Section MatcherOverlap.
Import JsNum QuestionSimilarityMatcher.
Local Open Scope Q_scope.

Lemma jaccardSimilarity_nonempty (s1 s2 : gset string) :
  ¬ (s1 = ∅ /\ s2 = ∅) ->
  jaccardSimilarity s1 s2
  = inject_Z (Z.of_nat (size (s1 ∩ s2))) / inject_Z (Z.of_nat (size (s1 ∪ s2)))
  /\ (0 < size (s1 ∪ s2))%nat.
Proof.
  intros Hne. unfold jaccardSimilarity.
  destruct (Nat.eqb_spec (size s1) 0) as [H1 | H1];
    [destruct (Nat.eqb_spec (size s2) 0) as [H2 | H2] |]; cbn [andb].
  - exfalso. apply Hne. split; now apply size_empty_iff, leibniz_equiv in H1, H2.
  - split; [reflexivity |].
    pose proof (subseteq_size _ _ (union_subseteq_r s1 s2)). lia.
  - split; [reflexivity |].
    pose proof (subseteq_size _ _ (union_subseteq_l s1 s2)). lia.
Qed.

Lemma jaccardSimilarity_empty : jaccardSimilarity ∅ ∅ = 0.
Proof. reflexivity. Qed.

Lemma ratio_of_sizes (n d : nat) :
  (n <= d)%nat -> (0 < d)%nat ->
  0 <= inject_Z (Z.of_nat n) / inject_Z (Z.of_nat d) <= 1
  /\ (inject_Z (Z.of_nat n) / inject_Z (Z.of_nat d) == 0 <-> n = 0%nat)
  /\ (inject_Z (Z.of_nat n) / inject_Z (Z.of_nat d) == 1 <-> n = d).
Proof.
  intros Hle Hpos.
  pose proof (natQ_pos d Hpos) as Hd.
  pose proof (natQ_le n d Hle) as Hnd.
  pose proof (natQ_le 0 n ltac:(lia)) as Hn.
  unfold PaperTradingExecutor.natQ in *.
  change (inject_Z (Z.of_nat 0)) with 0 in Hn.
  set (qn := inject_Z (Z.of_nat n)) in *. set (qd := inject_Z (Z.of_nat d)) in *.
  assert (Hlow : 0 <= qn / qd) by (apply Qle_shift_div_l; [exact Hd | lra]).
  assert (Hhigh : qn / qd <= 1) by (apply Qle_shift_div_r; [exact Hd | lra]).
  assert (Hmul : qn / qd * qd == qn) by (field; lra).
  split; [split; assumption |]. split.
  - split.
    + intros Hzero. rewrite Hzero in Hmul.
      assert (Hqn : qn == 0) by lra. subst qn.
      change 0 with (inject_Z 0) in Hqn. rewrite inject_Z_injective in Hqn. lia.
    + intros ->. subst qn. cbn [Z.of_nat]. change (inject_Z 0) with 0.
      field. lra.
  - split.
    + intros Hone. rewrite Hone in Hmul.
      assert (Hqn : qn == qd) by lra. subst qn qd.
      rewrite inject_Z_injective in Hqn. lia.
    + intros ->. subst qn qd. field. lra.
Qed.

Lemma jaccardSimilarity_facts (s1 s2 : gset string) :
  0 <= jaccardSimilarity s1 s2 <= 1
  /\ jaccardSimilarity s1 s2 = jaccardSimilarity s2 s1
  /\ (jaccardSimilarity s1 s2 == 0 <-> s1 ∩ s2 = ∅)
  /\ (jaccardSimilarity s1 s2 == 1 <-> s1 = s2 /\ s1 <> ∅).
Proof.
  assert (Hcomm : jaccardSimilarity s1 s2 = jaccardSimilarity s2 s1).
  { unfold jaccardSimilarity.
    rewrite (comm_L (∩) s1 s2), (comm_L (∪) s1 s2), (andb_comm (size s1 =? 0)%nat).
    reflexivity. }
  destruct (decide (s1 = ∅ /\ s2 = ∅)) as [[-> ->] | Hne].
  - rewrite jaccardSimilarity_empty.
    split; [lra |]. split; [reflexivity |].
    split; [split; [intros _; apply (idemp_L (∩)) | reflexivity] |].
    split; [intros Hone; lra | intros [_ Hne]; congruence].
  - destruct (jaccardSimilarity_nonempty s1 s2 Hne) as [-> Hpos].
    assert (Hsub : s1 ∩ s2 ⊆ s1 ∪ s2)
      by (etrans; [apply intersection_subseteq_l | apply union_subseteq_l]).
    pose proof (subseteq_size _ _ Hsub) as Hle.
    destruct (ratio_of_sizes _ _ Hle Hpos) as (Hrange & Hzero & Hone).
    split; [exact Hrange |]. split.
    { destruct (jaccardSimilarity_nonempty s1 s2 Hne) as [<- _]. exact Hcomm. }
    split.
    + rewrite Hzero. split.
      * intros Hsize. now apply size_empty_iff, leibniz_equiv in Hsize.
      * intros ->. apply size_empty.
    + rewrite Hone. split.
      * intros Hsize.
        assert (Hsame : s1 ∩ s2 = s1 ∪ s2)
          by (apply set_subseteq_size_eq; [exact Hsub | lia]).
        assert (Heq : s1 = s2).
        { apply (anti_symm (⊆)); intros x Hx;
            (assert (Hboth : x ∈ s1 ∩ s2)
               by (rewrite Hsame; apply elem_of_union; tauto));
            apply elem_of_intersection in Hboth; tauto. }
        split; [exact Heq |]. intros ->. apply Hne. split; congruence.
      * intros [<- _]. now rewrite (idemp_L (∩)), (idemp_L (∪)).
Qed.

(** X21. The overlap measure [jaccardSimilarity] lies between 0 and 1
    and does not depend on the order of its two sets.  It is 0 exactly
    when the sets share no element, and 1 exactly when they are equal
    and not empty: two empty sets score 0, not 1. *)
Theorem jaccardSimilarity_measures_overlap (set1 set2 : gset string) :
  0 <= jaccardSimilarity set1 set2 <= 1
  /\ jaccardSimilarity set1 set2 = jaccardSimilarity set2 set1
  /\ (jaccardSimilarity set1 set2 == 0 <-> set1 ∩ set2 = ∅)
  /\ (jaccardSimilarity set1 set2 == 1 <-> set1 = set2 /\ set1 <> ∅).
Proof. apply jaccardSimilarity_facts. Qed.
End MatcherOverlap.

Section MatcherMatches.
Import JsNum QuestionSimilarityMatcher.
Local Open Scope Q_scope.
Context `{TextOps}.

Lemma inList_In (x : string) (l : list string) : inList x l = true <-> In x l.
Proof.
  unfold inList. rewrite existsb_exists. split.
  - intros [y [Hy Heq]]. apply String.eqb_eq in Heq. now subst.
  - intros Hx. exists x. split; [exact Hx | apply String.eqb_refl].
Qed.

Lemma In_toSet (x : string) (l : list string) : x ∈ toSet l <-> In x l.
Proof. unfold toSet. now rewrite elem_of_list_to_set, list_elem_of_In. Qed.

(** A name overlap above zero comes from a name the two lists share. *)
Lemma nameOverlap_shared_name (entities1 entities2 : ExtractedEntities) :
  0 < nameOverlapOf entities1 entities2 ->
  exists n, In n (List.filter (fun n => inList n (names entities2))
                              (names entities1)).
Proof.
  intros Hpos. unfold nameOverlapOf in Hpos.
  destruct (jaccardSimilarity_facts (toSet (names entities1))
                                    (toSet (names entities2)))
    as (_ & _ & Hzero & _).
  destruct (set_choose_or_empty (toSet (names entities1) ∩ toSet (names entities2)))
    as [[n Hn] | Hempty].
  - exists n. apply elem_of_intersection in Hn as [Hn1 Hn2].
    apply In_toSet in Hn1, Hn2. apply filter_In. split; [exact Hn1 |].
    now apply inList_In.
  - apply leibniz_equiv in Hempty. apply Hzero in Hempty. lra.
Qed.

Lemma compareEntities_Some entities1 entities2 market1 market2 found :
  compareEntities entities1 entities2 market1 market2 = Some found ->
  market1Id found = id market1
  /\ market1Question found = question market1
  /\ market2Id found = id market2
  /\ market2Question found = question market2
  /\ 0.5 <= similarityScore found <= 1
  /\ matchType found <> related
  /\ 0.3 <= nameOverlapOf entities1 entities2
  /\ (exists n, In n (names entities1) /\ In n (names entities2)
                /\ In n (sharedEntities found))
  /\ (forall x, In x (sharedEntities found) ->
        (In x (names entities1) /\ In x (names entities2))
        \/ (In x (dates entities1) /\ In x (dates entities2))).
Proof.
  unfold compareEntities.
  destruct (Qltb (nameOverlapOf entities1 entities2) 0.3) eqn:Hname; [discriminate |].
  apply Qltb_false in Hname.
  match goal with
  | |- context [Qltb ?score 0.5] => destruct (Qltb score 0.5) eqn:Hscore
  end; [discriminate |].
  apply Qltb_false in Hscore.
  destruct (Nat.eqb_spec (length (List.filter (fun n => inList n (names entities2))
                                              (names entities1))) 0)
    as [| Hshared]; [discriminate |].
  intros [= <-].
  cbn [market1Id market1Question market2Id market2Question similarityScore
       matchType sharedEntities].
  repeat (split; [reflexivity |]).
  split.
  { split; [exact Hscore |].
    pose proof (proj1 (jaccardSimilarity_facts (toSet (names entities1))
                         (toSet (names entities2)))) as Hn.
    pose proof (proj1 (jaccardSimilarity_facts (toSet (dates entities1))
                         (toSet (dates entities2)))) as Hd.
    pose proof (proj1 (jaccardSimilarity_facts (toSet (numbers entities1))
                         (toSet (numbers entities2)))) as Hnum.
    pose proof (proj1 (jaccardSimilarity_facts (toSet (keywords entities1))
                         (toSet (keywords entities2)))) as Hk.
    pose proof (proj1 (jaccardSimilarity_facts
                         (toSet (splitSpace (normalizeQuestion (question market1))))
                         (toSet (splitSpace (normalizeQuestion (question market2))))))
      as Hw.
    unfold nameOverlapOf. lra. }
  split; [destruct (detectInverseRelationship _ _); discriminate |].
  split; [exact Hname |].
  split.
  - destruct (nameOverlap_shared_name entities1 entities2 ltac:(lra)) as [n Hn].
    exists n. pose proof Hn as Hn'. apply filter_In in Hn' as [Hn1 Hn2].
    apply inList_In in Hn2. split; [exact Hn1 |]. split; [exact Hn2 |].
    apply in_or_app. now left.
  - intros x Hx. apply in_app_or in Hx as [Hx | Hx];
      apply filter_In in Hx as [Hx1 Hx2]; apply inList_In in Hx2; tauto.
Qed.

(** X22. What a match returned by [compareMarkets] is: it names the two
    markets in the order given, its score lies between 0.5 and 1, its
    type is exact or inverse, never related; the name overlap of the two
    markets is at least 0.3; the shared entities hold a name that both
    markets have, and nothing but names and dates that both markets
    have. *)
Theorem compareMarkets_match_is_well_formed
    (m : t) (market1 market2 : MarketData) (found : MarketMatch) :
  compareMarkets m market1 market2 = Some found ->
  market1Id found = id market1
  /\ market1Question found = question market1
  /\ market2Id found = id market2
  /\ market2Question found = question market2
  /\ 0.5 <= similarityScore found <= 1
  /\ matchType found <> related
  /\ 0.3 <= nameOverlapOf (entitiesOf m market1) (entitiesOf m market2)
  /\ (exists n, In n (names (entitiesOf m market1))
                /\ In n (names (entitiesOf m market2))
                /\ In n (sharedEntities found))
  /\ (forall x, In x (sharedEntities found) ->
        (In x (names (entitiesOf m market1))
         /\ In x (names (entitiesOf m market2)))
        \/ (In x (dates (entitiesOf m market1))
            /\ In x (dates (entitiesOf m market2)))).
Proof.
  unfold compareMarkets.
  destruct (subjectRuleRejects _ _); [discriminate |].
  apply compareEntities_Some.
Qed.

Lemma subjectRuleRejects_comm (subject1 subject2 : option string) :
  subjectRuleRejects subject1 subject2 = subjectRuleRejects subject2 subject1.
Proof.
  unfold subjectRuleRejects, subjectOverlap.
  destruct subject1 as [s1 |], subject2 as [s2 |]; try reflexivity.
  rewrite (String.eqb_sym s1 s2).
  rewrite (proj1 (proj2 (jaccardSimilarity_facts (subjectWords s1) (subjectWords s2)))).
  destruct (String.eqb s1 ""), (String.eqb s2 ""); reflexivity.
Qed.

Lemma compareEntities_score_comm entities1 entities2 market1 market2 :
  similarityScore <$> compareEntities entities1 entities2 market1 market2
  = similarityScore <$> compareEntities entities2 entities1 market2 market1.
Proof.
  unfold compareEntities, nameOverlapOf.
  rewrite (proj1 (proj2 (jaccardSimilarity_facts (toSet (names entities2))
                           (toSet (names entities1))))).
  rewrite (proj1 (proj2 (jaccardSimilarity_facts (toSet (dates entities2))
                           (toSet (dates entities1))))).
  rewrite (proj1 (proj2 (jaccardSimilarity_facts (toSet (numbers entities2))
                           (toSet (numbers entities1))))).
  rewrite (proj1 (proj2 (jaccardSimilarity_facts (toSet (keywords entities2))
                           (toSet (keywords entities1))))).
  rewrite (proj1 (proj2 (jaccardSimilarity_facts
                           (toSet (splitSpace (normalizeQuestion (question market2))))
                           (toSet (splitSpace (normalizeQuestion (question market1))))))).
  destruct (Qltb (jaccardSimilarity (toSet (names entities1))
                                    (toSet (names entities2))) 0.3) eqn:Hname;
    [reflexivity |].
  apply Qltb_false in Hname.
  match goal with
  | |- context [Qltb ?score 0.5] => destruct (Qltb score 0.5)
  end; [reflexivity |].
  destruct (nameOverlap_shared_name entities1 entities2) as [n1 Hn1];
    [unfold nameOverlapOf; lra |].
  destruct (nameOverlap_shared_name entities2 entities1) as [n2 Hn2].
  { unfold nameOverlapOf.
    rewrite (proj1 (proj2 (jaccardSimilarity_facts (toSet (names entities2))
                             (toSet (names entities1))))).
    lra. }
  destruct (List.filter (fun n => inList n (names entities2)) (names entities1));
    [destruct Hn1 |].
  destruct (List.filter (fun n => inList n (names entities1)) (names entities2));
    [destruct Hn2 |].
  reflexivity.
Qed.

(** X23. Matching does not depend on the order of the two markets:
    [compareMarkets] accepts or rejects a pair in both orders alike, and
    with the same score.  Its last check, on the shared names, never
    decides: a name overlap that reaches 0.3 comes from a name the two
    markets share. *)
Theorem compareMarkets_order_independent
    (m : t) (market1 market2 : MarketData) :
  similarityScore <$> compareMarkets m market1 market2
  = similarityScore <$> compareMarkets m market2 market1
  /\ (0.3 <= nameOverlapOf (entitiesOf m market1) (entitiesOf m market2) ->
      List.filter (fun n => inList n (names (entitiesOf m market2)))
                  (names (entitiesOf m market1)) <> []).
Proof.
  split.
  - unfold compareMarkets.
    rewrite (subjectRuleRejects_comm (subjectOf m market2) (subjectOf m market1)).
    destruct (subjectRuleRejects _ _); [reflexivity |].
    apply compareEntities_score_comm.
  - intros Hname Hnil.
    destruct (nameOverlap_shared_name (entitiesOf m market1) (entitiesOf m market2))
      as [n Hn]; [lra |].
    rewrite Hnil in Hn. destruct Hn.
Qed.
End MatcherMatches.

Section MatcherMatchesSample.
Import JsNum QuestionSimilarityMatcher.
Local Open Scope Q_scope.

Lemma compareMarkets_match_is_well_formed_witness :
  match compareMarkets (H := Samples.textOps) Samples.freshMatcher
          Samples.lakersMarket Samples.lakersToWinMarket with
  | Some found =>
      0.5 <= similarityScore found <= 1
      /\ market1Id found = id Samples.lakersMarket
  | None => False
  end.
Proof.
  destruct (compareMarkets (H := Samples.textOps) Samples.freshMatcher
              Samples.lakersMarket Samples.lakersToWinMarket)
    as [found |] eqn:Hcompare; [| vm_compute in Hcompare; discriminate].
  destruct (compareMarkets_match_is_well_formed (H := Samples.textOps)
              _ _ _ found Hcompare) as (Hid & _ & _ & _ & Hscore & _).
  split; [exact Hscore | exact Hid].
Defined.
End MatcherMatchesSample.

(* ===================================================================== *)
(** * QuestionSimilarityMatcher: [findMatches] *)
(* ===================================================================== *)

Section MatcherFindMatches.
Import JsNum QuestionSimilarityMatcher.
Local Open Scope Q_scope.
Context `{TextOps}.

Lemma insertByScore_perm x l : Permutation (insertByScore x l) (x :: l).
Proof.
  induction l as [| y l IH]; cbn [insertByScore]; [reflexivity |].
  destruct (Qltb _ _); [| reflexivity].
  rewrite IH. apply perm_swap.
Qed.

Lemma sortByScoreDesc_perm l : Permutation (sortByScoreDesc l) l.
Proof.
  induction l as [| x l IH]; cbn; [reflexivity |].
  rewrite insertByScore_perm. now constructor.
Qed.

Lemma insertByScore_sorted x l :
  StronglySorted scoreGe l -> StronglySorted scoreGe (insertByScore x l).
Proof.
  induction 1 as [| y l Hsorted IH Hy]; cbn [insertByScore].
  - repeat constructor.
  - destruct (Qltb (similarityScore x) (similarityScore y)) eqn:Hcmp.
    + apply Qltb_true in Hcmp. constructor; [exact IH |].
      rewrite (List.Forall_forall (scoreGe y)). intros z Hz.
      apply (Permutation_in _ (insertByScore_perm x l)) in Hz.
      destruct Hz as [<- | Hz]; [unfold scoreGe; lra |].
      now apply (proj1 (List.Forall_forall _ _) Hy).
    + apply Qltb_false in Hcmp.
      constructor; [now constructor |].
      constructor; [exact Hcmp |].
      rewrite (List.Forall_forall (scoreGe x)). intros z Hz.
      pose proof (proj1 (List.Forall_forall _ _) Hy z Hz) as Hyz.
      unfold scoreGe in *. lra.
Qed.

Lemma sortByScoreDesc_sorted l : StronglySorted scoreGe (sortByScoreDesc l).
Proof.
  induction l as [| x l IH]; cbn; [constructor |].
  now apply insertByScore_sorted.
Qed.

Lemma matchesWith_In minScore m market1 rest found :
  In found (matchesWith minScore m market1 rest)
  <-> exists market2,
        In market2 rest
        /\ compareMarkets m market1 market2 = Some found
        /\ minScore <= similarityScore found.
Proof.
  unfold matchesWith. rewrite in_flat_map. split.
  - intros [market2 [Hin Hfound]]. exists market2. split; [exact Hin |].
    destruct (compareMarkets m market1 market2) as [x |]; [| destruct Hfound].
    destruct (Qle_bool minScore (similarityScore x)) eqn:Hscore; [| destruct Hfound].
    destruct Hfound as [<- | []]. split; [reflexivity |].
    now apply Qle_bool_iff.
  - intros [market2 (Hin & Hcompare & Hscore)]. exists market2.
    split; [exact Hin |]. rewrite Hcompare.
    apply Qle_bool_iff in Hscore. rewrite Hscore. now left.
Qed.

Lemma comparePairs_In minScore m markets found :
  In found (comparePairs minScore m markets)
  <-> exists before market1 between market2 after,
        markets = before ++ market1 :: between ++ market2 :: after
        /\ compareMarkets m market1 market2 = Some found
        /\ minScore <= similarityScore found.
Proof.
  induction markets as [| x rest IH]; cbn [comparePairs].
  - split; [intros [] |].
    intros (before & market1 & between & market2 & after & Hsplit & _).
    destruct before; discriminate.
  - rewrite in_app_iff, matchesWith_In, IH. split.
    + intros [[market2 (Hin & Hcompare & Hscore)]
             | (before & market1 & between & market2 & after & -> & Hrest)].
      * apply in_split in Hin as (between & after & ->).
        now exists [], x, between, market2, after.
      * now exists (x :: before), market1, between, market2, after.
    + intros (before & market1 & between & market2 & after & Hsplit & Hrest).
      destruct before as [| y before]; cbn [app] in Hsplit;
        injection Hsplit as -> ->.
      * left. exists market2. split; [| exact Hrest].
        apply in_or_app. right. now left.
      * right. now exists before, market1, between, market2, after.
Qed.

Lemma cacheMarket_keeps m market :
  (forall k e, entityCache m !! k = Some e ->
               entityCache (cacheMarket m market) !! k = Some e)
  /\ (forall k s, subjectCache m !! k = Some s ->
                  subjectCache (cacheMarket m market) !! k = Some s)
  /\ is_Some (entityCache (cacheMarket m market) !! id market)
  /\ is_Some (subjectCache (cacheMarket m market) !! id market).
Proof.
  unfold cacheMarket. cbn [entityCache subjectCache].
  split; [| split; [| split]].
  - intros k e Hk.
    destruct (entityCache m !! id market) eqn:Hid; [exact Hk |].
    rewrite lookup_insert_ne by congruence. exact Hk.
  - intros k s Hk.
    destruct (subjectCache m !! id market) eqn:Hid; [exact Hk |].
    rewrite lookup_insert_ne by congruence. exact Hk.
  - destruct (entityCache m !! id market) eqn:Hid.
    + rewrite Hid. eauto.
    + rewrite lookup_insert_eq. eauto.
  - destruct (subjectCache m !! id market) eqn:Hid.
    + rewrite Hid. eauto.
    + rewrite lookup_insert_eq. eauto.
Qed.

Lemma fillCaches_keeps markets : forall m,
  (forall k e, entityCache m !! k = Some e ->
               entityCache (fillCaches markets m) !! k = Some e)
  /\ (forall k s, subjectCache m !! k = Some s ->
                  subjectCache (fillCaches markets m) !! k = Some s)
  /\ (forall market, In market markets ->
        is_Some (entityCache (fillCaches markets m) !! id market)
        /\ is_Some (subjectCache (fillCaches markets m) !! id market)).
Proof.
  unfold fillCaches.
  induction markets as [| x rest IH]; intros m; cbn [fold_left].
  - split; [tauto |]. split; [tauto |]. intros ? [].
  - destruct (IH (cacheMarket m x)) as (IHe & IHs & IHin).
    destruct (cacheMarket_keeps m x) as (He & Hs & [e Hxe] & [s Hxs]).
    split; [| split].
    + intros k e' Hk. apply IHe, He, Hk.
    + intros k s' Hk. apply IHs, Hs, Hk.
    + intros market [<- | Hin]; [| now apply IHin].
      split; [exists e; now apply IHe | exists s; now apply IHs].
Qed.

(** X24. [findMatches] returns, highest score first, exactly the matches
    that [compareMarkets] finds for the pairs of the list, each market
    paired with the ones after it, whose score reaches the configured
    minimum; a list of fewer than two markets gives none.  It leaves
    every market of the list in both caches and never replaces what a
    cache already holds for an identifier: a market whose identifier is
    cached is compared with the cached entities, whatever its question
    now says. *)
Theorem findMatches_sorted_matches_of_pairs
    (minSimilarityScore : Q) (markets : list MarketData) (m : t) :
  let m' := (findMatches minSimilarityScore markets m).1 in
  let found := (findMatches minSimilarityScore markets m).2 in
  StronglySorted scoreGe found
  /\ (forall x,
        In x found
        <-> exists before market1 between market2 after,
              markets = before ++ market1 :: between ++ market2 :: after
              /\ compareMarkets m' market1 market2 = Some x
              /\ minSimilarityScore <= similarityScore x)
  /\ ((length markets < 2)%nat -> found = [])
  /\ (forall market, In market markets ->
        is_Some (entityCache m' !! id market)
        /\ is_Some (subjectCache m' !! id market))
  /\ (forall k e, entityCache m !! k = Some e -> entityCache m' !! k = Some e)
  /\ (forall k s, subjectCache m !! k = Some s -> subjectCache m' !! k = Some s)
  /\ (forall market e,
        entityCache m !! id market = Some e -> entitiesOf m' market = e).
Proof.
  cbv zeta. unfold findMatches. cbn [fst snd].
  destruct (fillCaches_keeps markets m) as (He & Hs & Hin).
  split; [apply sortByScoreDesc_sorted |].
  split.
  { intros x. rewrite <- comparePairs_In. split; intros Hx.
    - now apply (Permutation_in _ (sortByScoreDesc_perm _)).
    - now apply (Permutation_in _ (Permutation_sym (sortByScoreDesc_perm _))). }
  split.
  { intros Hlen. destruct markets as [| a [| b rest]]; cbn in Hlen |- *; [reflexivity.. | lia]. }
  split; [exact Hin |]. split; [exact He |]. split; [exact Hs |].
  intros market e Hcached. unfold entitiesOf. now rewrite (He _ _ Hcached).
Qed.
End MatcherFindMatches.

(* ===================================================================== *)
(** * CrossMarketDetector: the opportunity of a matched pair *)
(* ===================================================================== *)

Section CrossMarketPairs.
Import JsNum CrossMarketDetector.
Local Open Scope Q_scope.

Lemma isValidPrice_true (price : Q) :
  isValidPrice price = true <-> 0.01 < price < 0.99.
Proof.
  unfold isValidPrice. rewrite andb_true_iff, !Qltb_true. tauto.
Qed.

Lemma calculateConfidence_bounds market1 market2 found diff :
  0 <= calculateConfidence market1 market2 found diff <= 1
  /\ (0 <= QuestionSimilarityMatcher.similarityScore found ->
      calculateConfidence market1 market2 found diff
      <= QuestionSimilarityMatcher.similarityScore found * 0.5 + 0.45).
Proof.
  unfold calculateConfidence.
  set (score := QuestionSimilarityMatcher.similarityScore found).
  set (c1 := if Qle_bool 50000 _ then _ else _).
  set (c2 := if Qltb 0.15 diff && Qltb 0.8 score then _ else _).
  set (c3 := if (3 <=? _)%nat then _ else _).
  set (c4 := if String.eqb _ _ then _ else _).
  split.
  - split; [apply Q.le_max_l |].
    apply Q.max_lub; [lra | apply Q.le_min_l].
  - intros Hscore.
    assert (H1 : c1 <= score * 0.5 + 0.2)
      by (subst c1; destruct (Qle_bool 50000 _); [lra |];
          destruct (Qle_bool 20000 _); lra).
    assert (H2 : c2 <= c1)
      by (subst c2; destruct (Qltb 0.15 diff && Qltb 0.8 score); lra).
    assert (H3 : c3 <= c2 + 0.15)
      by (subst c3; destruct (3 <=? _)%nat; [lra |];
          destruct (2 <=? _)%nat; lra).
    assert (H4 : c4 <= c3 + 0.1)
      by (subst c4; destruct (String.eqb _ _); lra).
    apply Q.max_lub; [lra |].
    eapply Qle_trans; [apply Q.le_min_r | lra].
Qed.

Lemma sidesOf_facts market1 market2 found :
  let sides := sidesOf market1 market2 found in
  cheapPrice sides <= expensivePrice sides
  /\ priceDiff sides == expensivePrice sides - cheapPrice sides
  /\ ((cheapMarket sides = market1 /\ expensiveMarket sides = market2)
      \/ (cheapMarket sides = market2 /\ expensiveMarket sides = market1))
  /\ (QuestionSimilarityMatcher.matchType found = QuestionSimilarityMatcher.exact ->
      cheapOutcome sides = 1%Z /\ expensiveOutcome sides = 1%Z
      /\ ((cheapPrice sides = priceAt (currentPrices market1) 1
           /\ expensivePrice sides = priceAt (currentPrices market2) 1)
          \/ (cheapPrice sides = priceAt (currentPrices market2) 1
              /\ expensivePrice sides = priceAt (currentPrices market1) 1))).
Proof.
  cbv zeta. unfold sidesOf.
  set (yes1 := priceAt (currentPrices market1) 1).
  set (yes2 := priceAt (currentPrices market2) 1).
  set (no2 := priceAt (currentPrices market2) 0).
  assert (Habs : forall a b, a <= b -> Qabs (a - b) == b - a).
  { intros a b Hab. rewrite Qabs_neg by lra. ring. }
  assert (Habs' : forall a b, b <= a -> Qabs (a - b) == a - b).
  { intros a b Hab. apply Qabs_pos. lra. }
  destruct (QuestionSimilarityMatcher.matchType found);
    [destruct (Qltb yes1 yes2) eqn:Hcmp
    | destruct (Qltb yes1 no2) eqn:Hcmp
    | destruct (Qltb yes1 no2) eqn:Hcmp];
    cbn [cheapPrice expensivePrice priceDiff cheapMarket expensiveMarket
         cheapOutcome expensiveOutcome];
    (apply Qltb_true in Hcmp || apply Qltb_false in Hcmp);
    (split; [lra |]);
    (split; [first [apply Habs; lra | apply Habs'; lra] |]);
    (split; [tauto |]);
    first [discriminate | intros _; tauto].
Qed.

(** X25. What an opportunity returned by [analyzeMatchPair] is.  Both
    markets have at least the minimal liquidity; the opportunity names
    the two markets, the cheaper side first: its first price is not
    above its second, and the spread is their difference.  The
    confidence is at least the configured minimum, at most 1, and at
    most half the similarity score plus 0.45.  A finite profit is the
    spread relative to the cheap price, in percent, less one percent of
    fees, and reaches the profit threshold; the profit is not finite
    only when the cheap price is zero.  For an exact match both prices
    are YES prices strictly between 0.01 and 0.99 and the profit is
    finite. *)
Theorem analyzeMatchPair_opportunity_is_well_formed
    (cfg : Thresholds) (market1 market2 : MarketData)
    (found : QuestionSimilarityMatcher.MarketMatch)
    (opp : CrossMarketOpportunity) :
  analyzeMatchPair cfg market1 market2 found = Some opp ->
  minLiquidityUsd cfg <= liquidity market1
  /\ minLiquidityUsd cfg <= liquidity market2
  /\ ((market1Id opp = id market1 /\ market2Id opp = id market2)
      \/ (market1Id opp = id market2 /\ market2Id opp = id market1))
  /\ market1Price opp <= market2Price opp
  /\ spread opp == market2Price opp - market1Price opp
  /\ minConfidence cfg <= confidenceScore opp
  /\ 0 <= confidenceScore opp <= 1
  /\ (0 <= QuestionSimilarityMatcher.similarityScore found ->
      confidenceScore opp
      <= QuestionSimilarityMatcher.similarityScore found * 0.5 + 0.45)
  /\ match profitPercent opp with
     | Some p =>
         ~ market1Price opp == 0
         /\ p == spread opp / market1Price opp * 100 - 1
         /\ minProfitThreshold cfg <= p
     | None => market1Price opp == 0
     end
  /\ (QuestionSimilarityMatcher.matchType found = QuestionSimilarityMatcher.exact ->
      0.01 < market1Price opp /\ market2Price opp < 0.99
      /\ market1Outcome opp = 1%Z /\ market2Outcome opp = 1%Z
      /\ profitPercent opp <> None).
Proof.
  unfold analyzeMatchPair.
  destruct (Qltb (liquidity market1) (minLiquidityUsd cfg)) eqn:Hliq1;
    [discriminate |].
  destruct (Qltb (liquidity market2) (minLiquidityUsd cfg)) eqn:Hliq2;
    [discriminate |].
  apply Qltb_false in Hliq1, Hliq2. cbn [orb].
  destruct (isValidPrice (priceAt (currentPrices market1) 1)) eqn:Hvalid1;
    [| discriminate].
  destruct (isValidPrice (priceAt (currentPrices market2) 1)) eqn:Hvalid2;
    [| discriminate].
  apply isValidPrice_true in Hvalid1, Hvalid2. cbn [negb orb].
  destruct (sidesOf_facts market1 market2 found) as (Hle & Hdiff & Hwho & Hexact).
  set (sides := sidesOf market1 market2 found) in *.
  destruct (calculateConfidence_bounds market1 market2 found (priceDiff sides))
    as (Hrange & Hupper).
  destruct (Qeq_bool (cheapPrice sides) 0) eqn:Hzero.
  - apply Qeq_bool_iff in Hzero. cbv iota.
    destruct (Qltb _ (minConfidence cfg)) eqn:Hconf; [discriminate |].
    apply Qltb_false in Hconf. intros [= <-].
    cbn [market1Id market2Id market1Price market2Price spread confidenceScore
         profitPercent market1Outcome market2Outcome].
    split; [exact Hliq1 |]. split; [exact Hliq2 |].
    split; [destruct Hwho as [[-> ->] | [-> ->]]; tauto |].
    split; [exact Hle |]. split; [exact Hdiff |]. split; [exact Hconf |].
    split; [exact Hrange |]. split; [exact Hupper |]. split; [exact Hzero |].
    intros Hex. destruct (Hexact Hex) as (_ & _ & [[Hc _] | [Hc _]]);
      rewrite Hc in Hzero; lra.
  - apply Qeq_bool_neq in Hzero.
    destruct (Qltb (priceDiff sides / cheapPrice sides * 100 - POLYMARKET_FEE_PERCENT)
                   (minProfitThreshold cfg)) eqn:Hprofit; [discriminate |].
    apply Qltb_false in Hprofit.
    destruct (Qltb _ (minConfidence cfg)) eqn:Hconf; [discriminate |].
    apply Qltb_false in Hconf. intros [= <-].
    cbn [market1Id market2Id market1Price market2Price spread confidenceScore
         profitPercent market1Outcome market2Outcome].
    split; [exact Hliq1 |]. split; [exact Hliq2 |].
    split; [destruct Hwho as [[-> ->] | [-> ->]]; tauto |].
    split; [exact Hle |]. split; [exact Hdiff |]. split; [exact Hconf |].
    split; [exact Hrange |]. split; [exact Hupper |].
    split; [split; [exact Hzero | split; [reflexivity | exact Hprofit]] |].
    intros Hex. destruct (Hexact Hex) as (Hout1 & Hout2 & Hprices).
    split; [destruct Hprices as [[-> _] | [-> _]]; lra |].
    split; [destruct Hprices as [[_ ->] | [_ ->]]; lra |].
    split; [exact Hout1 |]. split; [exact Hout2 | discriminate].
Qed.

(** X26. The NO price of an inverse match is not validated.  When the
    two markets are liquid enough, their YES prices are valid and the
    confidence passes, an inverse match whose second market has no NO
    price, or one of zero, yields an opportunity: it buys that market's
    NO outcome at a price of zero, with the first market's YES price as
    the spread and a profit that is not finite. *)
Theorem analyzeMatchPair_inverse_zero_no_price
    (cfg : Thresholds) (market1 market2 : MarketData)
    (found : QuestionSimilarityMatcher.MarketMatch) :
  QuestionSimilarityMatcher.matchType found <> QuestionSimilarityMatcher.exact ->
  minLiquidityUsd cfg <= liquidity market1 ->
  minLiquidityUsd cfg <= liquidity market2 ->
  isValidPrice (priceAt (currentPrices market1) 1) = true ->
  isValidPrice (priceAt (currentPrices market2) 1) = true ->
  priceAt (currentPrices market2) 0 == 0 ->
  minConfidence cfg
  <= calculateConfidence market1 market2 found
       (Qabs (priceAt (currentPrices market1) 1
              - priceAt (currentPrices market2) 0)) ->
  exists opp,
    analyzeMatchPair cfg market1 market2 found = Some opp
    /\ market1Id opp = id market2
    /\ market1Outcome opp = 0%Z
    /\ market1Price opp == 0
    /\ spread opp == priceAt (currentPrices market1) 1
    /\ profitPercent opp = None.
Proof.
  intros Hinverse Hliq1 Hliq2 Hvalid1 Hvalid2 Hno Hconf.
  unfold analyzeMatchPair.
  apply Qltb_false in Hliq1, Hliq2. rewrite Hliq1, Hliq2, Hvalid1, Hvalid2.
  cbn [negb orb].
  apply isValidPrice_true in Hvalid1.
  assert (Hsides : sidesOf market1 market2 found
                   = {| priceDiff := Qabs (priceAt (currentPrices market1) 1
                                           - priceAt (currentPrices market2) 0);
                        cheapMarket := market2; cheapOutcome := 0;
                        cheapPrice := priceAt (currentPrices market2) 0;
                        expensiveMarket := market1; expensiveOutcome := 1;
                        expensivePrice := priceAt (currentPrices market1) 1 |}).
  { unfold sidesOf.
    assert (Hcmp : Qltb (priceAt (currentPrices market1) 1)
                        (priceAt (currentPrices market2) 0) = false)
      by (apply Qltb_false; lra).
    rewrite Hcmp.
    destruct (QuestionSimilarityMatcher.matchType found); [congruence | reflexivity..]. }
  rewrite Hsides. cbn [cheapPrice priceDiff cheapMarket cheapOutcome
                       expensiveMarket expensiveOutcome expensivePrice].
  apply Qeq_bool_iff in Hno. rewrite Hno.
  apply Qltb_false in Hconf. rewrite Hconf.
  eexists. split; [reflexivity |].
  cbn [market1Id market1Outcome market1Price spread profitPercent].
  apply Qeq_bool_iff in Hno.
  repeat split; try assumption.
  rewrite Hno. rewrite Qabs_pos by lra. ring.
Qed.
Lemma analyzeMatchPair_opportunity_is_well_formed_witness :
  match analyzeMatchPair defaults CrossSamples.lakersA CrossSamples.lakersB
          (CrossSamples.matchOf CrossSamples.lakersA CrossSamples.lakersB
             QuestionSimilarityMatcher.exact) with
  | Some opp =>
      market1Price opp <= market2Price opp
      /\ minConfidence defaults <= confidenceScore opp
      /\ market1Id opp = "lakers-a"
  | None => False
  end.
Proof.
  destruct (analyzeMatchPair defaults CrossSamples.lakersA CrossSamples.lakersB
              (CrossSamples.matchOf CrossSamples.lakersA CrossSamples.lakersB
                 QuestionSimilarityMatcher.exact))
    as [opp |] eqn:Hpair; [| vm_compute in Hpair; discriminate].
  destruct (analyzeMatchPair_opportunity_is_well_formed _ _ _ _ _ Hpair)
    as (_ & _ & _ & Hprice & _ & Hconf & _).
  split; [exact Hprice |]. split; [exact Hconf |].
  vm_compute in Hpair. injection Hpair as <-. reflexivity.
Defined.

Lemma analyzeMatchPair_inverse_zero_no_price_witness :
  exists opp,
    analyzeMatchPair defaults CrossSamples.lakersA CrossSamples.lakersLose
      (CrossSamples.matchOf CrossSamples.lakersA CrossSamples.lakersLose
         QuestionSimilarityMatcher.inverse) = Some opp
    /\ market1Id opp = "lakers-c"
    /\ market1Price opp == 0
    /\ profitPercent opp = None.
Proof.
  destruct (analyzeMatchPair_inverse_zero_no_price defaults
              CrossSamples.lakersA CrossSamples.lakersLose
              (CrossSamples.matchOf CrossSamples.lakersA CrossSamples.lakersLose
                 QuestionSimilarityMatcher.inverse))
    as (opp & Hpair & Hid & _ & Hprice & _ & Hprofit);
    try (vm_compute; first [reflexivity | discriminate]).
  exists opp. repeat split; assumption.
Defined.

(** The profit of an emitted opportunity as the number it is in the
    source: the rational of the field, and [Infinity] where the field
    is not finite, the difference that is divided by zero being
    positive. *)
Lemma netProfitPercent_of_emitted cfg market1 market2 found opp :
  analyzeMatchPair cfg market1 market2 found = Some opp ->
  netProfitPercent opp
  = match profitPercent opp with
    | Some p => JsNumber.num p
    | None => JsNumber.infinity
    end.
Proof.
  unfold analyzeMatchPair.
  destruct (Qltb (liquidity market1) _ || Qltb (liquidity market2) _);
    [discriminate |].
  destruct (isValidPrice (priceAt (currentPrices market1) 1)) eqn:Hvalid1;
    [| discriminate].
  destruct (isValidPrice (priceAt (currentPrices market2) 1)) eqn:Hvalid2;
    [| discriminate].
  cbn [negb orb]. cbv zeta.
  apply isValidPrice_true in Hvalid1, Hvalid2.
  assert (Hpositive : Qeq_bool (cheapPrice (sidesOf market1 market2 found)) 0
                      = true ->
                      0 < priceDiff (sidesOf market1 market2 found)).
  { unfold sidesOf.
    destruct (QuestionSimilarityMatcher.matchType found);
      [destruct (Qltb _ (priceAt (currentPrices market2) 1))
      | destruct (Qltb _ (priceAt (currentPrices market2) 0)) eqn:Hcmp
      | destruct (Qltb _ (priceAt (currentPrices market2) 0)) eqn:Hcmp];
      cbn [cheapPrice priceDiff]; intros Hzero; apply Qeq_bool_iff in Hzero;
      try lra; rewrite Qabs_pos; lra. }
  destruct (Qeq_bool (cheapPrice (sidesOf market1 market2 found)) 0) eqn:Hcheap.
  - destruct (Qltb (calculateConfidence _ _ _ _) _); [discriminate |].
    intros [= <-]. unfold netProfitPercent.
    cbn [spread market1Price profitPercent JsNumber.div]. rewrite Hcheap.
    unfold JsNumber.scaled.
    rewrite (proj1 (Qgt_alt _ _) (Hpositive eq_refl)). reflexivity.
  - destruct (Qltb _ (minProfitThreshold cfg)); [discriminate |].
    destruct (Qltb (calculateConfidence _ _ _ _) _); [discriminate |].
    intros [= <-]. unfold netProfitPercent.
    cbn [spread market1Price profitPercent JsNumber.div]. rewrite Hcheap.
    reflexivity.
Qed.
End CrossMarketPairs.

(* ===================================================================== *)
(** * SimulationExecutor: the simulated account *)
(* ===================================================================== *)

Section SimulationAccount.
Import JsNum Types SimulationExecutor.
Local Open Scope Q_scope.

Lemma scaled_between (a c s : Q) :
  - c <= a <= c -> 0 <= s -> - (c * s) <= a * s <= c * s.
Proof.
  intros [Hlow Hhigh] Hs. split.
  - assert (H : (- c) * s <= a * s) by (apply Qmult_le_compat_r; assumption).
    lra.
  - apply Qmult_le_compat_r; assumption.
Qed.

Lemma estimate_bps_nonneg cfg sz liq isBuy cur e :
  0 <= Config.baseSlippageBps cfg ->
  0 <= Config.liquidityImpactFactor cfg ->
  0 <= sz -> 0 < liq ->
  SlippageModel.estimate cfg sz liq isBuy cur = Some e ->
  0 <= estimatedSlippageBps e.
Proof.
  intros Hbase Hfactor Hsz Hliq. rewrite estimate_some by lra. intros [= <-].
  cbn [estimatedSlippageBps].
  pose proof (ratio_nonneg sz liq Hsz Hliq) as Hratio.
  pose proof (proj1 (calculatePriceImpact_bounds cur isBuy)) as Himpact.
  assert (Hmul : 0 <= sz / liq * Config.liquidityImpactFactor cfg)
    by (apply Qmult_le_0_compat; assumption).
  lra.
Qed.

(** The clamp of a price on all numbers: a number between 0.01 and
    0.99 unless the price is [NaN]. *)
Lemma clampPrice_bounds (x : JsNumber.number) (q : Q) :
  JsNumber.clampPrice x = Some q -> 0.01 <= q <= 0.99.
Proof.
  unfold JsNumber.clampPrice.
  destruct x as [a | | |]; cbn [JsNumber.min JsNumber.max]; intros [= <-].
  - apply clamp_price_bounds.
  - apply (clamp_price_bounds 1).
  - lra.
Qed.

Lemma clampPrice_finite (x : JsNumber.number) :
  JsNumber.clampPrice x = None <-> x = JsNumber.nan.
Proof.
  unfold JsNumber.clampPrice.
  destruct x as [a | | |]; cbn [JsNumber.min JsNumber.max];
    split; intros H; first [discriminate | reflexivity].
Qed.

Lemma addNoiseWith_price_in_range (r : Q) (e : JsSlippageModel.SlippageEstimate)
    (q : Q) :
  JsSlippageModel.estimatedExecutionPrice (JsSlippageModel.addNoiseWith r e)
  = Some q ->
  0.01 <= q <= 0.99.
Proof.
  unfold JsSlippageModel.addNoiseWith.
  cbn [JsSlippageModel.estimatedExecutionPrice]. apply clampPrice_bounds.
Qed.

(** On finite arguments with a non-zero liquidity the estimate on all
    numbers is the estimate on the rationals. *)
Lemma estimate_on_finite cfg sz liq isBuy cur e :
  SlippageModel.estimate cfg sz liq isBuy cur = Some e ->
  JsSlippageModel.estimate cfg (JsNumber.num sz) (JsNumber.num liq) isBuy
                           (JsNumber.num cur)
  = {| JsSlippageModel.estimatedSlippageBps :=
         JsNumber.num (estimatedSlippageBps e);
       JsSlippageModel.estimatedExecutionPrice :=
         Some (estimatedExecutionPrice e);
       JsSlippageModel.confidence := JsNumber.num (confidence e);
       JsSlippageModel.liquidityDepth := JsNumber.num (liquidityDepth e) |}.
Proof.
  unfold SlippageModel.estimate, JsSlippageModel.estimate.
  destruct (Qeq_bool liq 0) eqn:Hliq; [discriminate |]. intros [= <-].
  cbv zeta.
  cbn [estimatedSlippageBps estimatedExecutionPrice confidence liquidityDepth].
  unfold JsSlippageModel.calculatePriceImpact, SlippageModel.calculatePriceImpact,
    JsNumber.gtb, JsNumber.ltb.
  cbn [JsNumber.div]. rewrite Hliq.
  destruct isBuy.
  - destruct (Qltb 0.9 cur); reflexivity.
  - destruct (Qltb cur 0.1); reflexivity.
Qed.

(** So is the noise pass, when the divisor of the price is not zero. *)
Lemma addNoiseWith_on_finite (r : Q) (e : SlippageEstimate) :
  ~ 1 + estimatedSlippageBps e / 10000 == 0 ->
  JsSlippageModel.addNoiseWith r
    {| JsSlippageModel.estimatedSlippageBps :=
         JsNumber.num (estimatedSlippageBps e);
       JsSlippageModel.estimatedExecutionPrice :=
         Some (estimatedExecutionPrice e);
       JsSlippageModel.confidence := JsNumber.num (confidence e);
       JsSlippageModel.liquidityDepth := JsNumber.num (liquidityDepth e) |}
  = let e' := SlippageModel.addNoiseWith r e in
    {| JsSlippageModel.estimatedSlippageBps :=
         JsNumber.num (estimatedSlippageBps e');
       JsSlippageModel.estimatedExecutionPrice :=
         Some (estimatedExecutionPrice e');
       JsSlippageModel.confidence := JsNumber.num (confidence e');
       JsSlippageModel.liquidityDepth := JsNumber.num (liquidityDepth e') |}.
Proof.
  intros Hdivisor.
  unfold JsSlippageModel.addNoiseWith, SlippageModel.addNoiseWith. cbv zeta.
  cbn [JsSlippageModel.estimatedSlippageBps
       JsSlippageModel.estimatedExecutionPrice JsSlippageModel.confidence
       JsSlippageModel.liquidityDepth JsNumber.ofFiniteOrNaN
       estimatedSlippageBps estimatedExecutionPrice confidence liquidityDepth].
  assert (Hnz : Qeq_bool (1 + estimatedSlippageBps e / 10000) 0 = false).
  { destruct (Qeq_bool _ 0) eqn:Hz; [| reflexivity].
    apply Qeq_bool_iff in Hz. contradiction. }
  change (JsNumber.div (JsNumber.num (estimatedSlippageBps e))
                       (JsNumber.num 10000))
    with (JsNumber.num (estimatedSlippageBps e / 10000)).
  cbn [JsNumber.add JsNumber.mul].
  unfold JsNumber.div. rewrite Hnz.
  reflexivity.
Qed.

(** The two legs of [executeMultiOutcome]. *)
Lemma executeMultiOutcome_result cfg opp size tape i :
  exists result j first second price1 price2 s1 s2 pnl,
    executeMultiOutcome cfg opp size tape i = (result, j)
    /\ resultStatus result = complete
    /\ failureReason result = None
    /\ leg1 result = first
    /\ leg2 result = Some second
    /\ status first = filled
    /\ filledSize first = size / 2
    /\ executedPrice first = Some price1
    /\ executedPrice second = Some price2
    /\ slippage first = Some s1
    /\ slippage second = Some s2
    /\ realizedProfitUsd result = Some pnl
    /\ (forall p, price1 = Some p -> 0.01 <= p <= 0.99)
    /\ (forall p, price2 = Some p -> 0.01 <= p <= 0.99)
    /\ (pnl = None <-> price1 = None \/ price2 = None)
    /\ (0 <= size -> forall q, pnl = Some q -> - (size * 0.5) <= q <= size * 0.48).
Proof.
  unfold executeMultiOutcome, JsSlippageModel.addNoise, Rand.bind, Rand.random,
    Rand.ret.
  cbv zeta.
  do 9 eexists. split; [reflexivity |].
  cbn [leg1 leg2 executedPrice slippage resultStatus status filledSize
       realizedProfitUsd failureReason].
  do 11 (split; [reflexivity |]).
  split; [intros p; apply addNoiseWith_price_in_range |].
  split; [intros p; apply addNoiseWith_price_in_range |].
  match goal with
  | |- context [JsSlippageModel.addNoiseWith (tape i) ?e] =>
      pose proof (addNoiseWith_price_in_range (tape i) e) as Hp1;
      destruct (JsSlippageModel.estimatedExecutionPrice
                  (JsSlippageModel.addNoiseWith (tape i) e)) as [p1 |]
  end;
  match goal with
  | |- context [JsSlippageModel.addNoiseWith (tape (S i)) ?e] =>
      pose proof (addNoiseWith_price_in_range (tape (S i)) e) as Hp2;
      destruct (JsSlippageModel.estimatedExecutionPrice
                  (JsSlippageModel.addNoiseWith (tape (S i)) e)) as [p2 |]
  end;
  (split; [split; [try discriminate; tauto | intros [H | H]; congruence] |]);
  intros Hsize q; try discriminate.
  intros [= <-].
  specialize (Hp1 p1 eq_refl). specialize (Hp2 p2 eq_refl).
  assert (Hhalf : size / 2 == size * 0.5) by (field; lra).
  destruct (direction opp); rewrite Hhalf.
  - destruct (scaled_between (p1 + p2 - 1) 0.98 (size * 0.5)) as [Hl Hh]; lra.
  - destruct (scaled_between (1 - (p1 + p2)) 0.98 (size * 0.5)) as [Hl Hh]; lra.
  - destruct (scaled_between (p1 + p2 - 1) 0.98 (size * 0.5)) as [Hl Hh]; lra.
  - destruct (scaled_between (p1 + p2 - 1) 0.98 (size * 0.5)) as [Hl Hh]; lra.
Qed.

(** The two legs of [executeTwoLegged]. *)
Lemma executeTwoLegged_result cfg opp size tape i :
  exists result j first second price1 price2 s1 s2 pnl,
    executeTwoLegged cfg opp size tape i = (result, j)
    /\ resultStatus result = complete
    /\ failureReason result = None
    /\ leg1 result = first
    /\ leg2 result = Some second
    /\ status first = filled
    /\ filledSize first = size
    /\ executedPrice first = Some price1
    /\ executedPrice second = Some price2
    /\ slippage first = Some s1
    /\ slippage second = Some s2
    /\ realizedProfitUsd result = Some pnl
    /\ (forall p, price1 = Some p -> 0.01 <= p <= 0.99)
    /\ (forall p, price2 = Some p -> 0.01 <= p <= 0.99)
    /\ (pnl = None <-> price1 = None \/ price2 = None)
    /\ (0 <= size -> forall q, pnl = Some q -> - size <= q <= size * 0.96).
Proof.
  unfold executeTwoLegged, JsSlippageModel.addNoise, Rand.bind, Rand.random,
    Rand.ret.
  cbv zeta.
  do 9 eexists. split; [reflexivity |].
  cbn [leg1 leg2 executedPrice slippage resultStatus status filledSize
       realizedProfitUsd failureReason].
  do 11 (split; [reflexivity |]).
  split; [intros p; apply addNoiseWith_price_in_range |].
  split; [intros p; apply addNoiseWith_price_in_range |].
  match goal with
  | |- context [JsSlippageModel.addNoiseWith (tape i) ?e] =>
      pose proof (addNoiseWith_price_in_range (tape i) e) as Hp1;
      destruct (JsSlippageModel.estimatedExecutionPrice
                  (JsSlippageModel.addNoiseWith (tape i) e)) as [p1 |]
  end;
  match goal with
  | |- context [JsSlippageModel.addNoiseWith (tape (S i)) ?e] =>
      pose proof (addNoiseWith_price_in_range (tape (S i)) e) as Hp2;
      destruct (JsSlippageModel.estimatedExecutionPrice
                  (JsSlippageModel.addNoiseWith (tape (S i)) e)) as [p2 |]
  end;
  (split; [split; [try discriminate; tauto | intros [H | H]; congruence] |]);
  intros Hsize q; try discriminate.
  intros [= <-].
  specialize (Hp1 p1 eq_refl). specialize (Hp2 p2 eq_refl).
  destruct (scaled_between (p2 - p1) 0.98 size) as [Hl Hh]; lra.
Qed.

(** The result that [execute] computes from the legs. *)
Lemma legs_result cfg (opp : Opportunity) size tape i :
  exists result j first second price1 price2 s1 s2 pnl,
    match type (base opp) with
    | multi_outcome => executeMultiOutcome cfg opp size
    | _ => executeTwoLegged cfg opp size
    end tape i = (result, j)
    /\ resultStatus result = complete
    /\ failureReason result = None
    /\ leg1 result = first
    /\ leg2 result = Some second
    /\ status first = filled
    /\ executedPrice first = Some price1
    /\ executedPrice second = Some price2
    /\ slippage first = Some s1
    /\ slippage second = Some s2
    /\ realizedProfitUsd result = Some pnl
    /\ (forall p, price1 = Some p -> 0.01 <= p <= 0.99)
    /\ (forall p, price2 = Some p -> 0.01 <= p <= 0.99)
    /\ (pnl = None <-> price1 = None \/ price2 = None)
    /\ (0 <= size -> forall q, pnl = Some q -> - size <= q <= size).
Proof.
  destruct (type (base opp));
    [destruct (executeMultiOutcome_result cfg opp size tape i)
       as (result & j & first & second & price1 & price2 & s1 & s2 & pnl & Hrun
           & Hstatus & Hreason & Hfirst & Hsecond & Hfilled & _ & Hprice1
           & Hprice2 & Hs1 & Hs2 & Hpnl & Hp1 & Hp2 & Hnan & Hbound)
    | destruct (executeTwoLegged_result cfg opp size tape i)
        as (result & j & first & second & price1 & price2 & s1 & s2 & pnl & Hrun
            & Hstatus & Hreason & Hfirst & Hsecond & Hfilled & _ & Hprice1
            & Hprice2 & Hs1 & Hs2 & Hpnl & Hp1 & Hp2 & Hnan & Hbound) ..];
    exists result, j, first, second, price1, price2, s1, s2, pnl;
    (repeat (split; [assumption |]));
    intros Hsize q Hq; specialize (Hbound Hsize q Hq); lra.
Qed.

(** With a non-negative configuration, a non-negative size and liquid
    markets every number of the result is finite. *)
Lemma estimate_then_noise_finite cfg sz liq isBuy cur r :
  0 <= Config.baseSlippageBps cfg ->
  0 <= Config.liquidityImpactFactor cfg ->
  0 <= sz -> 0 < liq ->
  exists b p,
    JsNumber.div
      (JsSlippageModel.estimatedSlippageBps
         (JsSlippageModel.estimate cfg (JsNumber.num sz) (JsNumber.num liq)
            isBuy (JsNumber.num cur)))
      (JsNumber.num 10000)
    = JsNumber.num b
    /\ 0 <= b
    /\ JsSlippageModel.estimatedExecutionPrice
         (JsSlippageModel.addNoiseWith r
            (JsSlippageModel.estimate cfg (JsNumber.num sz) (JsNumber.num liq)
               isBuy (JsNumber.num cur)))
       = Some p.
Proof.
  intros Hbase Hfactor Hsz Hliq.
  destruct (SlippageModel.estimate cfg sz liq isBuy cur) as [e0 |] eqn:He0;
    [| rewrite estimate_some in He0 by lra; discriminate].
  pose proof (estimate_bps_nonneg _ _ _ _ _ _ Hbase Hfactor Hsz Hliq He0) as Hbps.
  rewrite (estimate_on_finite _ _ _ _ _ _ He0).
  assert (Hdiv : 0 <= estimatedSlippageBps e0 / 10000)
    by (apply Qle_shift_div_l; lra).
  rewrite addNoiseWith_on_finite by lra. cbv zeta.
  cbn [JsSlippageModel.estimatedSlippageBps
       JsSlippageModel.estimatedExecutionPrice].
  exists (estimatedSlippageBps e0 / 10000). eexists.
  split; [reflexivity |]. split; [exact Hdiv | reflexivity].
Qed.

Lemma legs_finite cfg (opp : Opportunity) size tape i :
  0 <= Config.baseSlippageBps cfg ->
  0 <= Config.liquidityImpactFactor cfg ->
  0 <= size ->
  0 < market1Liquidity (base opp) ->
  (type (base opp) <> multi_outcome ->
   exists liquidity2 price2,
     market2Liquidity (base opp) = Some liquidity2
     /\ 0 < liquidity2
     /\ market2Price (base opp) = Some price2) ->
  let result := (match type (base opp) with
                 | multi_outcome => executeMultiOutcome cfg opp size
                 | _ => executeTwoLegged cfg opp size
                 end tape i).1 in
  exists second p1 p2 b1 b2 q,
    leg2 result = Some second
    /\ executedPrice (leg1 result) = Some (Some p1)
    /\ executedPrice second = Some (Some p2)
    /\ slippage (leg1 result) = Some (JsNumber.num b1)
    /\ slippage second = Some (JsNumber.num b2)
    /\ 0 <= b1 /\ 0 <= b2
    /\ realizedProfitUsd result = Some (Some q).
Proof.
  intros Hbase Hfactor Hsize Hliq1 Hsecond result.
  assert (Hhalf : 0 <= size / 2) by (apply Qle_shift_div_l; lra).
  subst result.
  destruct (type (base opp)) eqn:Htype.
  - unfold executeMultiOutcome, JsSlippageModel.addNoise, Rand.bind,
      Rand.random, Rand.ret.
    cbv zeta.
    cbn [fst leg1 leg2 executedPrice slippage realizedProfitUsd].
    match goal with
    | |- context [JsSlippageModel.addNoiseWith (tape i)
                    (JsSlippageModel.estimate cfg _ _ ?isBuy _)] =>
        destruct (estimate_then_noise_finite cfg (size / 2)
                    (market1Liquidity (base opp)) isBuy (yesPrice opp) (tape i)
                    Hbase Hfactor Hhalf Hliq1) as (b1 & p1 & Hb1 & Hb1' & Hp1);
        destruct (estimate_then_noise_finite cfg (size / 2)
                    (market1Liquidity (base opp)) isBuy (noPrice opp)
                    (tape (S i)) Hbase Hfactor Hhalf Hliq1)
          as (b2 & p2 & Hb2 & Hb2' & Hp2)
    end.
    rewrite Hb1, Hb2, Hp1, Hp2.
    do 6 eexists. repeat (split; [first [reflexivity | eassumption] |]).
    reflexivity.
  - destruct Hsecond as (l2 & pr2 & Hl2 & Hl2pos & Hpr2); [discriminate |].
    unfold executeTwoLegged, JsSlippageModel.addNoise, Rand.bind,
      Rand.random, Rand.ret.
    cbv zeta.
    cbn [fst leg1 leg2 executedPrice slippage realizedProfitUsd].
    rewrite Hl2, Hpr2. cbn [numberOf option_map JsNumber.ofOption].
    destruct (estimate_then_noise_finite cfg size
                (market1Liquidity (base opp)) true (market1Price (base opp))
                (tape i) Hbase Hfactor Hsize Hliq1)
      as (b1 & p1 & Hb1 & Hb1' & Hp1).
    destruct (estimate_then_noise_finite cfg size l2 false pr2
                (tape (S i)) Hbase Hfactor Hsize Hl2pos)
      as (b2 & p2 & Hb2 & Hb2' & Hp2).
    rewrite Hb1, Hb2, Hp1, Hp2.
    do 6 eexists. repeat (split; [first [reflexivity | eassumption] |]).
    reflexivity.
  - destruct Hsecond as (l2 & pr2 & Hl2 & Hl2pos & Hpr2); [discriminate |].
    unfold executeTwoLegged, JsSlippageModel.addNoise, Rand.bind,
      Rand.random, Rand.ret.
    cbv zeta.
    cbn [fst leg1 leg2 executedPrice slippage realizedProfitUsd].
    rewrite Hl2, Hpr2. cbn [numberOf option_map JsNumber.ofOption].
    destruct (estimate_then_noise_finite cfg size
                (market1Liquidity (base opp)) true (market1Price (base opp))
                (tape i) Hbase Hfactor Hsize Hliq1)
      as (b1 & p1 & Hb1 & Hb1' & Hp1).
    destruct (estimate_then_noise_finite cfg size l2 false pr2
                (tape (S i)) Hbase Hfactor Hsize Hl2pos)
      as (b2 & p2 & Hb2 & Hb2' & Hp2).
    rewrite Hb1, Hb2, Hp1, Hp2.
    do 6 eexists. repeat (split; [first [reflexivity | eassumption] |]).
    reflexivity.
Qed.

(** The two ways in which [execute] returns. *)
Lemma execute_Done cfg checkTime updateTime endTime ex request tape ex' result :
  Rand.eval (execute cfg checkTime updateTime endTime ex request) tape
  = Done ex' result ->
  let check :=
    RiskManager.checkPreExecution checkTime (localRiskManager ex)
      (base (opportunity request)) (sizeUsd request) in
  (exists reason,
     result = createFailedResult (opportunity request) (sizeUsd request) reason
     /\ ex' = {| state := state ex; localRiskManager := check.1 |}
     /\ (reason = InsufficientBalance ->
         balance (state ex) < sizeUsd request)
     /\ (reason <> InsufficientBalance ->
         RiskManager.approved check.2 = false))
  \/ (RiskManager.approved check.2 = true
      /\ sizeUsd request <= balance (state ex)
      /\ ex' = recordResult updateTime endTime ex check.1
                 (opportunity request) result
      /\ exists j,
           match type (base (opportunity request)) with
           | multi_outcome =>
               executeMultiOutcome cfg (opportunity request) (sizeUsd request)
           | _ =>
               executeTwoLegged cfg (opportunity request) (sizeUsd request)
           end tape 0%nat = (result, j)).
Proof.
  unfold Rand.eval, execute. cbv zeta.
  destruct (RiskManager.checkPreExecution _ _ _ _) as [riskManager riskCheck].
  cbn [fst snd].
  destruct (RiskManager.approved riskCheck) eqn:Happroved; cbn [negb].
  - destruct (Qltb (balance (state ex)) (sizeUsd request)) eqn:Hbalance.
    + unfold Rand.ret. cbn [fst]. intros [= <- <-]. left.
      exists InsufficientBalance. apply Qltb_true in Hbalance.
      repeat split; [now intros _ | congruence].
    + apply Qltb_false in Hbalance. unfold Rand.bind.
      match goal with
      | |- context [let (_, _) := ?legs tape 0%nat in _] =>
          destruct (legs tape 0%nat) as [found j] eqn:Hlegs
      end; unfold Rand.ret; cbn [fst].
      intros [= <- <-]. right.
      split; [reflexivity |]. split; [exact Hbalance |].
      split; [reflexivity |]. now exists j.
  - unfold Rand.ret. cbn [fst]. intros [= <- <-]. left.
    eexists. split; [reflexivity |]. split; [reflexivity |].
    split; [| reflexivity].
    destruct (RiskManager.failure riskCheck); discriminate.
Qed.

(** X27. [execute] always returns a result, and either rejects or
    completes.  A rejected request, by the risk check or for a balance
    below the size, leaves the simulated account as it was: the result
    is failed, with nothing filled, no second leg and no profit, and
    neither trade counter moves.  A completed one was approved by the
    risk check and was not larger than the balance; it counts as one
    executed and one successful trade and is recorded by the risk
    manager.  What it adds to the balance, to both profit totals and to
    the daily figure of the risk manager is its realized profit when
    that is a finite number, and nothing when it is [NaN] (written
    [None]): the trade is counted as a success all the same. *)
Theorem execute_rejects_or_completes
    (cfg : Config.ArbitrageConfig) (checkTime updateTime endTime : Z) (ex : t)
    (request : ExecutionRequest) (tape : nat -> Q) :
  exists ex' result check,
    Rand.eval (execute cfg checkTime updateTime endTime ex request) tape
    = Done ex' result
    /\ check = RiskManager.checkPreExecution checkTime (localRiskManager ex)
                 (base (opportunity request)) (sizeUsd request)
    /\ ((resultStatus result = statusFailed
         /\ (RiskManager.approved check.2 = false
             \/ balance (state ex) < sizeUsd request)
         /\ state ex' = state ex
         /\ RiskManager.positions (localRiskManager ex')
            = RiskManager.positions (localRiskManager ex)
         /\ RiskManager.lastTradeTime (localRiskManager ex')
            = RiskManager.lastTradeTime (localRiskManager ex)
         /\ filledSize (leg1 result) = 0
         /\ leg2 result = None
         /\ realizedProfitUsd result = None
         /\ totalSizeUsd result = 0)
        \/ (resultStatus result = complete
            /\ RiskManager.approved check.2 = true
            /\ sizeUsd request <= balance (state ex)
            /\ exists pnl gain,
                 realizedProfitUsd result = Some pnl
                 /\ gain = match pnl with Some profit => profit | None => 0 end
                 /\ balance (state ex') = balance (state ex) + gain
                 /\ totalPnl (state ex') = totalPnl (state ex) + gain
                 /\ dailyPnl (state ex') = dailyPnl (state ex) + gain
                 /\ tradesExecuted (state ex')
                    = (tradesExecuted (state ex) + 1)%Z
                 /\ tradesSuccessful (state ex')
                    = (tradesSuccessful (state ex) + 1)%Z
                 /\ lastTradeAt (state ex') = Some endTime
                 /\ RiskManager.lastTradeTime (localRiskManager ex') = updateTime
                 /\ RiskManager.dailyPnL (localRiskManager ex')
                    = RiskManager.dailyPnL check.1 + gain)).
Proof.
  destruct (Rand.eval (execute cfg checkTime updateTime endTime ex request) tape)
    as [ex' result] eqn:Hrun.
  exists ex', result. eexists. split; [reflexivity |]. split; [reflexivity |].
  destruct (execute_Done _ _ _ _ _ _ _ _ _ Hrun)
    as [(reason & -> & -> & Hbalance & Hrisk)
       | (Happroved & Hbalance & -> & j & Hlegs)].
  - left. cbn [createFailedResult resultStatus state localRiskManager leg1 leg2
               filledSize realizedProfitUsd totalSizeUsd].
    split; [reflexivity |].
    split.
    { destruct reason; [left; apply Hrisk; discriminate
                       | left; apply Hrisk; discriminate
                       | right; now apply Hbalance]. }
    split; [reflexivity |].
    cbn [RiskManager.checkPreExecution fst].
    split; [apply checkDailyReset_positions |].
    split; [apply checkDailyReset_lastTradeTime |].
    repeat split.
  - right.
    destruct (legs_result cfg (opportunity request) (sizeUsd request) tape 0%nat)
      as (result0 & j0 & first & second & price1 & price2 & s1 & s2 & pnl
          & Hlegs0 & Hstatus & _ & _ & _ & _ & _ & _ & _ & _ & Hpnl & _).
    rewrite Hlegs in Hlegs0. injection Hlegs0 as <- <-.
    split; [exact Hstatus |]. split; [exact Happroved |].
    split; [exact Hbalance |].
    exists pnl. eexists. split; [exact Hpnl |]. split; [reflexivity |].
    unfold recordResult. rewrite Hstatus, Hpnl.
    cbn [state balance totalPnl dailyPnl tradesExecuted tradesSuccessful
         lastTradeAt localRiskManager orZero RiskManager.updateAfterExecution
         RiskManager.lastTradeTime RiskManager.dailyPnL].
    destruct pnl; repeat split.
Qed.

Lemma execute_step_state cfg checkTime updateTime endTime ex request tape ex'
    result :
  Rand.eval (execute cfg checkTime updateTime endTime ex request) tape
  = Done ex' result ->
  state ex' = state ex
  \/ exists pnl,
       state ex'
       = {| balance := balance (state ex) + pnl;
            startingBalance := startingBalance (state ex);
            positions := positions (state ex);
            totalPnl := totalPnl (state ex) + pnl;
            dailyPnl := dailyPnl (state ex) + pnl;
            tradesExecuted := tradesExecuted (state ex) + 1;
            tradesSuccessful := tradesSuccessful (state ex) + 1;
            lastTradeAt := Some endTime |}.
Proof.
  intros Hrun.
  destruct (execute_Done _ _ _ _ _ _ _ _ _ Hrun)
    as [(reason & _ & -> & _) | (_ & _ & -> & j & Hlegs)].
  - now left.
  - right.
    destruct (legs_result cfg (opportunity request) (sizeUsd request) tape 0%nat)
      as (result0 & j0 & first & second & price1 & price2 & s1 & s2 & pnl
          & Hlegs0 & Hstatus & _).
    rewrite Hlegs in Hlegs0. injection Hlegs0 as <- <-.
    exists (orZero (realizedProfitUsd result)).
    unfold recordResult. rewrite Hstatus. reflexivity.
Qed.

(** X28. The simulated account over a whole run.  In every state
    reached from a new executor by [execute] and [reset], every executed
    trade is counted as successful, whatever it earned or lost: the two
    counters are equal, and the win rate of [getSummary] is 100 as soon
    as one trade was executed and 0 before.  The balance is the starting
    balance plus the total profit, the daily profit is the total profit,
    the positions of the state stay empty, and the time of the last trade
    is absent exactly when no trade was executed. *)
Theorem simulation_counts_every_trade_as_a_win
    (cfg : Config.ArbitrageConfig) (ex : t) :
  reachable cfg ex ->
  tradesSuccessful (state ex) = tradesExecuted (state ex)
  /\ (0 <= tradesExecuted (state ex))%Z
  /\ Summary.winRate (getSummary ex)
     == (if (0 <? tradesExecuted (state ex))%Z then 100 else 0)
  /\ balance (state ex) == startingBalance (state ex) + totalPnl (state ex)
  /\ dailyPnl (state ex) == totalPnl (state ex)
  /\ positions (state ex) = ∅
  /\ (lastTradeAt (state ex) = None <-> tradesExecuted (state ex) = 0%Z).
Proof.
  intros Hreach.
  assert (Hinv : tradesSuccessful (state ex) = tradesExecuted (state ex)
                 /\ (0 <= tradesExecuted (state ex))%Z
                 /\ balance (state ex)
                    == startingBalance (state ex) + totalPnl (state ex)
                 /\ dailyPnl (state ex) == totalPnl (state ex)
                 /\ positions (state ex) = ∅
                 /\ (lastTradeAt (state ex) = None
                     <-> tradesExecuted (state ex) = 0%Z)).
  { induction Hreach as [b lim now | lim now ex Hreach IH
                        | ex ex' tc tu te request tape result Hreach IH Hrun].
    - cbn. repeat split; try reflexivity; try lia; ring.
    - cbn. repeat split; try reflexivity; try lia; ring.
    - destruct IH as (Hwins & Hcount & Hbalance & Hdaily & Hpos & Hlast).
      destruct (execute_step_state _ _ _ _ _ _ _ _ _ Hrun) as [-> | [pnl ->]].
      + repeat split; try assumption; apply Hlast.
      + cbn [tradesSuccessful tradesExecuted balance startingBalance totalPnl
             dailyPnl positions lastTradeAt].
        split; [lia |]. split; [lia |].
        split; [rewrite Hbalance; ring |].
        split; [rewrite Hdaily; ring |].
        split; [exact Hpos |].
        split; [discriminate | lia]. }
  destruct Hinv as (Hwins & Hcount & Hbalance & Hdaily & Hpos & Hlast).
  split; [exact Hwins |]. split; [exact Hcount |].
  split; [| repeat split; try assumption; apply Hlast].
  unfold getSummary. cbn [Summary.winRate]. rewrite Hwins.
  destruct (Z.ltb_spec 0 (tradesExecuted (state ex))) as [Hpos' | _];
    [| reflexivity].
  assert (Hnz : ~ inject_Z (tradesExecuted (state ex)) == 0).
  { change 0 with (inject_Z 0). rewrite inject_Z_injective. lia. }
  field. exact Hnz.
Qed.

Lemma approved_liquidity now rm opp sz :
  RiskManager.approved (RiskManager.checkPreExecution now rm opp sz).2 = true ->
  minLiquidityUsd (RiskManager.limits rm) <= RiskManager.minLiquidityOf opp.
Proof.
  intros Happroved.
  destruct (RiskManager.passed
              (RiskManager.checkLiquidity (RiskManager.checkDailyReset now rm) opp))
    eqn:Hpassed.
  - unfold RiskManager.checkLiquidity in Hpassed. cbn [RiskManager.passed] in Hpassed.
    apply Qle_bool_iff in Hpassed. now rewrite checkDailyReset_limits in Hpassed.
  - assert (Hin : In (RiskManager.checkLiquidity
                        (RiskManager.checkDailyReset now rm) opp)
                     (RiskManager.checks
                        (RiskManager.checkPreExecution now rm opp sz).2))
      by (cbn; tauto).
    rewrite (failed_check_rejects now rm opp sz _ Hin Hpassed) in Happroved.
    discriminate.
Qed.

Lemma minLiquidityOf_first (opp : ArbitrageOpportunity) :
  RiskManager.minLiquidityOf opp <= market1Liquidity opp.
Proof.
  unfold RiskManager.minLiquidityOf.
  destruct (type opp); try apply Qle_refl;
    destruct (market2Liquidity opp) as [l2 |]; try apply Qle_refl;
    destruct (Qeq_bool l2 0); first [apply Qle_refl | apply Q.le_min_l].
Qed.

Lemma minLiquidityOf_second (opp : ArbitrageOpportunity) (l2 : Q) :
  type opp <> multi_outcome ->
  market2Liquidity opp = Some l2 ->
  ~ l2 == 0 ->
  RiskManager.minLiquidityOf opp <= l2.
Proof.
  intros Htype Hl2 Hnz. unfold RiskManager.minLiquidityOf. rewrite Hl2.
  assert (Hz : Qeq_bool l2 0 = false).
  { destruct (Qeq_bool l2 0) eqn:Hz; [| reflexivity].
    apply Qeq_bool_iff in Hz. contradiction. }
  rewrite Hz. destruct (type opp); [contradiction | apply Q.le_min_r ..].
Qed.

(** X29. What a completed simulated execution can cost.  A completed
    execution of a request with a non-negative size has two legs; each
    executed price is [NaN] ([None]) or lies between 0.01 and 0.99; the
    realized profit is [NaN] exactly when one of the two prices is, and
    otherwise lies between minus the size and the size; the balance
    moves by the realized profit, or not at all when that is [NaN], and
    is not negative afterwards.  When moreover the base slippage and the
    impact factor are not negative, the liquidity floor of the risk
    limits is positive and, for an opportunity between two markets, the
    second market has a price and a liquidity other than zero, then
    both prices and the profit are finite and both slippages are finite
    and not negative. *)
Theorem completed_execution_loss_is_bounded
    (cfg : Config.ArbitrageConfig) (checkTime updateTime endTime : Z) (ex : t)
    (request : ExecutionRequest) (tape : nat -> Q) (ex' : t)
    (result : ExecutionResult) :
  Rand.eval (execute cfg checkTime updateTime endTime ex request) tape
  = Done ex' result ->
  resultStatus result = complete ->
  0 <= sizeUsd request ->
  exists second price1 price2 s1 s2 pnl,
    leg2 result = Some second
    /\ executedPrice (leg1 result) = Some price1
    /\ executedPrice second = Some price2
    /\ slippage (leg1 result) = Some s1
    /\ slippage second = Some s2
    /\ realizedProfitUsd result = Some pnl
    /\ (forall p, price1 = Some p -> 0.01 <= p <= 0.99)
    /\ (forall p, price2 = Some p -> 0.01 <= p <= 0.99)
    /\ (pnl = None <-> price1 = None \/ price2 = None)
    /\ (forall profit, pnl = Some profit ->
          - sizeUsd request <= profit <= sizeUsd request
          /\ balance (state ex') = balance (state ex) + profit)
    /\ (pnl = None -> balance (state ex') = balance (state ex) + 0)
    /\ 0 <= balance (state ex')
    /\ (0 <= Config.baseSlippageBps cfg ->
        0 <= Config.liquidityImpactFactor cfg ->
        0 < minLiquidityUsd (RiskManager.limits (localRiskManager ex)) ->
        (type (base (opportunity request)) <> multi_outcome ->
         exists liquidity2 marketPrice2,
           market2Liquidity (base (opportunity request)) = Some liquidity2
           /\ ~ liquidity2 == 0
           /\ market2Price (base (opportunity request)) = Some marketPrice2) ->
        exists p1 p2 b1 b2 profit,
          price1 = Some p1 /\ price2 = Some p2
          /\ s1 = JsNumber.num b1 /\ s2 = JsNumber.num b2
          /\ 0 <= b1 /\ 0 <= b2
          /\ pnl = Some profit).
Proof.
  intros Hrun Hcomplete Hsize.
  destruct (execute_Done _ _ _ _ _ _ _ _ _ Hrun)
    as [(reason & -> & _) | (Happroved & Hbalance & -> & j & Hlegs)];
    [discriminate |].
  apply approved_liquidity in Happroved.
  set (opp := opportunity request) in *. set (size := sizeUsd request) in *.
  destruct (legs_result cfg opp size tape 0%nat)
    as (result0 & j0 & first & second & price1 & price2 & s1 & s2 & pnl
        & Hlegs0 & _ & _ & Hfirst & Hsecond & _ & Hprice1 & Hprice2 & Hs1 & Hs2
        & Hpnl & Hp1 & Hp2 & Hnan & Hbound).
  rewrite Hlegs in Hlegs0. injection Hlegs0 as <- <-. subst first.
  specialize (Hbound Hsize).
  assert (Hstate : balance (state (recordResult updateTime endTime ex
                              (RiskManager.checkPreExecution checkTime
                                 (localRiskManager ex) (base opp) size).1
                              opp result))
                   = balance (state ex) + orZero (Some pnl)).
  { unfold recordResult. now rewrite Hcomplete, Hpnl. }
  exists second, price1, price2, s1, s2, pnl.
  do 9 (split; [assumption |]).
  split.
  { intros profit ->. split; [now apply Hbound | exact Hstate]. }
  split; [intros ->; exact Hstate |].
  split.
  { rewrite Hstate. destruct pnl as [profit |]; cbn [orZero].
    - specialize (Hbound profit eq_refl). lra.
    - lra. }
  intros Hbase Hfactor Hfloor Hsecond'.
  pose proof (minLiquidityOf_first (base opp)) as Hliq1.
  assert (Hsecond2 : type (base opp) <> multi_outcome ->
            exists liquidity2 marketPrice2,
              market2Liquidity (base opp) = Some liquidity2
              /\ 0 < liquidity2
              /\ market2Price (base opp) = Some marketPrice2).
  { intros Htype.
    destruct (Hsecond' Htype) as (l2 & pr2 & Hl2 & Hnz & Hpr2).
    exists l2, pr2. split; [exact Hl2 |]. split; [| exact Hpr2].
    pose proof (minLiquidityOf_second (base opp) l2 Htype Hl2 Hnz). lra. }
  destruct (legs_finite cfg opp size tape 0%nat Hbase Hfactor Hsize
              ltac:(lra) Hsecond2)
    as (second' & p1 & p2 & b1 & b2 & profit & Hsecond0 & Hq1 & Hq2 & Hb1 & Hb2
        & Hb1pos & Hb2pos & Hprofit).
  rewrite Hlegs in Hsecond0, Hq1, Hb1, Hprofit.
  cbn [fst] in Hsecond0, Hq1, Hb1, Hprofit.
  rewrite Hsecond in Hsecond0. injection Hsecond0 as <-.
  exists p1, p2, b1, b2, profit.
  repeat split; try assumption; congruence.
Qed.

(** X30. The size the runner asks for.  [executeOpportunity] sends a
    request exactly when the balance is at least 100 and the position
    limit at least 10; the size is then between 10 and 100, at most a
    tenth of the balance and at most the position limit, so [execute]
    never fails such a request for an insufficient balance. *)
Theorem runner_request_size
    (cfg : Config.ArbitrageConfig) (ex : t) (opp : Opportunity) :
  (runnerRequest cfg ex opp = None
   <-> balance (state ex) < 100 \/ Config.risk_maxPositionSizeUsd cfg < 10)
  /\ (forall request,
        runnerRequest cfg ex opp = Some request ->
        opportunity request = opp
        /\ 10 <= sizeUsd request <= 100
        /\ sizeUsd request <= balance (state ex) * 0.1
        /\ sizeUsd request <= Config.risk_maxPositionSizeUsd cfg
        /\ forall checkTime updateTime endTime tape ex' result,
             Rand.eval (execute cfg checkTime updateTime endTime ex request) tape
             = Done ex' result ->
             failureReason result <> Some InsufficientBalance).
Proof.
  unfold runnerRequest.
  set (size := Qmin (Qmin (balance (state ex) * 0.1)
                          (Config.risk_maxPositionSizeUsd cfg)) 100).
  assert (H100 : size <= 100) by apply Q.le_min_r.
  assert (Hbal : size <= balance (state ex) * 0.1)
    by (eapply Qle_trans; [apply Q.le_min_l | apply Q.le_min_l]).
  assert (Hmax : size <= Config.risk_maxPositionSizeUsd cfg)
    by (eapply Qle_trans; [apply Q.le_min_l | apply Q.le_min_r]).
  assert (Hglb : forall x, x <= balance (state ex) * 0.1 ->
                           x <= Config.risk_maxPositionSizeUsd cfg ->
                           x <= 100 -> x <= size)
    by (intros x H1 H2 H3; subst size; repeat apply Q.min_glb; assumption).
  destruct (Qltb size 10) eqn:Hsmall.
  - apply Qltb_true in Hsmall. split.
    + split; [intros _ | reflexivity].
      destruct (Qlt_le_dec (balance (state ex)) 100) as [Hlow | Hhigh];
        [now left |].
      destruct (Qlt_le_dec (Config.risk_maxPositionSizeUsd cfg) 10)
        as [Hcap | Hcap]; [now right |].
      specialize (Hglb 10 ltac:(lra) Hcap ltac:(lra)). lra.
    + intros request [=].
  - apply Qltb_false in Hsmall. split.
    + split; [discriminate | intros [Hlow | Hcap]; lra].
    + intros request [= <-]. cbn [opportunity sizeUsd].
      split; [reflexivity |]. split; [split; assumption |].
      split; [exact Hbal |]. split; [exact Hmax |].
      intros tc tu te tape ex' result Hrun.
      destruct (execute_Done _ _ _ _ _ _ _ _ _ Hrun)
        as [(reason & -> & _ & Hinsufficient & _) | (_ & _ & _ & j & Hlegs)].
      * cbn [createFailedResult failureReason sizeUsd] in *.
        intros [= ->]. specialize (Hinsufficient eq_refl). lra.
      * cbn [opportunity sizeUsd] in Hlegs.
        destruct (legs_result cfg opp size tape 0%nat)
          as (result0 & j0 & first & second & price1 & price2 & s1 & s2 & pnl
              & Hlegs0 & _ & Hreason & _).
        rewrite Hlegs in Hlegs0. injection Hlegs0 as <- <-.
        rewrite Hreason. discriminate.
Qed.

Lemma execute_rejects_or_completes_witness :
  match Rand.eval (execute Config.defaults 60000 60001 60002
                     SimSamples.executor SimSamples.request)
                  (Rand.tapeOf [0.5; 0.5]) with
  | Done ex' result =>
      resultStatus result = complete
      /\ tradesExecuted (state ex') = 1%Z
  end
  /\ match Rand.eval (execute Config.defaults 60000 60001 60002
                        SimSamples.executor SimSamples.illiquidRequest)
                     (Rand.tapeOf [0.5; 0.5]) with
     | Done ex' result =>
         resultStatus result = complete
         /\ realizedProfitUsd result = Some None
         /\ balance (state ex') = balance (state SimSamples.executor) + 0
         /\ tradesSuccessful (state ex') = 1%Z
     end.
Proof.
  split.
  - destruct (execute_rejects_or_completes Config.defaults 60000 60001 60002
                SimSamples.executor SimSamples.request (Rand.tapeOf [0.5; 0.5]))
      as (ex' & result & check & Hrun & _
          & [(Hfailed & _)
            | (Hcomplete & _ & _ & pnl & gain & _ & _ & _ & _ & _ & Hcount & _)]);
      rewrite Hrun.
    + vm_compute in Hrun. injection Hrun as _ <-. discriminate Hfailed.
    + split; [exact Hcomplete |]. rewrite Hcount. reflexivity.
  - destruct (execute_rejects_or_completes Config.defaults 60000 60001 60002
                SimSamples.executor SimSamples.illiquidRequest
                (Rand.tapeOf [0.5; 0.5]))
      as (ex' & result & check & Hrun & _
          & [(Hfailed & _)
            | (Hcomplete & _ & _ & pnl & gain & Hpnl & Hgain & Hbalance & _ & _
               & _ & Hwins & _)]);
      rewrite Hrun.
    + vm_compute in Hrun. injection Hrun as _ <-. discriminate Hfailed.
    + assert (Hnan : realizedProfitUsd result = Some None)
        by (vm_compute in Hrun; injection Hrun as _ <-; reflexivity).
      rewrite Hnan in Hpnl. injection Hpnl as <-. subst gain.
      split; [exact Hcomplete |]. split; [exact Hnan |].
      split; [exact Hbalance |]. rewrite Hwins. reflexivity.
Defined.

Lemma simulation_counts_every_trade_as_a_win_witness :
  match Rand.eval (execute Config.defaults 60000 60001 60002
                     SimSamples.executor SimSamples.request)
                  (Rand.tapeOf [0.5; 0.5]) with
  | Done ex' _ =>
      tradesSuccessful (state ex') = tradesExecuted (state ex')
      /\ balance (state ex') == startingBalance (state ex') + totalPnl (state ex')
  end.
Proof.
  destruct (Rand.eval (execute Config.defaults 60000 60001 60002
                         SimSamples.executor SimSamples.request)
                      (Rand.tapeOf [0.5; 0.5]))
    as [ex' result] eqn:Hrun.
  destruct (simulation_counts_every_trade_as_a_win Config.defaults ex'
              (reach_execute _ _ _ _ _ _ _ _ _
                 (reach_new _ 10000 (RiskManager.limitsOfConfig Config.defaults) 0)
                 Hrun))
    as (Hwins & _ & _ & Hbalance & _).
  split; assumption.
Defined.

Lemma completed_execution_loss_is_bounded_witness :
  match Rand.eval (execute Config.defaults 60000 60001 60002
                     SimSamples.executor SimSamples.crossRequest)
                  (Rand.tapeOf [0.5; 0.5]) with
  | Done ex' result =>
      0 <= balance (state ex')
      /\ exists profit,
           realizedProfitUsd result = Some (Some profit)
           /\ - (100) <= profit <= 100
  end
  /\ match Rand.eval (execute Config.defaults 60000 60001 60002
                        SimSamples.executor SimSamples.illiquidRequest)
                     (Rand.tapeOf [0.5; 0.5]) with
     | Done ex' result =>
         0 <= balance (state ex')
         /\ realizedProfitUsd result = Some None
         /\ balance (state ex') = balance (state SimSamples.executor) + 0
     end.
Proof.
  split.
  - destruct (Rand.eval (execute Config.defaults 60000 60001 60002
                           SimSamples.executor SimSamples.crossRequest)
                        (Rand.tapeOf [0.5; 0.5]))
      as [ex' result] eqn:Hrun.
    assert (Hcomplete : resultStatus result = complete)
      by (vm_compute in Hrun; injection Hrun as _ <-; reflexivity).
    destruct (completed_execution_loss_is_bounded _ _ _ _ _ _ _ _ _ Hrun Hcomplete)
      as (second & price1 & price2 & s1 & s2 & pnl & _ & _ & _ & _ & _ & Hpnl & _
          & _ & _ & Hbound & _ & Hbalance & Hfinite);
      [vm_compute; discriminate |].
    destruct Hfinite as (p1 & p2 & b1 & b2 & profit & _ & _ & _ & _ & _ & _ & ->);
      try (vm_compute; first [discriminate | reflexivity]).
    { intros _. exists 60000, 0.45.
      split; [reflexivity |]. split; [| reflexivity].
      intros Hzero. vm_compute in Hzero. discriminate. }
    split; [exact Hbalance |]. exists profit. split; [exact Hpnl |].
    exact (proj1 (Hbound profit eq_refl)).
  - destruct (Rand.eval (execute Config.defaults 60000 60001 60002
                           SimSamples.executor SimSamples.illiquidRequest)
                        (Rand.tapeOf [0.5; 0.5]))
      as [ex' result] eqn:Hrun.
    assert (Hcomplete : resultStatus result = complete)
      by (vm_compute in Hrun; injection Hrun as _ <-; reflexivity).
    assert (Hnan : realizedProfitUsd result = Some None)
      by (vm_compute in Hrun; injection Hrun as _ <-; reflexivity).
    destruct (completed_execution_loss_is_bounded _ _ _ _ _ _ _ _ _ Hrun Hcomplete)
      as (second & price1 & price2 & s1 & s2 & pnl & _ & _ & _ & _ & _ & Hpnl & _
          & _ & _ & _ & Hsame & Hbalance & _);
      [vm_compute; discriminate |].
    rewrite Hnan in Hpnl. injection Hpnl as <-.
    split; [exact Hbalance |]. split; [exact Hnan |]. exact (Hsame eq_refl).
Defined.
End SimulationAccount.

(* ===================================================================== *)
(** * PaperTradingExecutor: the rationals as the finite case *)
(* ===================================================================== *)

Section PaperTradeFiniteCase.
Import JsNum Types JsNumber JsPaperTradingExecutor.
Local Open Scope Q_scope.

Lemma Qeq_bool_nonzero (x : Q) : ~ x == 0 -> Qeq_bool x 0 = false.
Proof.
  intros Hx. destruct (Qeq_bool x 0) eqn:Hz; [| reflexivity].
  apply Qeq_bool_iff in Hz. contradiction.
Qed.

Lemma calculatePositionSize_on_finite cfg (ex : PaperTradingExecutor.t)
    (o : ArbitrageOpportunity) :
  calculatePositionSize cfg (ofFiniteExecutor ex) (ofFinite o)
  = num (PaperTradingExecutor.calculatePositionSize cfg ex o).
Proof.
  unfold calculatePositionSize, PaperTradingExecutor.calculatePositionSize.
  cbn [ofFiniteExecutor ofFinite bankroll confidenceScore profitPercent].
  rewrite calculateKellyFraction_on_finite.
  cbn [mul min max ltb]. destruct (Qltb _ 10); reflexivity.
Qed.

Lemma leg2SlippageBps_on_finite cfg (o : ArbitrageOpportunity) (size : Q) :
  leg2SlippageBps cfg (ofFinite o) (num size)
  = num (PaperTradingExecutor.leg2SlippageBps cfg o size).
Proof.
  unfold leg2SlippageBps, PaperTradingExecutor.leg2SlippageBps.
  cbn [ofFinite market2Liquidity market2Price].
  destruct (Types.market2Liquidity o) as [l2 |]; [| reflexivity].
  cbn [option_map truthy].
  destruct (Qeq_bool l2 0) eqn:Hl2; [reflexivity |]. cbn [negb].
  unfold JsSlippageModel.estimate. cbv zeta.
  cbn [JsSlippageModel.estimatedSlippageBps div]. rewrite Hl2.
  unfold JsSlippageModel.calculatePriceImpact, SlippageModel.calculatePriceImpact.
  destruct (Types.market2Price o) as [p2 |]; cbn [option_map ofOption ltb].
  - destruct (Qltb p2 0.1); reflexivity.
  - reflexivity.
Qed.

Lemma simulateCLOBExecution_on_finite cfg (o : ArbitrageOpportunity) (size : Q)
    tape i e1 :
  SlippageModel.estimate cfg size (Types.market1Liquidity o) true
                         (Types.market1Price o) = Some e1 ->
  exists sim bps j,
    PaperTradingExecutor.simulateCLOBExecution cfg o size tape i = (sim, j)
    /\ PaperTradingExecutor.totalSlippageBps sim = Some bps
    /\ simulateCLOBExecution cfg (ofFinite o) (num size) tape i
       = ({| leg1Failed := PaperTradingExecutor.leg1Failed sim;
             leg2Failed := PaperTradingExecutor.leg2Failed sim;
             fillRate := PaperTradingExecutor.fillRate sim;
             totalSlippageBps := num bps |}, j).
Proof.
  intros He1.
  unfold simulateCLOBExecution, PaperTradingExecutor.simulateCLOBExecution.
  rewrite He1.
  cbn [ofFinite market1Liquidity market1Price].
  rewrite (estimate_on_finite _ _ _ _ _ _ He1), leg2SlippageBps_on_finite.
  unfold JsSlippageModel.addNoise, SlippageModel.addNoise, Rand.bind,
    Rand.random, Rand.ret.
  destruct (Qltb (tape i) PaperTradingExecutor.LEG_FAILURE_PROBABILITY);
    [do 3 eexists; split; [reflexivity |]; split; reflexivity |].
  destruct (Qltb (tape (S i)) PaperTradingExecutor.LEG_FAILURE_PROBABILITY);
    [do 3 eexists; split; [reflexivity |]; split; reflexivity |].
  cbn [negb andb].
  destruct (Qltb (tape (S (S i))) PaperTradingExecutor.PARTIAL_FILL_PROBABILITY);
    do 3 eexists; (split; [reflexivity |]); split; reflexivity.
Qed.

Lemma settle_on_finite (ex : PaperTradingExecutor.t) (o : ArbitrageOpportunity)
    t0 t1 (k size : Q) sim bps (b' realized : Q) ok why :
  0 < PaperTradingExecutor.peakBalance ex ->
  0 < size ->
  PaperTradingExecutor.totalSlippageBps sim = Some bps ->
  exists ex' trade,
    PaperTradingExecutor.settle ex o t0 t1 k size sim b' realized ok why
    = PaperTradingExecutor.Traded ex' trade
    /\ settle (ofFiniteExecutor ex) (ofFinite o) t0 t1 (num k) (num size)
         {| leg1Failed := PaperTradingExecutor.leg1Failed sim;
            leg2Failed := PaperTradingExecutor.leg2Failed sim;
            fillRate := PaperTradingExecutor.fillRate sim;
            totalSlippageBps := num bps |}
         (num b') (num realized) ok why
       = Traded (ofFiniteExecutor ex') (ofFiniteTrade trade).
Proof.
  intros Hpeak Hsize Hbps.
  unfold PaperTradingExecutor.settle, settle. do 2 eexists.
  split; [reflexivity |].
  unfold ofFiniteExecutor, ofFiniteTrade.
  cbn [ofFinite bankroll startingBankroll trades
       tradeIdCounter peakBalance maxDrawdown type subType market1Question
       market2Question profitPercent leg1Failed leg2Failed fillRate
       totalSlippageBps
       PaperTradingExecutor.bankroll PaperTradingExecutor.startingBankroll
       PaperTradingExecutor.trades PaperTradingExecutor.tradeIdCounter
       PaperTradingExecutor.peakBalance PaperTradingExecutor.maxDrawdown
       PaperTradingExecutor.id PaperTradingExecutor.timestamp
       PaperTradingExecutor.opportunityType PaperTradingExecutor.subType
       PaperTradingExecutor.market1Question PaperTradingExecutor.market2Question
       PaperTradingExecutor.positionSize PaperTradingExecutor.kellyFraction
       PaperTradingExecutor.expectedProfit PaperTradingExecutor.realizedProfit
       PaperTradingExecutor.profitPercent PaperTradingExecutor.leg1Status
       PaperTradingExecutor.leg2Status PaperTradingExecutor.slippageBps
       PaperTradingExecutor.executionTimeMs PaperTradingExecutor.balanceAfter
       PaperTradingExecutor.success PaperTradingExecutor.failureReason].
  rewrite Hbps, List.map_app. cbn [List.map ofFiniteTrade ofFiniteOrNaN
       PaperTradingExecutor.id PaperTradingExecutor.timestamp
       PaperTradingExecutor.opportunityType PaperTradingExecutor.subType
       PaperTradingExecutor.market1Question PaperTradingExecutor.market2Question
       PaperTradingExecutor.positionSize PaperTradingExecutor.kellyFraction
       PaperTradingExecutor.expectedProfit PaperTradingExecutor.realizedProfit
       PaperTradingExecutor.profitPercent PaperTradingExecutor.leg1Status
       PaperTradingExecutor.leg2Status PaperTradingExecutor.slippageBps
       PaperTradingExecutor.executionTimeMs PaperTradingExecutor.balanceAfter
       PaperTradingExecutor.success PaperTradingExecutor.failureReason].
  unfold gtb. cbn [ltb sub add neg].
  assert (Hsz : Qeq_bool size 0 = false) by (apply Qeq_bool_nonzero; lra).
  assert (Hpk : Qeq_bool
                  (if Qltb (PaperTradingExecutor.peakBalance ex) b' then b'
                   else PaperTradingExecutor.peakBalance ex) 0 = false).
  { apply Qeq_bool_nonzero.
    destruct (Qltb (PaperTradingExecutor.peakBalance ex) b') eqn:Hlt;
      [apply Qltb_true in Hlt |]; lra. }
  destruct (Qltb (PaperTradingExecutor.peakBalance ex) b') eqn:Hlt;
    cbn [div mul ltb sub add neg]; rewrite Hsz, Hpk; cbn [mul ltb];
    unfold Qminus;
    match goal with
    | |- context [Qltb (PaperTradingExecutor.maxDrawdown ex) ?d] =>
        destruct (Qltb (PaperTradingExecutor.maxDrawdown ex) d)
    end; reflexivity.
Qed.

(** On finite numbers, with a first market whose liquidity is not zero
    and a positive peak balance, [execute] on all numbers returns what
    [execute] on the rationals returns, which is then never
    [NotFinite]. *)
Lemma execute_on_finite cfg t0 t1 (ex : PaperTradingExecutor.t)
    (o : ArbitrageOpportunity) (tape : nat -> Q) :
  ~ Types.market1Liquidity o == 0 ->
  0 < PaperTradingExecutor.peakBalance ex ->
  match Rand.eval (PaperTradingExecutor.execute cfg t0 t1 ex o) tape with
  | PaperTradingExecutor.NoTrade =>
      Rand.eval (execute cfg t0 t1 (ofFiniteExecutor ex) (ofFinite o)) tape
      = NoTrade
  | PaperTradingExecutor.Traded ex' trade =>
      Rand.eval (execute cfg t0 t1 (ofFiniteExecutor ex) (ofFinite o)) tape
      = Traded (ofFiniteExecutor ex') (ofFiniteTrade trade)
  | PaperTradingExecutor.NotFinite => False
  end.
Proof.
  intros Hliq Hpeak.
  unfold Rand.eval, execute, PaperTradingExecutor.execute. cbv zeta.
  rewrite calculatePositionSize_on_finite.
  cbn [ofFinite confidenceScore profitPercent ofFiniteExecutor bankroll].
  rewrite calculateKellyFraction_on_finite.
  set (size := PaperTradingExecutor.calculatePositionSize cfg ex o).
  set (k := PaperTradingExecutor.calculateKellyFraction _ _).
  cbn [leb].
  destruct (Qle_bool size 0) eqn:Hsize; [reflexivity |].
  apply Qle_bool_false in Hsize.
  unfold Rand.bind, Rand.random.
  destruct (SlippageModel.estimate cfg size (Types.market1Liquidity o) true
              (Types.market1Price o)) as [e1 |] eqn:He1;
    [| rewrite estimate_some in He1 by exact Hliq; discriminate].
  destruct (simulateCLOBExecution_on_finite cfg o size tape 1%nat e1 He1)
    as (sim & bps & j & Hq & Hbps & Hjs).
  rewrite Hq, Hjs. cbn [leg1Failed leg2Failed fillRate totalSlippageBps].
  unfold Rand.ret.
  destruct (PaperTradingExecutor.leg1Failed sim) eqn:Hleg1;
    [| destruct (PaperTradingExecutor.leg2Failed sim) eqn:Hleg2;
       [| rewrite Hbps]];
    cbn [fst];
    match goal with
    | |- match PaperTradingExecutor.settle _ _ _ _ _ _ _ ?b ?r ?ok ?why
         with _ => _ end =>
        destruct (settle_on_finite ex o t0 t1 k size sim bps b r ok why
                    Hpeak Hsize Hbps) as (ex' & trade & HQ & HJ);
        rewrite HQ; rewrite ?Hleg1, ?Hleg2 in HJ; exact HJ
    end.
Qed.
End PaperTradeFiniteCase.
